(** * Polymarket market-making bot: a shallow embedding of the trading core

    The Python sources under [src/pmm] are embedded as Rocq functions:
    - Python [float] values are modelled as exact rationals ([Q]); rounding,
      infinities and NaN are outside the model;
    - Python [int] values are [Z];
    - [str] values are [string] (one character per code point below 256);
    - dictionaries are [gmap]s, or insertion-ordered association lists where
      the iteration order drives side effects;
    - objects mutated in place become explicit state passing;
    - exceptions are values of [pyres].

    Part I holds the embedding, Part II the properties of the specification,
    Part III further properties of the code. *)

From Stdlib Require Import ZArith QArith Qminmax Qabs Qround Lia Lqa.
From Stdlib Require Import String Ascii List Bool Sorted.
From stdpp Require Import gmap strings pretty.
Import ListNotations.

Open Scope Q_scope.
Open Scope string_scope.

(* ===================================================================== *)
(** * Part I. The embedding                                               *)
(* ===================================================================== *)

(** ** Python built-ins used by the sources *)

(** [max(a, b)]: the first maximal argument. *)
Definition py_max (a b : Q) : Q := if Qlt_le_dec a b then b else a.

(** [min(a, b)]: the first minimal argument. *)
Definition py_min (a b : Q) : Q := if Qlt_le_dec b a then b else a.

(** [a < b], [a <= b], [a == b] on floats, as booleans. *)
Definition Qltb (a b : Q) : bool := if Qlt_le_dec a b then true else false.
Definition Qleb (a b : Q) : bool := if Qlt_le_dec b a then false else true.
Definition Qeqb (a b : Q) : bool := Qeq_bool a b.

(** [str.upper()] on the ASCII range. *)
Definition upper_ascii (c : ascii) : ascii :=
  let n := nat_of_ascii c in
  if ((97 <=? n) && (n <=? 122))%nat then ascii_of_nat (n - 32) else c.

Fixpoint upper (s : string) : string :=
  match s with
  | EmptyString => EmptyString
  | String c r => String (upper_ascii c) (upper r)
  end.

(** [str.lower()] on the ASCII range. *)
Definition lower_ascii (c : ascii) : ascii :=
  let n := nat_of_ascii c in
  if ((65 <=? n) && (n <=? 90))%nat then ascii_of_nat (n + 32) else c.

Fixpoint lower (s : string) : string :=
  match s with
  | EmptyString => EmptyString
  | String c r => String (lower_ascii c) (lower r)
  end.

(** Exceptions that the modelled code can raise. *)
Inductive exn : Type := ZeroDivisionError | IndexError.

Inductive pyres (A : Type) : Type :=
| Ret (a : A)
| Raise (e : exn).
Arguments Ret {A} a.
Arguments Raise {A} e.

#[global] Instance pyres_ret : MRet pyres := fun A a => Ret a.

#[global] Instance pyres_bind : MBind pyres := fun A B k m =>
  match m with
  | Ret a => k a
  | Raise e => Raise e
  end.

(** Two computations that end alike: both return, with related values, or
    both raise the same exception. *)
Definition res_rel {A B} (P : A -> B -> Prop) (r1 : pyres A) (r2 : pyres B) : Prop :=
  match r1, r2 with
  | Ret a, Ret b => P a b
  | Raise e1, Raise e2 => e1 = e2
  | _, _ => False
  end.

(** ** pmm/utils/math.py *)

Definition clamp (x lo hi : Q) : Q := py_max lo (py_min hi x).

(** [Decimal.to_integral_value(rounding=ROUND_DOWN)]: the integer part,
    rounding towards zero. *)
Definition to_integral_down (q : Q) : Z :=
  if Qleb 0 q then Qfloor q else Qceiling q.

(** [quantize_price]: the decimal arithmetic of the source is exact on
    decimals, and is taken as exact rational arithmetic here. *)
Definition quantize_price (p tick : Q) : Q :=
  if Qleb tick 0 then p
  else inject_Z (to_integral_down (p / tick)) * tick.

(** ** pmm/strategy/mm_spread.py *)

Module MMSpread.

Record Quote : Type := { side : string; price : Q; size : Q }.

Record SymmetricSpreadMM : Type :=
  { target_spread_bps : Q; max_usd : Q; alpha_scale : Q }.

Definition quotes (self : SymmetricSpreadMM) (midpoint : Q) : list Quote :=
  let mid := midpoint in
  let spread := mid * (target_spread_bps self / 10000) in
  let bid := clamp (mid - spread / 2) 0.001 0.999 in
  let ask := clamp (mid + spread / 2) 0.001 0.999 in
  let usd_each_side := (max_usd self / 2) * alpha_scale self in
  let bid_size := py_max 1 (usd_each_side / py_max 0.01 bid) in
  let ask_size := py_max 1 (usd_each_side / py_max 0.01 ask) in
  [ {| side := "BUY"; price := bid; size := bid_size |};
    {| side := "SELL"; price := ask; size := ask_size |} ].

(** Two quotes agree when their sides are equal and their numbers are equal
    as rationals. *)
Definition quote_equiv (a b : Quote) : Prop :=
  side a = side b /\ price a == price b /\ size a == size b.

(** The quoter as section 4.1 of the specification words it, with the divisor
    of the half-spread left open: the specification writes [10000]. *)
Definition spec_quotes_with (divisor : Q) (self : SymmetricSpreadMM) (m : Q)
  : list Quote :=
  let s := target_spread_bps self in
  let u := (max_usd self / 2) * alpha_scale self in
  let half := m * s / divisor in
  let bid := Qmax 0.001 (Qmin 0.999 (m - half)) in
  let ask := Qmax 0.001 (Qmin 0.999 (m + half)) in
  [ {| side := "BUY"; price := bid; size := Qmax 1 (u / Qmax 0.01 bid) |};
    {| side := "SELL"; price := ask; size := Qmax 1 (u / Qmax 0.01 ask) |} ].

Definition spec_quotes := spec_quotes_with 10000.
Definition amended_quotes := spec_quotes_with 20000.

End MMSpread.

(** ** pmm/strategy/risk.py *)

Module Risk.

Record RiskLimits : Type :=
  { alpha : Q; max_usd_per_market : Q; max_gross_usd : Q }.

Record RiskManager : Type := { limits : RiskLimits }.

(** [1.0 / max(1.0, alpha)]: the divisor is at least 1. *)
Definition size_scale (self : RiskManager) : Q :=
  1 / py_max 1 (alpha (limits self)).

End Risk.

(** ** pmm/strategy/calibrator.py *)

Module Calibrator.

Record MarketCalibState : Type :=
  { fills : Z; quotes : Z; markout_sum : Q; realized_spread_sum : Q }.

Record MarketCalibParams : Type :=
  { alpha : Q;
    target_spread_bps : Q;
    max_usd : Q;
    quote_refresh_sec : Q;
    cancel_reprice_sec : Q;
    state : MarketCalibState }.

(** [next_params]; the two divisions by [prev.target_spread_bps] raise
    [ZeroDivisionError] when it is zero. *)
Definition next_params (prev : MarketCalibParams) : pyres MarketCalibParams :=
  let st := state prev in
  if (quotes st <=? 0)%Z then Ret prev
  else
    let fill_rate := inject_Z (fills st) / inject_Z (Z.max 1 (quotes st)) in
    let avg_markout := markout_sum st / inject_Z (Z.max 1 (fills st)) in
    let spread := target_spread_bps prev in
    let spread :=
      if (5 <=? fills st)%Z && Qltb avg_markout 0
      then spread * (1 + py_min 0.50 (Qabs avg_markout * 5))
      else if Qltb fill_rate 0.01 && (500 <? quotes st)%Z
           then spread * 0.90
           else spread in
    let spread := py_max 20 (py_min spread 500) in
    if Qeqb (target_spread_bps prev) 0 then Raise ZeroDivisionError
    else
      let quote_refresh :=
        py_min 10 (py_max 1 (quote_refresh_sec prev * (spread / target_spread_bps prev))) in
      let cancel_reprice :=
        py_min 60 (py_max 5 (cancel_reprice_sec prev * (spread / target_spread_bps prev))) in
      Ret {| alpha := alpha prev;
             target_spread_bps := spread;
             max_usd := max_usd prev;
             quote_refresh_sec := quote_refresh;
             cancel_reprice_sec := cancel_reprice;
             state := st |}.

(** The three output bounds of the calibrator. *)
Definition in_bounds (p : MarketCalibParams) : Prop :=
  20 <= target_spread_bps p <= 500 /\
  1 <= quote_refresh_sec p <= 10 /\
  5 <= cancel_reprice_sec p <= 60.

End Calibrator.

(** ** pmm/analytics/inventory.py *)

Module Inventory.

Record Position : Type := { qty : Q; avg_cost : Q; realized : Q }.

Definition Position0 : Position := {| qty := 0; avg_cost := 0; realized := 0 |}.

Record InventoryEngine : Type :=
  { cash : Q; pos : gmap string Position }.

Definition InventoryEngine_init (starting_cash : Q) : InventoryEngine :=
  {| cash := starting_cash; pos := ∅ |}.

Definition apply_fill (self : InventoryEngine)
  (token_id side : string) (price size fee : Q) : InventoryEngine :=
  let side := upper side in
  let p := default Position0 (pos self !! token_id) in
  if String.eqb side "BUY" then
    let cost := price * size + fee in
    let new_qty := qty p + size in
    let avg :=
      if Qltb 0.000000000001 new_qty
      then (avg_cost p * qty p + price * size) / new_qty
      else avg_cost p in
    let p' := {| qty := new_qty; avg_cost := avg; realized := realized p |} in
    {| cash := cash self - cost; pos := <[token_id := p']> (pos self) |}
  else
    let proceeds := price * size - fee in
    let sell_size := py_min size (qty p) in
    let realized' := realized p + (price - avg_cost p) * sell_size in
    let qty' := qty p - sell_size in
    let p' :=
      if Qleb qty' 0.000000000001
      then {| qty := 0; avg_cost := 0; realized := realized' |}
      else {| qty := qty'; avg_cost := avg_cost p; realized := realized' |} in
    {| cash := cash self + proceeds; pos := <[token_id := p']> (pos self) |}.

(** One row of the trade tape, as [apply_fill] receives it. *)
Record Fill : Type :=
  { f_token : string; f_side : string; f_price : Q; f_size : Q; f_fee : Q }.

Definition apply_fills (self : InventoryEngine) (fs : list Fill) : InventoryEngine :=
  fold_left
    (fun inv f => apply_fill inv (f_token f) (f_side f) (f_price f) (f_size f) (f_fee f))
    fs self.

(** The fills the invariant is stated for: BUY or SELL, a price strictly
    inside (0,1), a non-negative size and a non-negative fee. *)
Definition valid_fill (f : Fill) : Prop :=
  (upper (f_side f) = "BUY" \/ upper (f_side f) = "SELL") /\
  0 < f_price f /\ f_price f < 1 /\ 0 <= f_size f /\ 0 <= f_fee f.

(** The invariant that [apply_fill] keeps on each position: the quantity is
    never negative, and the average cost is zero exactly on positions of at
    most 1e-12 shares. *)
Definition pos_inv (p : Position) : Prop :=
  0 <= qty p /\ (qty p <= 0.000000000001 -> avg_cost p == 0) /\ (0.000000000001 < qty p -> 0 < avg_cost p).

(** [realized_total]: [sum(p.realized for p in self.pos.values())]. The
    positions are listed in the order of the map, not in insertion order; the
    sum is the same rational either way. *)
Definition realized_total (self : InventoryEngine) : Q :=
  fold_left Qplus (map (fun kp => realized kp.2) (map_to_list (pos self))) 0.

(** [equity]: cash plus the marked value of every position that has a
    midpoint. *)
Definition equity (self : InventoryEngine) (midpoint_by_token : gmap string Q) : Q :=
  fold_left
    (fun eq kp =>
       match midpoint_by_token !! kp.1 with
       | Some mid => eq + mid * qty kp.2
       | None => eq
       end)
    (map_to_list (pos self)) (cash self).

(** The loop of [mark] on the state ([gross], [unreal], [marks]). *)
Definition mark_step (midpoint_by_token : gmap string Q)
  (st : Q * Q * gmap string Q) (kp : string * Position) : Q * Q * gmap string Q :=
  let '(gross, unreal, marks) := st in
  match midpoint_by_token !! kp.1 with
  | None => st
  | Some mid =>
    (gross + Qabs (qty kp.2) * mid,
     unreal + (mid - avg_cost kp.2) * qty kp.2,
     <[kp.1 := mid]> marks)
  end.

(** [mark] returns (gross, realized total, unrealized, marks). *)
Definition mark (self : InventoryEngine) (midpoint_by_token : gmap string Q)
  : Q * Q * Q * gmap string Q :=
  let '(gross, unreal, marks) :=
    fold_left (mark_step midpoint_by_token) (map_to_list (pos self)) (0, 0, ∅) in
  (gross, realized_total self, unreal, marks).

(** *** Quantities used to state the ledger properties *)

(** The cash flow of one fill: a BUY pays price * size + fee, any other side
    receives price * size - fee. *)
Definition cash_flow (f : Fill) : Q :=
  if String.eqb (upper (f_side f)) "BUY"
  then - (f_price f * f_size f + f_fee f)
  else f_price f * f_size f - f_fee f.

Definition total_fees (fs : list Fill) : Q :=
  fold_left Qplus (map f_fee fs) 0.

(** The cost basis of the book: the sum of avg_cost * qty. *)
Definition cost_basis (self : InventoryEngine) : Q :=
  fold_left Qplus (map (fun kp => avg_cost kp.2 * qty kp.2) (map_to_list (pos self))) 0.

(** A fill that the two 1e-12 thresholds and the no-short rule leave alone:
    a BUY that ends above 1e-12 shares; a SELL of at most the quantity held
    that ends above 1e-12 shares or at exactly zero. *)
Definition clean_fill (self : InventoryEngine) (f : Fill) : bool :=
  let p := default Position0 (pos self !! f_token f) in
  if String.eqb (upper (f_side f)) "BUY"
  then Qltb 0.000000000001 (qty p + f_size f)
  else Qleb (f_size f) (qty p)
       && (Qltb 0.000000000001 (qty p - f_size f) || Qeqb (qty p - f_size f) 0).

(** One fill of the tape applied to the engine. *)
Definition apply_one (self : InventoryEngine) (f : Fill) : InventoryEngine :=
  apply_fill self (f_token f) (f_side f) (f_price f) (f_size f) (f_fee f).

(** The sum of a quantity over the positions of the book. *)
Definition sum_pos (g : Position -> Q) (m : gmap string Position) : Q :=
  fold_left Qplus (map (fun kp : string * Position => g kp.2) (map_to_list m)) 0.

(** Cash plus cost basis minus realized profit: what the book has cost. *)
Definition book_value (self : InventoryEngine) : Q :=
  cash self + cost_basis self - realized_total self.

Fixpoint clean_fills (self : InventoryEngine) (fs : list Fill) : bool :=
  match fs with
  | [] => true
  | f :: rest =>
    clean_fill self f
    && clean_fills (apply_fill self (f_token f) (f_side f) (f_price f) (f_size f) (f_fee f)) rest
  end.

End Inventory.

(** ** pmm/strategy/circuit_breaker.py *)

Module CircuitBreaker.

Record CircuitConfig : Type :=
  { max_reject_rate : Q;
    window_sec : Z;
    max_cancels_per_min : Z;
    max_errors : Z }.

Definition CircuitConfig_default : CircuitConfig :=
  {| max_reject_rate := 0.30; window_sec := 300; max_cancels_per_min := 120; max_errors := 10 |}.

Record CircuitState : Type :=
  { placed : Z; rejected : Z; errors : Z; cancel_events : list Z }.

Record CircuitBreaker : Type :=
  { cfg : CircuitConfig; state : CircuitState; _start_ts : Z }.

Definition CircuitBreaker_init (c : CircuitConfig) (now : Z) : CircuitBreaker :=
  {| cfg := c;
     state := {| placed := 0; rejected := 0; errors := 0; cancel_events := [] |};
     _start_ts := now |}.

Definition record_place (self : CircuitBreaker) (ok : bool) : CircuitBreaker :=
  let st := state self in
  {| cfg := cfg self;
     state := {| placed := placed st + 1;
                 rejected := if ok then rejected st else rejected st + 1;
                 errors := errors st;
                 cancel_events := cancel_events st |};
     _start_ts := _start_ts self |}.

(** The [while] loop of [record_cancel]: pop from the left while the head is
    more than 60 seconds old. *)
Fixpoint trim (now : Z) (events : list Z) : list Z :=
  match events with
  | [] => []
  | t :: rest => if (60 <? now - t)%Z then trim now rest else events
  end.

Definition record_cancel (self : CircuitBreaker) (now : Z) : CircuitBreaker :=
  let st := state self in
  {| cfg := cfg self;
     state := {| placed := placed st;
                 rejected := rejected st;
                 errors := errors st;
                 cancel_events := trim now (cancel_events st ++ [now]) |};
     _start_ts := _start_ts self |}.

Definition record_error (self : CircuitBreaker) : CircuitBreaker :=
  let st := state self in
  {| cfg := cfg self;
     state := {| placed := placed st;
                 rejected := rejected st;
                 errors := errors st + 1;
                 cancel_events := cancel_events st |};
     _start_ts := _start_ts self |}.

(** Rounding to the nearest integer, ties to even. *)
Definition round_half_even (q : Q) : Z :=
  let fl := Qfloor q in
  let r := q - inject_Z fl in
  if Qltb r 0.5 then fl
  else if Qltb 0.5 r then (fl + 1)%Z
  else if Z.even fl then fl else (fl + 1)%Z.

Definition two_digits (n : Z) : string :=
  if (n <? 10)%Z then "0" +:+ pretty n else pretty n.

(** The format [{x:.2%}]: the value times 100 with two decimals and a
    percent sign. *)
Definition format_pct2 (x : Q) : string :=
  let n := round_half_even (Qabs x * 10000) in
  (if Qltb x 0 then "-" else EmptyString)
  +:+ pretty (n / 100)%Z +:+ "." +:+ two_digits (n mod 100)%Z +:+ "%".

Definition reject_rate (self : CircuitBreaker) : Q :=
  let denom := Z.max 1 (placed (state self)) in
  inject_Z (rejected (state self)) / inject_Z denom.

Definition should_halt (self : CircuitBreaker) : bool * string :=
  let st := state self in
  let reject_rate := reject_rate self in
  if Qleb (max_reject_rate (cfg self)) reject_rate && (20 <=? placed st)%Z then
    (true, "reject_rate=" +:+ format_pct2 reject_rate +:+ " over placed=" +:+ pretty (placed st))
  else if (max_cancels_per_min (cfg self) <? Z.of_nat (length (cancel_events st)))%Z then
    (true, "cancel_rate=" +:+ pretty (length (cancel_events st)) +:+ "/min")
  else if (max_errors (cfg self) <=? errors st)%Z then
    (true, "errors=" +:+ pretty (errors st))
  else (false, EmptyString).

(** [sub in s] on strings. *)
Fixpoint contains (sub s : string) : bool :=
  if String.prefix sub s then true
  else match s with
       | EmptyString => false
       | String _ r => contains sub r
       end.

(** Feeding a list of placement outcomes to the breaker, oldest first. *)
Definition record_places (self : CircuitBreaker) (oks : list bool) : CircuitBreaker :=
  fold_left record_place oks self.

Definition count_rejects (oks : list bool) : nat := length (List.filter negb oks).

(** A history of calls on the breaker, oldest first. *)
Inductive Call : Type :=
| RecordPlace (ok : bool)
| RecordCancel (now : Z)
| RecordError.

Definition call (self : CircuitBreaker) (c : Call) : CircuitBreaker :=
  match c with
  | RecordPlace ok => record_place self ok
  | RecordCancel now => record_cancel self now
  | RecordError => record_error self
  end.

Definition calls (self : CircuitBreaker) (cs : list Call) : CircuitBreaker :=
  fold_left call cs self.

Definition record_cancels (self : CircuitBreaker) (times : list Z) : CircuitBreaker :=
  fold_left record_cancel times self.

(** The outcomes of the placements of a history, and its number of errors. *)
Definition placements (cs : list Call) : list bool :=
  flat_map (fun c => match c with RecordPlace ok => [ok] | _ => [] end) cs.

Definition error_count (cs : list Call) : nat :=
  length (List.filter (fun c => match c with RecordError => true | _ => false end) cs).

(** The times of a list that are at most 60 seconds before [now]. *)
Definition window (now : Z) (times : list Z) : list Z :=
  List.filter (fun t => negb (60 <? now - t)%Z) times.

(** The times at which a history recorded its cancels, oldest first. *)
Definition cancel_times (cs : list Call) : list Z :=
  flat_map (fun c => match c with RecordCancel now => [now] | _ => [] end) cs.

(** A breaker that trips on the third cancel of a minute. *)
Definition CircuitConfig_tight : CircuitConfig :=
  {| max_reject_rate := 0.30; window_sec := 300; max_cancels_per_min := 2; max_errors := 10 |}.

End CircuitBreaker.

(** ** Interfaces of the Python standard library *)

(** [math.exp] and the float power operator [**], which have no rational
    model. *)
Class PyMath : Type := { exp : Q -> Q; pow : Q -> Q -> Q }.

(** [random.Random]: construction from a seed and the three draws that the
    simulator makes. Each draw returns the value and the next generator
    state. *)
Class PyRandom (R : Type) : Type :=
  { Random : Z -> R;
    random : R -> Q * R;
    gauss : R -> Q -> Q -> Q * R;
    betavariate : R -> Q -> Q -> Q * R }.

(** [uuid]: [UUID_int s] is [uuid.UUID(s).int], or [None] when the
    constructor raises; [uuid4] draws from a source of its own. *)
Class PyUuid (U : Type) : Type :=
  { UUID_int : string -> option Z;
    uuid4 : U -> string * U }.

(** ** pmm/strategy/allocator.py *)

Module Allocator.

Record MarketFeatures : Type :=
  { condition_id : string;
    liquidity_num : Q;
    fills : Z;
    quotes : Z;
    markout_sum : Q;
    realized_spread_sum : Q }.

Record CapitalAllocator : Type :=
  { total_budget_usd : Q;
    min_per_market : Q;
    max_per_market : Q;
    liquidity_power : Q;
    quality_k : Q }.

#[global] Instance Q_inhabited : Inhabited Q := populate 0.

(** [sum(xs)]: left to right from 0. *)
Definition sumQ (xs : list Q) : Q := fold_left Qplus xs 0.

(** The weight of one market (the body of the first loop). *)
Definition weight `{PyMath} (self : CapitalAllocator) (f : MarketFeatures) : Q :=
  let liq := py_max 0.000000001 (liquidity_num f) in
  let base := pow liq (liquidity_power self) in
  let fill_rate := inject_Z (fills f) / inject_Z (Z.max 1 (quotes f)) in
  let avg_markout := markout_sum f / inject_Z (Z.max 1 (fills f)) in
  let adverse := py_max 0 (- avg_markout) in
  let quality :=
    exp (- quality_k self * adverse) * (0.5 + 0.5 * py_min 1 (fill_rate * 20)) in
  base * py_max 0.05 (py_min 1.5 quality).

(** The weights and their sum, with the uniform fallback when the sum is not
    positive. *)
Definition weights `{PyMath} (self : CapitalAllocator) (feats : list MarketFeatures)
  : list Q * Q :=
  let w_raw := map (weight self) feats in
  let s := sumQ w_raw in
  if Qleb s 0
  then (repeat 1 (length feats), inject_Z (Z.of_nat (length feats)))
  else (w_raw, s).

(** First pass: [{f.condition_id: B * (w_raw[i]/s) for i, f in enumerate(feats)}];
    a later duplicate of a key overwrites the earlier one. *)
Definition first_pass (B s : Q) (feats : list MarketFeatures) (w_raw : list Q)
  : gmap string Q :=
  fold_left (fun a fw => <[condition_id (fst fw) := B * (snd fw / s)]> a)
            (combine feats w_raw) ∅.

(** Loop state of the "enforce min" pass: [fixed], [remaining] and
    [remaining_indices] (kept in ascending order). *)
Definition min_step (self : CapitalAllocator) (alloc : gmap string Q)
  (st : gmap string Q * Q * list nat) (fi : nat * MarketFeatures)
  : gmap string Q * Q * list nat :=
  let '(fixed, remaining, idx) := st in
  let '(i, f) := fi in
  if Qltb (alloc !!! condition_id f) (min_per_market self)
  then (<[condition_id f := min_per_market self]> fixed,
        remaining - min_per_market self,
        List.filter (fun j => negb (Nat.eqb j i)) idx)
  else st.

Definition min_pass (self : CapitalAllocator) (alloc : gmap string Q)
  (feats : list MarketFeatures) : gmap string Q * Q * list nat :=
  fold_left (min_step self alloc)
            (combine (seq 0 (length feats)) feats)
            (∅, total_budget_usd self, seq 0 (length feats)).

(** Re-allocation of [remaining] over the free indices. *)
Definition realloc_pass (remaining : Q) (feats : list MarketFeatures) (w_raw : list Q)
  (idx : list nat) (alloc : gmap string Q) : gmap string Q :=
  match idx with
  | [] => alloc
  | _ =>
    let s2 := sumQ (map (fun i => nth i w_raw 0) idx) in
    fold_left
      (fun a i =>
         match nth_error feats i with
         | Some f => <[condition_id f := remaining * (nth i w_raw 0 / py_max 0.000000000001 s2)]> a
         | None => a
         end)
      idx alloc
  end.

(** Loop state of the "enforce max" pass: [alloc], [overflow], [under]. *)
Definition max_step (self : CapitalAllocator)
  (st : gmap string Q * Q * list string) (f : MarketFeatures)
  : gmap string Q * Q * list string :=
  let '(alloc, overflow, under) := st in
  let v := alloc !!! condition_id f in
  if Qltb (max_per_market self) v
  then (<[condition_id f := max_per_market self]> alloc,
        overflow + (v - max_per_market self), under)
  else (alloc, overflow, (under ++ [condition_id f])%list).

Definition max_pass (self : CapitalAllocator) (alloc : gmap string Q)
  (feats : list MarketFeatures) : gmap string Q * Q * list string :=
  fold_left (max_step self) feats (alloc, 0, []).

(** Equal redistribution of the overflow over the markets under the cap. *)
Definition redistribute (self : CapitalAllocator)
  (st : gmap string Q * Q * list string) : gmap string Q :=
  let '(alloc, overflow, under) := st in
  match under with
  | [] => alloc
  | _ =>
    if Qltb 0 overflow then
      let add := overflow / inject_Z (Z.of_nat (length under)) in
      fold_left
        (fun a cid => <[cid := py_min (max_per_market self) (a !!! cid + add)]> a)
        under alloc
    else alloc
  end.

(** The body of [allocate] after the empty-input test. *)
Definition allocate_nonempty `{PyMath} (self : CapitalAllocator) (feats : list MarketFeatures)
  : gmap string Q :=
  let '(w_raw, s) := weights self feats in
  let alloc := first_pass (total_budget_usd self) s feats w_raw in
  let '(fixed, remaining, idx) := min_pass self alloc feats in
  if Qleb remaining 0
  then (fun v => py_min (max_per_market self) v) <$> fixed
  else
    let alloc := realloc_pass remaining feats w_raw idx alloc in
    let alloc := redistribute self (max_pass self alloc feats) in
    fixed ∪ alloc.

Definition allocate `{PyMath} (self : CapitalAllocator) (feats : list MarketFeatures)
  : gmap string Q :=
  match feats with
  | [] => ∅
  | _ :: _ => allocate_nonempty self feats
  end.

Definition cids (feats : list MarketFeatures) : list string := map condition_id feats.







(** The amounts a map gives to the listed markets, in market order, and
    their sum. *)
Definition vals (m : gmap string Q) (feats : list MarketFeatures) : list Q :=
  map (fun f => m !!! condition_id f) feats.


(** The first-pass allocation, and the markets that the "enforce min" pass
    pins: those whose first-pass amount, looked up by id, is below
    [min_per_market]. *)
Definition first_alloc `{PyMath} (self : CapitalAllocator) (feats : list MarketFeatures)
  : gmap string Q :=
  let '(w_raw, s) := weights self feats in
  first_pass (total_budget_usd self) s feats w_raw.

Definition below_min (self : CapitalAllocator) (alloc : gmap string Q) (f : MarketFeatures)
  : bool :=
  Qltb (alloc !!! condition_id f) (min_per_market self).

Definition pinned (self : CapitalAllocator) (alloc : gmap string Q)
  (feats : list MarketFeatures) : list MarketFeatures :=
  List.filter (below_min self alloc) feats.

(** What is left of the budget after the pinned minimums. *)
Definition budget_left `{PyMath} (self : CapitalAllocator) (feats : list MarketFeatures) : Q :=
  total_budget_usd self
  - inject_Z (Z.of_nat (length (pinned self (first_alloc self feats) feats)))
    * min_per_market self.

End Allocator.

(** ** JSON payloads ([raw], [meta_json], [raw_json]) *)

#[warnings="-register-all"] Inductive jval : Type :=
| JNone
| JBool (b : bool)
| JInt (z : Z)
| JNum (q : Q)
| JStr (s : string)
| JDict (d : list (string * jval)).

Definition pydict : Type := list (string * jval).

Definition jfloat (o : option Q) : jval :=
  match o with Some q => JNum q | None => JNone end.

Definition jstr (o : option string) : jval :=
  match o with Some s => JStr s | None => JNone end.

Definition jdict (o : option pydict) : jval :=
  match o with Some d => JDict d | None => JNone end.

(** [d.get(k)] *)
Fixpoint dict_get (k : string) (d : pydict) : option jval :=
  match d with
  | [] => None
  | (k', v) :: rest => if String.eqb k k' then Some v else dict_get k rest
  end.

(** ** Conversions of JSON values: [int(x)] and [float(x)] *)

(** Parsing of text by [int] and [float], which the sources leave to the
    interpreter: [None] stands for [ValueError]. *)
Class PyParse : Type :=
  { int_of_str : string -> option Z;
    float_of_str : string -> option Q }.

Inductive conv_exn : Type := TypeError | ValueError.

Inductive conv (A : Type) : Type :=
| Conv (a : A)
| ConvRaise (e : conv_exn).
Arguments Conv {A} a.
Arguments ConvRaise {A} e.

#[global] Instance conv_ret : MRet conv := fun A a => Conv a.

#[global] Instance conv_bind : MBind conv := fun A B k m =>
  match m with
  | Conv a => k a
  | ConvRaise e => ConvRaise e
  end.

(** [int(x)]: a float is cut towards zero, [True] is 1, text is parsed,
    [None] and containers raise [TypeError]. *)
Definition py_int `{PyParse} (v : jval) : conv Z :=
  match v with
  | JInt z => Conv z
  | JBool b => Conv (if b then 1 else 0)%Z
  | JNum q => Conv (to_integral_down q)
  | JStr s => match int_of_str s with Some z => Conv z | None => ConvRaise ValueError end
  | JNone | JDict _ => ConvRaise TypeError
  end.

Definition py_float `{PyParse} (v : jval) : conv Q :=
  match v with
  | JInt z => Conv (inject_Z z)
  | JBool b => Conv (if b then 1 else 0)
  | JNum q => Conv q
  | JStr s => match float_of_str s with Some q => Conv q | None => ConvRaise ValueError end
  | JNone | JDict _ => ConvRaise TypeError
  end.

(** [d.get(k, default)] *)
Definition dict_get_or (k : string) (d : pydict) (default : jval) : jval :=
  match dict_get k d with
  | Some v => v
  | None => default
  end.

(** ** pmm/strategy/calibrator.py: construction and the persisted state *)

Module CalibratorState.
Import Calibrator.

Record Calibrator : Type :=
  { base_alpha : Q;
    base_spread_bps : Q;
    base_max_usd : Q;
    base_quote_refresh_sec : Q;
    base_cancel_reprice_sec : Q }.

Definition MarketCalibState0 : MarketCalibState :=
  {| fills := 0; quotes := 0; markout_sum := 0; realized_spread_sum := 0 |}.

Definition init_params (self : Calibrator) : MarketCalibParams :=
  {| alpha := base_alpha self;
     target_spread_bps := base_spread_bps self;
     max_usd := base_max_usd self;
     quote_refresh_sec := base_quote_refresh_sec self;
     cancel_reprice_sec := base_cancel_reprice_sec self;
     state := MarketCalibState0 |}.

Definition to_state_json (p : MarketCalibParams) : pydict :=
  [ ("fills", JInt (fills (state p)));
    ("quotes", JInt (quotes (state p)));
    ("markout_sum", JNum (markout_sum (state p)));
    ("realized_spread_sum", JNum (realized_spread_sum (state p))) ].

(** [from_state_json]: the four conversions are made in the order of the
    keyword arguments; the first that fails raises. *)
Definition from_state_json `{PyParse} (d : pydict) : conv MarketCalibState :=
  f ← py_int (dict_get_or "fills" d (JInt 0));
  q ← py_int (dict_get_or "quotes" d (JInt 0));
  m ← py_float (dict_get_or "markout_sum" d (JNum 0));
  r ← py_float (dict_get_or "realized_spread_sum" d (JNum 0));
  Conv {| fills := f; quotes := q; markout_sum := m; realized_spread_sum := r |}.

End CalibratorState.

(** ** pmm/execution/exchange_base.py *)

Module Exchange.

Record PlaceOrderResult : Type :=
  { success : bool;
    venue_order_id : option string;
    error : option string;
    raw : option pydict }.

(** The venue adapter: [place_limit] and [cancel] act on the adapter's own
    state [E]; [is_paper] is the attribute read with [getattr]. *)
Class ExchangeBase (E : Type) : Type :=
  { place_limit : E -> string -> string -> Q -> Q -> bool -> pydict -> PlaceOrderResult * E;
    cancel : E -> string -> bool * E;
    is_paper : E -> bool }.

End Exchange.

(** ** pmm/db/repo.py *)

Module Repo.

Record OrderRow : Type :=
  { run_id : string;
    local_order_id : string;
    venue_order_id : option string;
    condition_id : option string;
    token_id : string;
    side : string;
    price : Q;
    size : Q;
    post_only : Z;
    status : string;
    created_ts : Z;
    updated_ts : Z;
    meta_json : pydict }.

Record TradeRow : Type :=
  { t_run_id : string;
    t_trade_id : string;
    t_venue_order_id : string;
    t_condition_id : string;
    t_token_id : string;
    t_side : string;
    t_price : Q;
    t_size : Q;
    t_status : string;
    t_ts : Z;
    t_raw_json : pydict }.

(** The connection is modelled by the statements executed on it, oldest
    first. *)
Inductive Stmt : Type :=
| UpsertOrder (row : OrderRow)
| InsertTrade (row : TradeRow).

Definition Conn : Type := list Stmt.

Definition upsert_order (conn : Conn) (row : OrderRow) : Conn :=
  (conn ++ [UpsertOrder row])%list.

Definition insert_trade (conn : Conn) (row : TradeRow) : Conn :=
  (conn ++ [InsertTrade row])%list.

(** The [orders] table that the statements build: the primary key is
    (run_id, local_order_id); on conflict every column but [created_ts] is
    replaced, [condition_id] only by a non-null value. *)
Definition apply_upsert (t : gmap (string * string) OrderRow) (row : OrderRow)
  : gmap (string * string) OrderRow :=
  match t !! (run_id row, local_order_id row) with
  | None => <[(run_id row, local_order_id row) := row]> t
  | Some old =>
    <[(run_id row, local_order_id row) :=
        {| run_id := run_id row;
           local_order_id := local_order_id row;
           venue_order_id := venue_order_id row;
           condition_id := match condition_id row with
                           | Some c => Some c
                           | None => condition_id old
                           end;
           token_id := token_id row;
           side := side row;
           price := price row;
           size := size row;
           post_only := post_only row;
           status := status row;
           created_ts := created_ts old;
           updated_ts := updated_ts row;
           meta_json := meta_json row |}]> t
  end.

Definition orders_table (conn : Conn) : gmap (string * string) OrderRow :=
  fold_left (fun t s => match s with
                        | UpsertOrder row => apply_upsert t row
                        | InsertTrade _ => t
                        end) conn ∅.

(** The trade rows inserted, oldest first. *)
Definition trades_of (conn : Conn) : list TradeRow :=
  flat_map (fun s => match s with InsertTrade r => [r] | UpsertOrder _ => [] end) conn.

End Repo.

(** ** pmm/execution/order_manager.py *)

Module OrderManager.

Record LiveOrderState : Type :=
  { local_order_id : string;
    venue_order_id : string;
    token_id : string;
    side : string;
    price : Q;
    size : Q;
    created_ts : Z }.

(** The generated [__eq__] of the dataclass: field by field. *)
Definition live_eqb (a b : LiveOrderState) : bool :=
  String.eqb (local_order_id a) (local_order_id b)
  && String.eqb (venue_order_id a) (venue_order_id b)
  && String.eqb (token_id a) (token_id b)
  && String.eqb (side a) (side b)
  && Qeqb (price a) (price b)
  && Qeqb (size a) (size b)
  && Z.eqb (created_ts a) (created_ts b).

(** [lst.remove(o)] inside [try ... except ValueError: pass]. *)
Fixpoint remove_first (o : LiveOrderState) (lst : list LiveOrderState) : list LiveOrderState :=
  match lst with
  | [] => []
  | x :: rest => if live_eqb x o then rest else x :: remove_first o rest
  end.

(** [self.live]: a dictionary in insertion order. *)
Abbreviation LiveTable := (list (string * list LiveOrderState)).

Fixpoint od_get (k : string) (d : LiveTable) : option (list LiveOrderState) :=
  match d with
  | [] => None
  | (k', v) :: rest => if String.eqb k k' then Some v else od_get k rest
  end.

Fixpoint od_set (k : string) (v : list LiveOrderState) (d : LiveTable) : LiveTable :=
  match d with
  | [] => [(k, v)]
  | (k', v') :: rest =>
    if String.eqb k k' then (k, v) :: rest else (k', v') :: od_set k v rest
  end.

(** The manager's own fields. The connection and the venue adapter are
    shared by all managers and live in [World]. *)
Record OrderManager (R : Type) : Type :=
  { run_id : string;
    max_orders_per_token : Z;
    cancel_reprice_sec : Q;
    post_only : bool;
    tick_size : option Q;
    live : LiveTable;
    _rng : R }.
Arguments run_id {R} _.
Arguments max_orders_per_token {R} _.
Arguments cancel_reprice_sec {R} _.
Arguments post_only {R} _.
Arguments tick_size {R} _.
Arguments live {R} _.
Arguments _rng {R} _.

Record World (E : Type) : Type := { conn : Repo.Conn; exchange : E }.
Arguments conn {E} _.
Arguments exchange {E} _.

Definition with_live {R} (self : OrderManager R) (l : LiveTable) : OrderManager R :=
  {| run_id := run_id self;
     max_orders_per_token := max_orders_per_token self;
     cancel_reprice_sec := cancel_reprice_sec self;
     post_only := post_only self;
     tick_size := tick_size self;
     live := l;
     _rng := _rng self |}.

Definition with_rng {R} (self : OrderManager R) (r : R) : OrderManager R :=
  {| run_id := run_id self;
     max_orders_per_token := max_orders_per_token self;
     cancel_reprice_sec := cancel_reprice_sec self;
     post_only := post_only self;
     tick_size := tick_size self;
     live := live self;
     _rng := r |}.

(** [sum((i + 1) * ord(ch) for i, ch in enumerate(s))] *)
Fixpoint weighted_ord_sum (i : Z) (s : string) : Z :=
  match s with
  | EmptyString => 0
  | String ch rest => ((i + 1) * Z.of_nat (nat_of_ascii ch) + weighted_ord_sum (i + 1) rest)%Z
  end.

Definition _seed_from_run_id `{PyUuid U} (run_id : string) : Z :=
  match UUID_int run_id with
  | Some n => Z.land n 0xFFFFFFFF
  | None =>
    let s := if String.eqb run_id EmptyString then "pmm" else run_id in
    Z.land (weighted_ord_sum 0 s) 0xFFFFFFFF
  end.

Definition OrderManager_init `{PyRandom R} `{PyUuid U}
  (run_id : string) (max_orders_per_token : Z) (cancel_reprice_sec : Q)
  (post_only : bool) (tick_size : option Q) : OrderManager R :=
  {| run_id := run_id;
     max_orders_per_token := max_orders_per_token;
     cancel_reprice_sec := cancel_reprice_sec;
     post_only := post_only;
     tick_size := match tick_size with
                  | Some t => if negb (Qeqb t 0) && Qltb 0 t then Some t else None
                  | None => None
                  end;
     live := [];
     _rng := Random (_seed_from_run_id run_id) |}.

(** [self.tick_size or d]: the tick when it is set and non-zero. *)
Definition tick_or {R} (self : OrderManager R) (d : Q) : Q :=
  match tick_size self with
  | Some t => if Qeqb t 0 then d else t
  | None => d
  end.

Definition tick_truthy {R} (self : OrderManager R) : bool :=
  match tick_size self with
  | Some t => negb (Qeqb t 0)
  | None => false
  end.

Definition _price_changed {R} (self : OrderManager R) (old new : Q) : bool :=
  if tick_truthy self
  then Qleb (tick_or self 0 - 0.000000000001) (Qabs (old - new))
  else Qleb (py_max 0.0001 (old * 0.0001)) (Qabs (old - new)).

Definition _guard_post_only {R} (self : OrderManager R) (side : string) (price : Q)
  (best_bid best_ask : option Q) : option Q :=
  if negb (post_only self) then Some price
  else
    let side := upper side in
    let sell_check :=
      match best_bid with
      | Some bb =>
        if String.eqb side "SELL" && Qleb price bb
        then let adj := bb + tick_or self 0.001 in
             if Qltb adj 1 then Some adj else None
        else Some price
      | None => Some price
      end in
    match best_ask with
    | Some ba =>
      if String.eqb side "BUY" && Qleb ba price
      then let adj := ba - tick_or self 0.001 in
           if Qltb 0 adj then Some adj else None
      else sell_check
    | None => sell_check
    end.

Section Methods.
Context {E : Type} `{Exchange.ExchangeBase E} {R : Type}.

Definition do_cancel (w : World E) (vid : string) : bool * World E :=
  let (ok, ex) := Exchange.cancel (exchange w) vid in
  (ok, {| conn := conn w; exchange := ex |}).

Definition do_upsert (w : World E) (row : Repo.OrderRow) : World E :=
  {| conn := Repo.upsert_order (conn w) row; exchange := exchange w |}.

(** The row written when a live order is cancelled. *)
Definition cancel_row (self : OrderManager R) (o : LiveOrderState)
  (condition_id : option string) (side : string) (now : Z) (ok : bool) (meta : pydict)
  : Repo.OrderRow :=
  {| Repo.run_id := run_id self;
     Repo.local_order_id := local_order_id o;
     Repo.venue_order_id := Some (venue_order_id o);
     Repo.condition_id := condition_id;
     Repo.token_id := token_id o;
     Repo.side := side;
     Repo.price := price o;
     Repo.size := size o;
     Repo.post_only := if post_only self then 1%Z else 0%Z;
     Repo.status := if ok then "CANCELED" else "ERROR";
     Repo.created_ts := created_ts o;
     Repo.updated_ts := now;
     Repo.meta_json := meta |}.

(** *** cancel_stale *)

Definition is_stale (self : OrderManager R) (now : Z) (o : LiveOrderState) : bool :=
  Qleb (cancel_reprice_sec self) (inject_Z (now - created_ts o)).

(** The body of the inner loop, on the state (world, [cancels], [keep]). *)
Definition cancel_stale_order (self : OrderManager R) (now : Z)
  (st : World E * Z * list LiveOrderState) (o : LiveOrderState)
  : World E * Z * list LiveOrderState :=
  let '(w, cancels, keep) := st in
  if is_stale self now o then
    let (ok, w) := do_cancel w (venue_order_id o) in
    let w := do_upsert w (cancel_row self o None (side o) now ok
                            [("reason", JStr "stale"); ("ok", JBool ok)]) in
    (w, (cancels + (if ok then 1 else 0))%Z, keep)
  else (w, cancels, (keep ++ [o])%list).

(** The body of the outer loop, on the state (world, [cancels], [self.live]). *)
Definition cancel_stale_token (self : OrderManager R) (now : Z)
  (st : World E * Z * LiveTable) (item : string * list LiveOrderState)
  : World E * Z * LiveTable :=
  let '(w, cancels, table) := st in
  let (tok, lst) := item in
  let '(w, cancels, keep) := fold_left (cancel_stale_order self now) lst (w, cancels, []) in
  (w, cancels, od_set tok keep table).

Definition cancel_stale (now : Z) (self : OrderManager R) (w : World E)
  : Z * OrderManager R * World E :=
  let '(w, cancels, table) :=
    fold_left (cancel_stale_token self now) (live self) (w, 0%Z, live self) in
  (cancels, with_live self table, w).

(** *** place_or_replace *)

(** The body of the "replace" loop over the snapshot [list(existing)]. *)
Definition replace_order (self : OrderManager R) (now : Z) (condition_id : string)
  (side : string) (price : Q)
  (st : World E * list LiveOrderState) (o : LiveOrderState)
  : World E * list LiveOrderState :=
  let (w, existing) := st in
  if String.eqb (OrderManager.side o) side && _price_changed self (OrderManager.price o) price then
    let (ok, w) := do_cancel w (venue_order_id o) in
    let w := do_upsert w (cancel_row self o (Some condition_id) side now ok
                            [("reason", JStr "reprice"); ("ok", JBool ok);
                             ("new_price", JNum price)]) in
    (w, remove_first o existing)
  else (w, existing).

(** The "cap" loop: [while len(existing) >= max: existing.pop(0) ...];
    [pop] on the empty list raises [IndexError]. *)
Fixpoint enforce_cap (self : OrderManager R) (now : Z) (condition_id : string)
  (existing : list LiveOrderState) (w : World E)
  : pyres (World E * list LiveOrderState) :=
  if (max_orders_per_token self <=? Z.of_nat (length existing))%Z then
    match existing with
    | [] => Raise IndexError
    | o :: rest =>
      let (ok, w) := do_cancel w (venue_order_id o) in
      let w := do_upsert w (cancel_row self o (Some condition_id) (side o) now ok
                              [("reason", JStr "cap"); ("ok", JBool ok)]) in
      enforce_cap self now condition_id rest w
    end
  else Ret (w, existing).

Definition make_local_order_id (self : OrderManager R) (condition_id : string)
  (now : Z) (side : string) : string :=
  String.substring 0 8 (run_id self) +:+ "-" +:+ String.substring 0 6 condition_id
  +:+ "-" +:+ pretty now +:+ "-" +:+ side.

Definition blocked_result (best_bid best_ask : option Q) : Exchange.PlaceOrderResult :=
  {| Exchange.success := false;
     Exchange.venue_order_id := None;
     Exchange.error := Some "post_only_guard_blocked";
     Exchange.raw := Some [("best_bid", jfloat best_bid); ("best_ask", jfloat best_ask)] |}.

(** Truth value of [res.venue_order_id]: set and not the empty string. *)
Definition vid_truthy (v : option string) : option string :=
  match v with
  | Some s => if String.eqb s EmptyString then None else Some s
  | None => None
  end.

Definition place_row (self : OrderManager R) (condition_id token_id side : string)
  (price size : Q) (now : Z) (best_bid best_ask : option Q)
  (res : Exchange.PlaceOrderResult) : Repo.OrderRow :=
  {| Repo.run_id := run_id self;
     Repo.local_order_id := make_local_order_id self condition_id now side;
     Repo.venue_order_id := Exchange.venue_order_id res;
     Repo.condition_id := Some condition_id;
     Repo.token_id := token_id;
     Repo.side := side;
     Repo.price := price;
     Repo.size := size;
     Repo.post_only := if post_only self then 1%Z else 0%Z;
     Repo.status := if Exchange.success res then "PLACED" else "REJECTED";
     Repo.created_ts := now;
     Repo.updated_ts := now;
     Repo.meta_json := [("raw", jdict (Exchange.raw res)); ("err", jstr (Exchange.error res));
                        ("best_bid", jfloat best_bid); ("best_ask", jfloat best_ask)] |}.

(** The "replace" loop followed by the "cap" loop: the cancellations made
    before the venue is asked to place. *)
Definition cancel_phase (self : OrderManager R) (now : Z) (condition_id token_id side : string)
  (price : Q) (w : World E) : pyres (World E * list LiveOrderState) :=
  let existing := default [] (od_get token_id (live self)) in
  let '(w, existing) :=
    fold_left (replace_order self now condition_id side price) existing (w, existing) in
  enforce_cap self now condition_id existing w.

Definition new_live_order (self : OrderManager R) (now : Z) (condition_id token_id side : string)
  (price size : Q) (vid : string) : LiveOrderState :=
  {| local_order_id := make_local_order_id self condition_id now side;
     venue_order_id := vid;
     token_id := token_id;
     side := side;
     price := price;
     size := size;
     created_ts := now |}.

(** What [if res.success and res.venue_order_id: existing.append(...)]
    appends. *)
Definition appended_order (self : OrderManager R) (now : Z) (condition_id token_id side : string)
  (price size : Q) (res : Exchange.PlaceOrderResult) : list LiveOrderState :=
  if Exchange.success res then
    match vid_truthy (Exchange.venue_order_id res) with
    | Some vid => [new_live_order self now condition_id token_id side price size vid]
    | None => []
    end
  else [].

(** The placement itself: the venue call, the persisted row, the append and
    [self.live[token_id] = existing]. *)
Definition place_phase (self : OrderManager R) (now : Z) (condition_id token_id side : string)
  (price size : Q) (best_bid best_ask : option Q)
  (existing : list LiveOrderState) (w : World E)
  : Exchange.PlaceOrderResult * OrderManager R * World E :=
  let (res, ex) :=
    Exchange.place_limit (exchange w) token_id side price size (post_only self)
                         [("condition_id", JStr condition_id)] in
  let w := {| conn := conn w; exchange := ex |} in
  let w := do_upsert w (place_row self condition_id token_id side price size now
                          best_bid best_ask res) in
  let existing :=
    (existing ++ appended_order self now condition_id token_id side price size res)%list in
  (res, with_live self (od_set token_id existing (live self)), w).

(** [place_or_replace] once the guard has let the price through. *)
Definition place_guarded (now : Z) (condition_id token_id side : string)
  (price size : Q) (best_bid best_ask : option Q)
  (self : OrderManager R) (w : World E)
  : pyres (Exchange.PlaceOrderResult * OrderManager R * World E) :=
  '(w, existing) ← cancel_phase self now condition_id token_id side price w;
  Ret (place_phase self now condition_id token_id side price size best_bid best_ask existing w).

Definition place_or_replace (now : Z) (condition_id token_id side : string)
  (price size : Q) (best_bid best_ask : option Q)
  (self : OrderManager R) (w : World E)
  : pyres (Exchange.PlaceOrderResult * OrderManager R * World E) :=
  let side := upper side in
  match _guard_post_only self side price best_bid best_ask with
  | None => Ret (blocked_result best_bid best_ask, self, w)
  | Some price =>
    place_guarded now condition_id token_id side price size best_bid best_ask self w
  end.

(** *** Quantities used to state the behaviour of [cancel_stale] *)

(** The venue cancels of a list of order ids, in order: the answers and the
    venue state afterwards. *)
Fixpoint cancel_all (ex : E) (vids : list string) : list bool * E :=
  match vids with
  | [] => ([], ex)
  | v :: rest =>
    let (ok, ex) := Exchange.cancel ex v in
    let (oks, ex) := cancel_all ex rest in
    (ok :: oks, ex)
  end.

(** The live orders that are stale at [now], in table order. *)
Definition stale_orders (self : OrderManager R) (now : Z) : list LiveOrderState :=
  List.filter (is_stale self now) (flat_map snd (live self)).

(** The live table without its stale orders. *)
Definition fresh_table (self : OrderManager R) (now : Z) : LiveTable :=
  map (fun it => (fst it, List.filter (fun o => negb (is_stale self now o)) (snd it)))
      (live self).

Definition count_true (oks : list bool) : Z :=
  Z.of_nat (length (List.filter (fun b => b) oks)).

(** *** Quantities used to state the behaviour of [place_or_replace] *)

(** The test of the "replace" loop: a live order of the requested side whose
    price differs from the requested one by the repricing threshold. *)
Definition moved (self : OrderManager R) (side : string) (price : Q) (o : LiveOrderState)
  : bool :=
  String.eqb (OrderManager.side o) side && _price_changed self (OrderManager.price o) price.

(** The live orders that the "replace" loop cancels, and those it leaves. *)
Definition repriced (self : OrderManager R) (side : string) (price : Q)
  (l : list LiveOrderState) : list LiveOrderState :=
  List.filter (moved self side price) l.

Definition survivors (self : OrderManager R) (side : string) (price : Q)
  (l : list LiveOrderState) : list LiveOrderState :=
  List.filter (fun o => negb (moved self side price o)) l.

(** The number of orders that the "cap" loop pops from a list: as many as it
    takes to leave room for one more. *)
Definition cap_excess (self : OrderManager R) (l : list LiveOrderState) : nat :=
  Z.to_nat (Z.of_nat (length l) + 1 - max_orders_per_token self).

End Methods.

(** *** simulate_fills *)

(** The [PMM_PAPER_*] environment variables that [simulate_fills] reads:
    the text-valued ones as text, the numeric ones after [float(...)]. *)
Record SimEnv : Type :=
  { PMM_PAPER_SIM_ENABLE : string;
    PMM_PAPER_FILL_INTENSITY : Q;
    PMM_PAPER_SPREAD_MODE : string;
    PMM_PAPER_SPREAD_K : Q;
    PMM_PAPER_MARKOUT_SIGMA_BPS : Q;
    PMM_PAPER_PARTIAL_FILL : string;
    PMM_PAPER_FULL_FILL_PROB : Q;
    PMM_PAPER_PARTIAL_BETA_A : Q;
    PMM_PAPER_PARTIAL_BETA_B : Q;
    PMM_PAPER_PARTIAL_MIN_FRAC : Q;
    PMM_PAPER_PARTIAL_MAX_FRAC : Q }.

(** The defaults given to [os.getenv]. *)
Definition SimEnv_default : SimEnv :=
  {| PMM_PAPER_SIM_ENABLE := "true";
     PMM_PAPER_FILL_INTENSITY := 0.003;
     PMM_PAPER_SPREAD_MODE := "intensity";
     PMM_PAPER_SPREAD_K := 0.6;
     PMM_PAPER_MARKOUT_SIGMA_BPS := 20;
     PMM_PAPER_PARTIAL_FILL := "true";
     PMM_PAPER_FULL_FILL_PROB := 0.35;
     PMM_PAPER_PARTIAL_BETA_A := 2;
     PMM_PAPER_PARTIAL_BETA_B := 6;
     PMM_PAPER_PARTIAL_MIN_FRAC := 0.05;
     PMM_PAPER_PARTIAL_MAX_FRAC := 0.60 |}.

Record SimFillStats : Type :=
  { fills : Z; markout_sum : Q; realized_spread_sum : Q }.

Definition SimFillStats0 : SimFillStats :=
  {| fills := 0; markout_sum := 0; realized_spread_sum := 0 |}.

(** The arguments of one call that the caller chooses from market data and
    configuration. *)
Record SimInput : Type :=
  { s_condition_id : string;
    s_token_id : string;
    s_midpoint : option Q;
    s_best_bid : option Q;
    s_best_ask : option Q;
    s_dt_sec : Q;
    s_intensity_override : option Q;
    s_depth_top : option Q;
    s_env : SimEnv }.

(** What the loop body decides for one live order: dropped (nothing left),
    kept untouched, or filled. *)
Record FillData : Type :=
  { fd_side : string;
    fd_px : Q;
    fd_fill_size : Q;
    fd_new_remaining : Q;
    fd_status : string;
    fd_markout : Q;
    fd_realized_spread : Q;
    fd_raw : pydict }.

Inductive Decision : Type :=
| Dropped
| Kept
| Filled (f : FillData).

Section Simulator.
Context {E : Type} `{Exchange.ExchangeBase E} {R : Type} `{PyRandom R} `{PyMath}
        {U : Type} `{PyUuid U}.

(** [1.0 / d], raising on a zero divisor. *)
Definition q_inv (d : Q) : pyres Q :=
  if Qeqb d 0 then Raise ZeroDivisionError else Ret (1 / d).

Definition competitive_of (d_ticks : Q) : Q :=
  if Qleb d_ticks 0.5 then 1
  else if Qleb d_ticks 1.5 then 0.6
  else if Qleb d_ticks 2.5 then 0.35
  else if Qleb d_ticks 4.5 then 0.22
  else 0.15.

(** The loop body up to the fill itself: the fill probability, the draws
    from [self._rng], the fill size, status and markout. *)
Definition decide_fill (inp : SimInput) (tick : Q) (intensity base_p : Q)
  (rng : R) (o : LiveOrderState) : pyres (R * Decision) :=
  let env := s_env inp in
  let mid := s_midpoint inp in
  let best_bid := s_best_bid inp in
  let best_ask := s_best_ask inp in
  let side := upper (side o) in
  let px := price o in
  let remaining := size o in
  if Qleb remaining 0.000000001 then Ret (rng, Dropped)
  else
    let d_sell :=
      match best_ask with
      | Some ba =>
        if String.eqb side "SELL" then Qabs (px - ba) / py_max 0.000000001 tick
        else 9000000000
      | None => 9000000000
      end in
    let d_ticks :=
      match best_bid with
      | Some bb =>
        if String.eqb side "BUY" then Qabs (px - bb) / py_max 0.000000001 tick
        else d_sell
      | None => d_sell
      end in
    let competitive := competitive_of d_ticks in
    let edge_bps :=
      match mid with
      | Some m => if Qltb 0.000000001 m then Some (Qabs (px - m) / m * 10000) else None
      | None => None
      end in
    let edge_factor :=
      match edge_bps with
      | Some e => 1 / (1 + e / 80)
      | None => 1
      end in
    let spread_ticks :=
      match best_bid, best_ask with
      | Some bb, Some ba => Some (py_max 0 ((ba - bb) / py_max 0.000000001 tick))
      | _, _ => None
      end in
    spread_factor ←
      match spread_ticks with
      | Some st =>
        if String.eqb (lower (PMM_PAPER_SPREAD_MODE env)) "factor"
        then q_inv (1 + PMM_PAPER_SPREAD_K env * py_max 0 (st - 1))
        else Ret 1
      | None => Ret 1
      end;
    let p_fill := py_max 0 (py_min 0.95 (base_p * competitive * edge_factor * spread_factor)) in
    let (u1, rng) := random rng in
    if Qleb p_fill u1 then Ret (rng, Kept)
    else
      let sigma_bps := PMM_PAPER_MARKOUT_SIGMA_BPS env in
      let (eps, rng) := gauss rng 0 (sigma_bps / 10000) in
      let future_mid :=
        match mid with
        | Some m => Some (py_max 0.001 (py_min 0.999 (m * (1 + eps))))
        | None => None
        end in
      let realized_spread :=
        match mid with
        | Some m => if String.eqb side "BUY" then (m - px) * 1 else (px - m) * 1
        | None => 0
        end in
      let allow_partial := String.eqb (lower (PMM_PAPER_PARTIAL_FILL env)) "true" in
      let full_prob := PMM_PAPER_FULL_FILL_PROB env in
      let '(frac, rng) :=
        if negb allow_partial then (1, rng)
        else
          let (u2, rng) := random rng in
          if Qltb u2 full_prob then (1, rng)
          else
            let a := PMM_PAPER_PARTIAL_BETA_A env in
            let b := PMM_PAPER_PARTIAL_BETA_B env in
            let (raw, rng) := betavariate rng (py_max 0.1 a) (py_max 0.1 b) in
            let lo := PMM_PAPER_PARTIAL_MIN_FRAC env in
            let hi := PMM_PAPER_PARTIAL_MAX_FRAC env in
            (lo + (hi - lo) * raw, rng) in
      let fill_size := py_max 0.000001 (remaining * frac) in
      let fill_size := py_min fill_size remaining in
      let new_remaining := remaining - fill_size in
      let status := if Qleb new_remaining 0.000000001 then "FILLED" else "PARTIAL" in
      let markout :=
        match future_mid with
        | Some fm => if String.eqb side "BUY" then (fm - px) * fill_size else (px - fm) * fill_size
        | None => 0
        end in
      Ret (rng,
           Filled {| fd_side := side;
                     fd_px := px;
                     fd_fill_size := fill_size;
                     fd_new_remaining := new_remaining;
                     fd_status := status;
                     fd_markout := markout;
                     fd_realized_spread := realized_spread;
                     fd_raw :=
                       [("sim", JBool true); ("p_fill", JNum p_fill);
                        ("competitive", JNum competitive);
                        ("edge_factor", JNum edge_factor);
                        ("spread_factor", JNum spread_factor);
                        ("spread_ticks", jfloat spread_ticks);
                        ("best_bid", jfloat best_bid); ("best_ask", jfloat best_ask);
                        ("mid", jfloat mid); ("future_mid", jfloat future_mid);
                        ("markout", JNum markout);
                        ("realized_spread", JNum (realized_spread * fill_size));
                        ("markout_sigma_bps", JNum sigma_bps);
                        ("intensity_used", JNum intensity);
                        ("depth_top", jfloat (s_depth_top inp))] |}).

(** Loop state: generator, uuid source, world, [out], [keep]. *)
Record SimState : Type :=
  { st_rng : R; st_uuid : U; st_world : World E; st_out : SimFillStats;
    st_keep : list LiveOrderState }.

(** The rest of the loop body: the trade row with a fresh trade id, the
    order row, the counters, and the order kept with its remaining size when
    the fill is partial. *)
Definition record_fill (self : OrderManager R) (inp : SimInput) (now : Z)
  (st : SimState) (rng : R) (o : LiveOrderState) (f : FillData) : SimState :=
  let (id, u) := uuid4 (st_uuid st) in
  let trade_id := "paper-" +:+ id in
  let w := st_world st in
  let c := Repo.insert_trade (conn w)
             {| Repo.t_run_id := run_id self;
                Repo.t_trade_id := trade_id;
                Repo.t_venue_order_id := venue_order_id o;
                Repo.t_condition_id := s_condition_id inp;
                Repo.t_token_id := s_token_id inp;
                Repo.t_side := fd_side f;
                Repo.t_price := fd_px f;
                Repo.t_size := fd_fill_size f;
                Repo.t_status := fd_status f;
                Repo.t_ts := now;
                Repo.t_raw_json := fd_raw f |} in
  let c := Repo.upsert_order c
             {| Repo.run_id := run_id self;
                Repo.local_order_id := local_order_id o;
                Repo.venue_order_id := Some (venue_order_id o);
                Repo.condition_id := Some (s_condition_id inp);
                Repo.token_id := s_token_id inp;
                Repo.side := fd_side f;
                Repo.price := fd_px f;
                Repo.size := py_max 0 (fd_new_remaining f);
                Repo.post_only := if post_only self then 1%Z else 0%Z;
                Repo.status := fd_status f;
                Repo.created_ts := created_ts o;
                Repo.updated_ts := now;
                Repo.meta_json := [("reason", JStr "paper_sim_fill");
                                   ("fill_size", JNum (fd_fill_size f));
                                   ("remaining", JNum (fd_new_remaining f))] |} in
  let out := st_out st in
  {| st_rng := rng;
     st_uuid := u;
     st_world := {| conn := c; exchange := exchange w |};
     st_out := {| fills := fills out + 1;
                  markout_sum := markout_sum out + fd_markout f;
                  realized_spread_sum :=
                    realized_spread_sum out + fd_realized_spread f * fd_fill_size f |};
     st_keep :=
       if String.eqb (fd_status f) "PARTIAL"
       then (st_keep st ++ [ {| local_order_id := local_order_id o;
                                venue_order_id := venue_order_id o;
                                token_id := token_id o;
                                side := side o;
                                price := price o;
                                size := fd_new_remaining f;
                                created_ts := created_ts o |} ])%list
       else st_keep st |}.

(** The loop body. *)
Definition sim_order (self : OrderManager R) (inp : SimInput) (now : Z)
  (tick intensity base_p : Q) (st : SimState) (o : LiveOrderState) : pyres SimState :=
  '(rng, d) ← decide_fill inp tick intensity base_p (st_rng st) o;
  match d with
  | Dropped => Ret st
  | Kept =>
    Ret {| st_rng := rng; st_uuid := st_uuid st; st_world := st_world st;
           st_out := st_out st; st_keep := (st_keep st ++ [o])%list |}
  | Filled f => Ret (record_fill self inp now st rng o f)
  end.

(** [for o in lst: ...], stopping at the first exception. *)
Fixpoint sim_loop (self : OrderManager R) (inp : SimInput) (now : Z)
  (tick intensity base_p : Q) (lst : list LiveOrderState) (st : SimState)
  : pyres SimState :=
  match lst with
  | [] => Ret st
  | o :: rest =>
    st ← sim_order self inp now tick intensity base_p st o;
    sim_loop self inp now tick intensity base_p rest st
  end.

(** [simulate_fills]; [ts] is the optional argument and [clock] the value
    [self._now()] takes when it is read. *)
Definition simulate_fills (inp : SimInput) (ts : option Z) (clock : Z)
  (self : OrderManager R) (w : World E) (u : U)
  : pyres (SimFillStats * OrderManager R * World E * U) :=
  let env := s_env inp in
  if negb (Exchange.is_paper (exchange w)) then Ret (SimFillStats0, self, w, u)
  else if negb (String.eqb (lower (PMM_PAPER_SIM_ENABLE env)) "true")
  then Ret (SimFillStats0, self, w, u)
  else
    let token_id := s_token_id inp in
    let now := match ts with Some t => t | None => clock end in
    let lst := default [] (od_get token_id (live self)) in
    match lst with
    | [] => Ret (SimFillStats0, self, w, u)
    | _ :: _ =>
      let tick := tick_or self 0.001 in
      let dt := py_max 0.1 (s_dt_sec inp) in
      let intensity :=
        match s_intensity_override inp with
        | Some i => i
        | None => PMM_PAPER_FILL_INTENSITY env
        end in
      let base_p := 1 - exp (- py_max 0 intensity * dt) in
      st ← sim_loop self inp now tick intensity base_p lst
             {| st_rng := _rng self; st_uuid := u; st_world := w;
                st_out := SimFillStats0; st_keep := [] |};
      Ret (st_out st,
           with_rng (with_live self (od_set token_id (st_keep st) (live self))) (st_rng st),
           st_world st, st_uuid st)
    end.

(** The three tests that [simulate_fills] makes before its loop: a paper
    venue, the simulation enabled, and a live order for the token. *)
Definition sim_active (inp : SimInput) (self : OrderManager R) (w : World E) : bool :=
  Exchange.is_paper (exchange w)
  && String.eqb (lower (PMM_PAPER_SIM_ENABLE (s_env inp))) "true"
  && match default [] (od_get (s_token_id inp) (live self)) with
     | [] => false
     | _ :: _ => true
     end.

(** The orders that the loop works on: those with more than 1e-9 left. *)
Definition open_size (o : LiveOrderState) : bool := Qltb 0.000000001 (size o).

(** The trade rows written since the connection held [before]. *)
Definition trades_since (before after : Repo.Conn) : list Repo.TradeRow :=
  skipn (length (Repo.trades_of before)) (Repo.trades_of after).

(** A paper run: a sequence of calls, each with its inputs and with the
    timestamp argument and clock reading of that run. *)
Fixpoint run_sim (steps : list (SimInput * (option Z * Z)))
  (self : OrderManager R) (w : World E) (u : U)
  : pyres (list SimFillStats * OrderManager R * World E * U) :=
  match steps with
  | [] => Ret ([], self, w, u)
  | (inp, (ts, clock)) :: rest =>
    '(stats, self, w, u) ← simulate_fills inp ts clock self w u;
    '(more, self, w, u) ← run_sim rest self w u;
    Ret (stats :: more, self, w, u)
  end.

(** The outcome of a fill as the claim names it, with the venue id of the
    live order it belongs to. *)
Definition outcome (t : Repo.TradeRow) : string * Q * string * Q :=
  (Repo.t_venue_order_id t, Repo.t_size t, Repo.t_status t, Repo.t_price t).

(** The outcomes of the trades written since the connection held [before]. *)
Definition outcomes_since (before after : Repo.Conn) : list (string * Q * string * Q) :=
  map outcome (skipn (length (Repo.trades_of before)) (Repo.trades_of after)).

(** Two worlds that hold the same venue state and, since [c1] and [c2],
    trades with the same outcomes. *)
Definition same_fills (c1 c2 : Repo.Conn) (w1 w2 : World E) : Prop :=
  exchange w1 = exchange w2
  /\ exists e1 e2,
       Repo.trades_of (conn w1) = (Repo.trades_of c1 ++ e1)%list
       /\ Repo.trades_of (conn w2) = (Repo.trades_of c2 ++ e2)%list
       /\ map outcome e1 = map outcome e2.

Definition sim_rel (c1 c2 : Repo.Conn) (s1 s2 : SimState) : Prop :=
  st_rng s1 = st_rng s2 /\ st_out s1 = st_out s2 /\ st_keep s1 = st_keep s2
  /\ same_fills c1 c2 (st_world s1) (st_world s2).

(** One call: the same statistics, the same manager afterwards, and worlds
    that still hold the same fills. *)
Definition call_rel (c1 c2 : Repo.Conn)
  (r1 r2 : SimFillStats * OrderManager R * World E * U) : Prop :=
  r1.1.1.1 = r2.1.1.1 /\ r1.1.1.2 = r2.1.1.2 /\ same_fills c1 c2 r1.1.2 r2.1.2.

(** Two runs over the same inputs: each step carries the inputs and, for
    each run, that run's timestamp argument and clock reading. *)
Definition first_run (steps : list (SimInput * (option Z * Z) * (option Z * Z)))
  : list (SimInput * (option Z * Z)) :=
  map (fun s => (s.1.1, s.1.2)) steps.

Definition second_run (steps : list (SimInput * (option Z * Z) * (option Z * Z)))
  : list (SimInput * (option Z * Z)) :=
  map (fun s => (s.1.1, s.2)) steps.

Definition run_rel (c1 c2 : Repo.Conn)
  (r1 r2 : list SimFillStats * OrderManager R * World E * U) : Prop :=
  r1.1.1.1 = r2.1.1.1 /\ r1.1.1.2 = r2.1.1.2 /\ same_fills c1 c2 r1.1.2 r2.1.2.

(** The hash of which the seed keeps the lower 32 bits. *)
Definition run_id_hash (run_id : string) : Z :=
  match UUID_int run_id with
  | Some n => n
  | None => weighted_ord_sum 0 (if String.eqb run_id EmptyString then "pmm" else run_id)
  end.

End Simulator.

End OrderManager.

(** ** pmm/cli.py: the steps of the control loop that feed the breaker *)

Module ControlLoop.

Section Steps.
Context {E : Type} `{Exchange.ExchangeBase E} {R : Type}.

(** [cancels = om.cancel_stale(); if cancels: cb.record_cancel()] *)
Definition stale_step (now_om now_cb : Z)
  (om : OrderManager.OrderManager R) (w : OrderManager.World E)
  (cb : CircuitBreaker.CircuitBreaker)
  : Z * OrderManager.OrderManager R * OrderManager.World E * CircuitBreaker.CircuitBreaker :=
  let '(cancels, om, w) := OrderManager.cancel_stale now_om om w in
  (cancels, om, w, if (cancels =? 0)%Z then cb else CircuitBreaker.record_cancel cb now_cb).

(** [res.raw and isinstance(res.raw, dict) and res.raw.get("action") == "SKIP"] *)
Definition is_skip (res : Exchange.PlaceOrderResult) : bool :=
  match Exchange.raw res with
  | Some ((_ :: _) as d) =>
    match dict_get "action" d with
    | Some (JStr a) => String.eqb a "SKIP"
    | _ => false
    end
  | _ => false
  end.

(** One quote of the inner loop: [place_or_replace], then [record_place]
    unless the result is a SKIP. *)
Definition place_step (now : Z) (condition_id token_id : string) (q : MMSpread.Quote)
  (best_bid best_ask : option Q)
  (om : OrderManager.OrderManager R) (w : OrderManager.World E)
  (cb : CircuitBreaker.CircuitBreaker)
  : pyres (Exchange.PlaceOrderResult * OrderManager.OrderManager R
           * OrderManager.World E * CircuitBreaker.CircuitBreaker) :=
  '(res, om, w) ← OrderManager.place_or_replace now condition_id token_id
                     (MMSpread.side q) (MMSpread.price q) (MMSpread.size q)
                     best_bid best_ask om w;
  Ret (res, om, w,
       if is_skip res then cb else CircuitBreaker.record_place cb (Exchange.success res)).

End Steps.

(** *** The quotes of one token *)

(** [lst[:n]]: a negative [n] counts from the end. *)
Definition py_take {A} (n : Z) (l : list A) : list A :=
  if (0 <=? n)%Z then firstn (Z.to_nat n) l
  else firstn (Z.to_nat (Z.of_nat (length l) + n)) l.

(** The quoter built for each token: half of the market's budget, scaled by
    the risk manager. *)
Definition loop_quoter (target_spread_bps max_usd : Q) (risk : Risk.RiskManager)
  : MMSpread.SymmetricSpreadMM :=
  {| MMSpread.target_spread_bps := target_spread_bps;
     MMSpread.max_usd := max_usd / 2;
     MMSpread.alpha_scale := Risk.size_scale risk |}.

(** [notional > max(1.0, (params.max_usd / 2.0) * 1.10)]: the quote is
    skipped. *)
Definition notional_too_large (max_usd : Q) (q : MMSpread.Quote) : bool :=
  Qltb (py_max 1 ((max_usd / 2) * 1.10)) (MMSpread.price q * MMSpread.size q).

(** The quotes that reach [place_or_replace]. *)
Definition quotes_to_place (max_orders_per_market : Z) (target_spread_bps max_usd : Q)
  (risk : Risk.RiskManager) (mid : Q) : list MMSpread.Quote :=
  List.filter (fun q => negb (notional_too_large max_usd q))
    (py_take max_orders_per_market
       (MMSpread.quotes (loop_quoter target_spread_bps max_usd risk) mid)).

(** *** The depth reference *)

(** [sorted(xs)] on floats, as a stable insertion sort. *)
Fixpoint insert_sorted (x : Q) (l : list Q) : list Q :=
  match l with
  | [] => [x]
  | y :: rest => if Qleb x y then x :: l else y :: insert_sorted x rest
  end.

Definition sorted (l : list Q) : list Q := fold_right insert_sorted [] l.

(** [xs[i]] for an integer index: negative indices count from the end, an
    index outside the list raises [IndexError]. *)
Definition py_index (xs : list Q) (i : Z) : pyres Q :=
  let n := Z.of_nat (length xs) in
  let j := if (i <? 0)%Z then (n + i)%Z else i in
  if (0 <=? j)%Z && (j <? n)%Z then Ret (nth (Z.to_nat j) xs 0)
  else Raise IndexError.

(** [_quantile(vals, q)]: linear interpolation between the order statistics
    of the samples that are present and non-negative. *)
Definition _quantile (vals : list (option Q)) (q : Q) : pyres Q :=
  match vals with
  | [] => Ret 0
  | _ :: _ =>
    let q := py_max 0 (py_min 1 q) in
    let xs := sorted (List.filter (Qleb 0) (omap id vals)) in
    match xs with
    | [] => Ret 0
    | [x] => Ret x
    | _ :: _ :: _ =>
      let pos := inject_Z (Z.of_nat (length xs) - 1) * q in
      let lo := Qfloor pos in
      let hi := Qceiling pos in
      if (lo =? hi)%Z then py_index xs lo
      else
        let w := pos - inject_Z lo in
        a ← py_index xs lo;
        b ← py_index xs hi;
        Ret (a * (1 - w) + b * w)
    end
  end.

(** The settings of the depth reference, as read from the environment. *)
Record DepthRefEnv : Type :=
  { PMM_PAPER_DEPTH_REF_MODE : string;
    PMM_PAPER_DEPTH_REF_QUANTILE : Q;
    PMM_PAPER_DEPTH_REF : Q;
    PMM_PAPER_DEPTH_REF_MIN : Q;
    PMM_PAPER_DEPTH_REF_MAX : Q;
    PMM_PAPER_DEPTH_REF_EMA : Q }.

Definition DepthRefEnv_default : DepthRefEnv :=
  {| PMM_PAPER_DEPTH_REF_MODE := "quantile";
     PMM_PAPER_DEPTH_REF_QUANTILE := 0.70;
     PMM_PAPER_DEPTH_REF := 2000;
     PMM_PAPER_DEPTH_REF_MIN := 200;
     PMM_PAPER_DEPTH_REF_MAX := 50000;
     PMM_PAPER_DEPTH_REF_EMA := 0.80 |}.

(** The update of [cmd_run._paper_depth_ref] at the end of a round, from its
    previous value and the depths sampled in the round. *)
Definition next_depth_ref (env : DepthRefEnv) (prev : Q) (depth_samples : list Q) : pyres Q :=
  if String.eqb (lower (PMM_PAPER_DEPTH_REF_MODE env)) "static" then Ret prev
  else
    est ← _quantile (map Some depth_samples) (PMM_PAPER_DEPTH_REF_QUANTILE env);
    let est := py_max (PMM_PAPER_DEPTH_REF_MIN env)
                 (py_min (PMM_PAPER_DEPTH_REF_MAX env)
                    (if Qltb 0 est then est else PMM_PAPER_DEPTH_REF env)) in
    let ema := py_max 0 (py_min 0.99 (PMM_PAPER_DEPTH_REF_EMA env)) in
    Ret (prev * ema + est * (1 - ema)).

End ControlLoop.

(** ** Example inputs *)

Module Examples.

Definition mm_example : MMSpread.SymmetricSpreadMM :=
  {| MMSpread.target_spread_bps := 100; MMSpread.max_usd := 50; MMSpread.alpha_scale := 1 |}.

(** A calibration row with no quotes yet and a spread outside the band. *)
Definition calib_wide_idle : Calibrator.MarketCalibParams :=
  {| Calibrator.alpha := 1.5;
     Calibrator.target_spread_bps := 1000;
     Calibrator.max_usd := 50;
     Calibrator.quote_refresh_sec := 3;
     Calibrator.cancel_reprice_sec := 15;
     Calibrator.state :=
       {| Calibrator.fills := 0; Calibrator.quotes := 0;
          Calibrator.markout_sum := 0; Calibrator.realized_spread_sum := 0 |} |}.

(** Scenario 3 of the specification: spread 60, 10 fills in 100 quotes,
    markout sum -0.02. *)
Definition calib_widening : Calibrator.MarketCalibParams :=
  {| Calibrator.alpha := 1.5;
     Calibrator.target_spread_bps := 60;
     Calibrator.max_usd := 50;
     Calibrator.quote_refresh_sec := 3;
     Calibrator.cancel_reprice_sec := 15;
     Calibrator.state :=
       {| Calibrator.fills := 10; Calibrator.quotes := 100;
          Calibrator.markout_sum := -0.02; Calibrator.realized_spread_sum := 0 |} |}.

(** A dust purchase: 1e-13 shares at 0.50. *)
Definition dust_buy : list Inventory.Fill :=
  [ {| Inventory.f_token := "T"; Inventory.f_side := "BUY";
       Inventory.f_price := 0.5; Inventory.f_size := 0.0000000000001; Inventory.f_fee := 0 |} ].

(** Scenario 1 of the specification. *)
Definition basic_fills : list Inventory.Fill :=
  [ {| Inventory.f_token := "T"; Inventory.f_side := "BUY";
       Inventory.f_price := 0.40; Inventory.f_size := 10; Inventory.f_fee := 0 |};
    {| Inventory.f_token := "T"; Inventory.f_side := "BUY";
       Inventory.f_price := 0.60; Inventory.f_size := 10; Inventory.f_fee := 0 |};
    {| Inventory.f_token := "T"; Inventory.f_side := "SELL";
       Inventory.f_price := 0.70; Inventory.f_size := 5; Inventory.f_fee := 0 |} ].

(** An instance of the numeric interface for evaluating examples. It is
    exact where the real functions take rational values that the examples
    use: [exp 0 = 1], [x ** 1 = x] and the square root of a square of a
    rational; elsewhere it returns a stand-in that no example reaches. *)
#[global] Instance PyMath_points : PyMath :=
  {| exp := fun x => if Qeqb x 0 then 1 else if Qltb x 0 then 1 / (1 - x) else 1 + x;
     pow := fun x p =>
       if Qeqb p 1 then x
       else if Qeqb p 0.5
            then let r := Qred x in
                 Qmake (Z.sqrt (Qnum r)) (Pos.sqrt (Qden r))
            else 1 |}.

Definition market (cid : string) (liq : Q) (fills quotes : Z) : Allocator.MarketFeatures :=
  {| Allocator.condition_id := cid;
     Allocator.liquidity_num := liq;
     Allocator.fills := fills;
     Allocator.quotes := quotes;
     Allocator.markout_sum := 0;
     Allocator.realized_spread_sum := 0 |}.

(** Scenario 2 of the specification: B = 100, min = 5, max = 60, p = 0.5,
    k = 2, liquidity 10000 and 100, 10 fills in 100 quotes each. *)
Definition alloc_two : Allocator.CapitalAllocator :=
  {| Allocator.total_budget_usd := 100;
     Allocator.min_per_market := 5;
     Allocator.max_per_market := 60;
     Allocator.liquidity_power := 0.5;
     Allocator.quality_k := 2 |}.

Definition feats_two : list Allocator.MarketFeatures :=
  [ market "M1" 10000 10 100; market "M2" 100 10 100 ].

(** Three markets with weights 29, 30.1 and 40.9 and a minimum of 30. *)
Definition alloc_three : Allocator.CapitalAllocator :=
  {| Allocator.total_budget_usd := 100;
     Allocator.min_per_market := 30;
     Allocator.max_per_market := 60;
     Allocator.liquidity_power := 1;
     Allocator.quality_k := 2 |}.

Definition feats_three : list Allocator.MarketFeatures :=
  [ market "M1" 58 0 0; market "M2" 60.2 0 0; market "M3" 81.8 0 0 ].

(** Two equal markets and a minimum above half of the budget. *)
Definition alloc_tight : Allocator.CapitalAllocator :=
  {| Allocator.total_budget_usd := 100;
     Allocator.min_per_market := 60;
     Allocator.max_per_market := 80;
     Allocator.liquidity_power := 1;
     Allocator.quality_k := 2 |}.

Definition feats_tight : list Allocator.MarketFeatures :=
  [ market "M1" 50 0 0; market "M2" 50 0 0 ].


(** A scripted venue for evaluating examples: placements are answered from a
    prepared list (a rejection once it is used up), cancels answer
    [cancel_ok]. *)
Record Scripted : Type := { answers : list Exchange.PlaceOrderResult; cancel_ok : bool }.

Definition accepted (vid : string) : Exchange.PlaceOrderResult :=
  {| Exchange.success := true;
     Exchange.venue_order_id := Some vid;
     Exchange.error := None;
     Exchange.raw := Some [("success", JBool true); ("orderId", JStr vid)] |}.

Definition rejected (msg : string) : Exchange.PlaceOrderResult :=
  {| Exchange.success := false;
     Exchange.venue_order_id := None;
     Exchange.error := Some msg;
     Exchange.raw := Some [("success", JBool false); ("errorMsg", JStr msg)] |}.

#[global] Instance Scripted_exchange : Exchange.ExchangeBase Scripted :=
  {| Exchange.place_limit := fun ex _ _ _ _ _ _ =>
       match answers ex with
       | a :: rest => (a, {| answers := rest; cancel_ok := cancel_ok ex |})
       | [] => (rejected "unknown", ex)
       end;
     Exchange.cancel := fun ex _ => (cancel_ok ex, ex);
     Exchange.is_paper := fun _ => true |}.

Definition world_of (answers : list Exchange.PlaceOrderResult) : OrderManager.World Scripted :=
  {| OrderManager.conn := [];
     OrderManager.exchange := {| answers := answers; cancel_ok := true |} |}.

Definition live_order (lid vid side : string) (price size : Q) (ts : Z)
  : OrderManager.LiveOrderState :=
  {| OrderManager.local_order_id := lid;
     OrderManager.venue_order_id := vid;
     OrderManager.token_id := "tok";
     OrderManager.side := side;
     OrderManager.price := price;
     OrderManager.size := size;
     OrderManager.created_ts := ts |}.

(** A manager for token "tok" with tick 0.01, post-only, at most
    [max_orders] live orders and the given live orders. *)
Definition manager (max_orders : Z) (orders : list OrderManager.LiveOrderState)
  : OrderManager.OrderManager unit :=
  {| OrderManager.run_id := "0f8fad5b-d9cb-469f-a165-70867728950e";
     OrderManager.max_orders_per_token := max_orders;
     OrderManager.cancel_reprice_sec := 15;
     OrderManager.post_only := true;
     OrderManager.tick_size := Some 0.01;
     OrderManager.live := [("tok", orders)];
     OrderManager._rng := tt |}.

Definition resting_buy : OrderManager.LiveOrderState :=
  live_order "0f8fad5b-cond01-1000-BUY" "v1" "BUY" 0.50 10 1000.

Definition resting_sell : OrderManager.LiveOrderState :=
  live_order "0f8fad5b-cond01-1000-SELL" "v2" "SELL" 0.52 10 1000.

Definition breaker0 : CircuitBreaker.CircuitBreaker :=
  CircuitBreaker.CircuitBreaker_init CircuitBreaker.CircuitConfig_default 1000.

(** A small linear congruential generator standing in for [random.Random]
    when examples are evaluated: every draw advances the state once. *)
Definition lcg_next (r : Z) : Z := ((1103515245 * r + 12345) mod 2147483648)%Z.

Definition lcg_unit (r : Z) : Q := Qmake r 2147483648.

#[global] Instance Lcg_random : PyRandom Z :=
  {| Random := fun seed => seed;
     random := fun r => (lcg_unit (lcg_next r), lcg_next r);
     gauss := fun r mu sigma => (mu + sigma * (lcg_unit (lcg_next r) - 0.5), lcg_next r);
     betavariate := fun r a b => (lcg_unit (lcg_next r) * (a / (a + b)), lcg_next r) |}.

(** A uuid source that counts, and a reader of the canonical 32-digit
    hexadecimal form. *)
Definition hex_digit (c : ascii) : option Z :=
  let n := Z.of_nat (nat_of_ascii c) in
  if ((48 <=? n) && (n <=? 57))%Z then Some (n - 48)%Z
  else if ((97 <=? n) && (n <=? 102))%Z then Some (n - 87)%Z
  else if ((65 <=? n) && (n <=? 70))%Z then Some (n - 55)%Z
  else None.

Fixpoint hex_value (acc : Z) (digits : nat) (s : string) : option (Z * nat) :=
  match s with
  | EmptyString => Some (acc, digits)
  | String c rest =>
    if Ascii.eqb c "-" then hex_value acc digits rest
    else match hex_digit c with
         | Some d => hex_value (16 * acc + d)%Z (S digits) rest
         | None => None
         end
  end.

#[global] Instance Counter_uuid : PyUuid nat :=
  {| UUID_int := fun s =>
       match hex_value 0 0 s with
       | Some (v, 32%nat) => Some v
       | _ => None
       end;
     uuid4 := fun n => (pretty n, S n) |}.

Definition sim_input : OrderManager.SimInput :=
  {| OrderManager.s_condition_id := "cond01";
     OrderManager.s_token_id := "tok";
     OrderManager.s_midpoint := Some 0.51;
     OrderManager.s_best_bid := Some 0.50;
     OrderManager.s_best_ask := Some 0.52;
     OrderManager.s_dt_sec := 3;
     OrderManager.s_intensity_override := Some 5;
     OrderManager.s_depth_top := Some 1500;
     OrderManager.s_env := OrderManager.SimEnv_default |}.

End Examples.

(* ===================================================================== *)
(** * Part II. Properties                                                 *)
(* ===================================================================== *)

(** ** Built-ins *)

Lemma py_max_Qmax (a b : Q) : py_max a b == Qmax a b.
Proof.
  unfold py_max. destruct (Qlt_le_dec a b) as [H | H].
  - symmetry. apply Q.max_r. lra.
  - symmetry. apply Q.max_l. exact H.
Qed.

Lemma py_min_Qmin (a b : Q) : py_min a b == Qmin a b.
Proof.
  unfold py_min. destruct (Qlt_le_dec b a) as [H | H].
  - symmetry. apply Q.min_r. lra.
  - symmetry. apply Q.min_l. exact H.
Qed.

Lemma clamp_Qmax_Qmin (x lo hi : Q) : clamp x lo hi == Qmax lo (Qmin hi x).
Proof. unfold clamp. rewrite py_max_Qmax, py_min_Qmin. reflexivity. Qed.

Lemma Qltb_true (a b : Q) : Qltb a b = true <-> a < b.
Proof. unfold Qltb. destruct (Qlt_le_dec a b); split; intros; try easy; lra. Qed.

Lemma Qltb_false (a b : Q) : Qltb a b = false <-> b <= a.
Proof. unfold Qltb. destruct (Qlt_le_dec a b); split; intros; try easy; lra. Qed.

Lemma Qleb_true (a b : Q) : Qleb a b = true <-> a <= b.
Proof. unfold Qleb. destruct (Qlt_le_dec b a); split; intros; try easy; lra. Qed.

Lemma Qleb_false (a b : Q) : Qleb a b = false <-> b < a.
Proof. unfold Qleb. destruct (Qlt_le_dec b a); split; intros; try easy; lra. Qed.

Lemma Qeqb_true (a b : Q) : Qeqb a b = true <-> a == b.
Proof. apply Qeq_bool_iff. Qed.

Lemma Qeqb_false (a b : Q) : Qeqb a b = false <-> ~ a == b.
Proof.
  unfold Qeqb. split.
  - intros H E. apply Qeq_bool_iff in E. congruence.
  - intros H. destruct (Qeq_bool a b) eqn:E; [ | reflexivity ].
    apply Qeq_bool_iff in E. contradiction.
Qed.

(** ** Spread quoter *)

Section QuoterProofs.
Import MMSpread.

Lemma quote_size_equiv (u b b' : Q) :
  b == b' -> py_max 1 (u / py_max 0.01 b) == Qmax 1 (u / Qmax 0.01 b').
Proof.
  intros Hb. rewrite py_max_Qmax.
  assert (E : py_max 0.01 b == Qmax 0.01 b').
  { rewrite py_max_Qmax. rewrite Hb. reflexivity. }
  rewrite E. reflexivity.
Qed.

Lemma quote_price_equiv (x y : Q) :
  x == y -> clamp x 0.001 0.999 == Qmax 0.001 (Qmin 0.999 y).
Proof. intros E. rewrite clamp_Qmax_Qmin. rewrite E. reflexivity. Qed.

(** C2, as the specification states it, fails: at midpoint 0.5 with a target
    spread of 100 bps the code quotes 0.4975 / 0.5025, the formula with
    [half = m*s/10000] gives 0.495 / 0.505. *)
Lemma quotes_spec_half_counterexample :
  0 < 0.5 /\ 0.5 < 1 /\ 0 < target_spread_bps Examples.mm_example /\
  ~ Forall2 quote_equiv (quotes Examples.mm_example 0.5)
                        (spec_quotes Examples.mm_example 0.5).
Proof.
  repeat split; try reflexivity.
  intros H. inversion H as [ | a b l l' Hab _ ]; subst.
  destruct Hab as (_ & Hp & _). vm_compute in Hp. discriminate Hp.
Qed.

(** The code agrees, quote by quote, with the formulas of section 4.1 once the
    half-spread is [m*s/20000]. *)
Lemma quotes_equiv_amended (self : SymmetricSpreadMM) (m : Q) :
  Forall2 quote_equiv (quotes self m) (amended_quotes self m).
Proof.
  unfold quotes, amended_quotes, spec_quotes_with.
  set (s := target_spread_bps self).
  set (u := max_usd self / 2 * alpha_scale self).
  assert (Eb : m - m * (s / 10000) / 2 == m - m * s / 20000) by field.
  assert (Ea : m + m * (s / 10000) / 2 == m + m * s / 20000) by field.
  pose proof (quote_price_equiv _ _ Eb) as Pb.
  pose proof (quote_price_equiv _ _ Ea) as Pa.
  constructor; [ | constructor; [ | constructor ] ].
  - split; [ reflexivity | ]. split; cbn [price size].
    + exact Pb.
    + apply quote_size_equiv. exact Pb.
  - split; [ reflexivity | ]. split; cbn [price size].
    + exact Pa.
    + apply quote_size_equiv. exact Pa.
Qed.

(** C2 (amended): for every midpoint m, spread s and per-side budget
    u = (max_usd/2)*alpha_scale the quoter returns exactly two quotes, BUY
    then SELL, with half = m*s/20000 (half of the target spread m*s/10000),
    bid = clamp(m - half, 0.001, 0.999), ask = clamp(m + half, 0.001, 0.999),
    bid_size = max(1, u/max(0.01, bid)), ask_size = max(1, u/max(0.01, ask)). *)
Theorem quotes_amended (self : SymmetricSpreadMM) (m : Q) :
  let s := target_spread_bps self in
  let u := (max_usd self / 2) * alpha_scale self in
  let half := m * s / 20000 in
  exists bid ask bid_size ask_size : Q,
    quotes self m = [ {| side := "BUY"; price := bid; size := bid_size |};
                      {| side := "SELL"; price := ask; size := ask_size |} ]
    /\ bid == Qmax 0.001 (Qmin 0.999 (m - half))
    /\ ask == Qmax 0.001 (Qmin 0.999 (m + half))
    /\ bid_size == Qmax 1 (u / Qmax 0.01 bid)
    /\ ask_size == Qmax 1 (u / Qmax 0.01 ask).
Proof.
  intros s u half.
  assert (Eb : m - m * (s / 10000) / 2 == m - half) by (unfold half; field).
  assert (Ea : m + m * (s / 10000) / 2 == m + half) by (unfold half; field).
  do 4 eexists. split; [ unfold quotes; reflexivity | ].
  fold s. fold u.
  split; [ apply quote_price_equiv; exact Eb | ].
  split; [ apply quote_price_equiv; exact Ea | ].
  split; apply quote_size_equiv; reflexivity.
Qed.

(** Scenario check: 0.5 with 100 bps quotes 0.4975 and 0.5025. *)
Example quotes_mid_half :
  Forall2 Qeq (map price (quotes Examples.mm_example 0.5)) [0.4975; 0.5025].
Proof. repeat constructor; vm_compute; reflexivity. Qed.

End QuoterProofs.

(** ** Calibrator *)

Section CalibratorProofs.
Import Calibrator.

Lemma py_clip_bounds (lo hi x : Q) :
  lo <= hi -> lo <= py_min hi (py_max lo x) <= hi.
Proof.
  intros H. unfold py_min, py_max.
  destruct (Qlt_le_dec lo x); destruct (Qlt_le_dec _ hi); lra.
Qed.

Lemma py_band_bounds (lo hi x : Q) :
  lo <= hi -> lo <= py_max lo (py_min x hi) <= hi.
Proof.
  intros H. unfold py_min, py_max.
  destruct (Qlt_le_dec hi x); destruct (Qlt_le_dec lo _); lra.
Qed.

(** With no quotes recorded the prior is returned as it is. *)
Lemma next_params_idle (prev : MarketCalibParams) :
  (quotes (state prev) <= 0)%Z -> next_params prev = Ret prev.
Proof.
  intros H. unfold next_params.
  destruct (Z.leb_spec (quotes (state prev)) 0) as [ _ | Hgt ]; [ reflexivity | lia ].
Qed.

(** C5, as stated for every input, fails: a stored row with no quotes and a
    spread of 1000 bps is returned unchanged. *)
Lemma next_params_idle_counterexample :
  exists p, next_params Examples.calib_wide_idle = Ret p /\ ~ in_bounds p.
Proof.
  exists Examples.calib_wide_idle. split; [ reflexivity | ].
  intros ((_ & H) & _). vm_compute in H. apply H. reflexivity.
Qed.

(** C5 (amended): for every input with at least one quote recorded and a
    non-zero prior spread, [next_params] returns params with
    20 <= target_spread_bps <= 500, 1 <= quote_refresh_sec <= 10 and
    5 <= cancel_reprice_sec <= 60. *)
Theorem next_params_bounds (prev : MarketCalibParams) :
  (0 < quotes (state prev))%Z ->
  ~ target_spread_bps prev == 0 ->
  exists p, next_params prev = Ret p /\ in_bounds p.
Proof.
  intros Hq Hz. unfold next_params.
  destruct (Z.leb_spec (quotes (state prev)) 0) as [ Hle | _ ]; [ lia | ].
  apply Qeqb_false in Hz. rewrite Hz.
  eexists. split; [ reflexivity | ].
  unfold in_bounds; cbn [target_spread_bps quote_refresh_sec cancel_reprice_sec].
  split; [ | split ].
  - apply py_band_bounds. lra.
  - apply py_clip_bounds. lra.
  - apply py_clip_bounds. lra.
Qed.

Lemma next_params_bounds_witness :
  exists p, next_params Examples.calib_widening = Ret p /\ in_bounds p.
Proof.
  apply (next_params_bounds Examples.calib_widening).
  - vm_compute. reflexivity.
  - vm_compute. discriminate.
Defined.

(** Scenario 3: the spread widens from 60 to 60.6. *)
Example next_params_widening :
  exists p, next_params Examples.calib_widening = Ret p /\
            target_spread_bps p == 60.6 /\ quote_refresh_sec p == 3.03 /\
            cancel_reprice_sec p == 15.15.
Proof.
  eexists. split; [ vm_compute; reflexivity | ].
  repeat split; vm_compute; reflexivity.
Qed.

End CalibratorProofs.

(** ** Inventory *)

Section InventoryProofs.
Import Inventory.

Lemma pos_inv_zero : pos_inv Position0.
Proof. unfold pos_inv, Position0; cbn. repeat split; intros; lra. Qed.

Lemma avg_cost_buy_pos (a q p s : Q) :
  0 <= q -> 0 <= s -> 0 < p -> 0.000000000001 < q + s ->
  (q <= 0.000000000001 -> a == 0) -> (0.000000000001 < q -> 0 < a) ->
  0 < (a * q + p * s) / (q + s).
Proof.
  intros Hq Hs Hp Hn Hsmall Hbig.
  apply Qlt_shift_div_l; [ lra | ].
  destruct (Qlt_le_dec 0.000000000001 q) as [Hb | Hb].
  - specialize (Hbig Hb).
    assert (0 < a * q) by (apply Qmult_lt_0_compat; lra).
    assert (0 <= p * s) by (apply Qmult_le_0_compat; lra).
    lra.
  - specialize (Hsmall Hb).
    assert (0 < p * s) by (apply Qmult_lt_0_compat; lra).
    assert (E : a * q == 0) by (rewrite Hsmall; ring).
    lra.
Qed.

Lemma apply_fill_lookup_other (self : InventoryEngine) tok side price size fee tok' :
  tok <> tok' ->
  pos (apply_fill self tok side price size fee) !! tok' = pos self !! tok'.
Proof.
  intros Hne. unfold apply_fill.
  destruct (String.eqb (upper side) "BUY"); cbn [pos]; by rewrite lookup_insert_ne.
Qed.

Lemma apply_fill_inv (self : InventoryEngine) tok side price size fee :
  0 < price -> 0 <= size ->
  map_Forall (fun _ p => pos_inv p) (pos self) ->
  map_Forall (fun _ p => pos_inv p) (pos (apply_fill self tok side price size fee)).
Proof.
  intros Hp Hs Hall tok' p' Hlook.
  destruct (decide (tok = tok')) as [<- | Hne].
  2:{ rewrite apply_fill_lookup_other in Hlook by exact Hne. exact (Hall _ _ Hlook). }
  assert (Hold : pos_inv (default Position0 (pos self !! tok))).
  { destruct (pos self !! tok) as [p0 | ] eqn:E; cbn.
    - exact (Hall _ _ E).
    - exact pos_inv_zero. }
  revert Hlook. unfold apply_fill.
  set (p := default Position0 (pos self !! tok)) in *.
  destruct Hold as (Hq & Hsmall & Hbig).
  destruct (String.eqb (upper side) "BUY"); cbn [pos];
    rewrite lookup_insert_eq; intros [= <-].
  - (* BUY *)
    unfold pos_inv; cbn [qty avg_cost].
    destruct (Qltb 0.000000000001 (qty p + size)) eqn:Hn.
    + apply Qltb_true in Hn. split; [ lra | split ].
      * intros ?. lra.
      * intros _. apply avg_cost_buy_pos; assumption.
    + apply Qltb_false in Hn. split; [ lra | split ].
      * intros _. apply Hsmall. lra.
      * intros ?. lra.
  - (* SELL *)
    assert (Hsell : 0 <= qty p - py_min size (qty p)).
    { unfold py_min. destruct (Qlt_le_dec (qty p) size); lra. }
    assert (Hle : qty p - py_min size (qty p) <= qty p).
    { unfold py_min. destruct (Qlt_le_dec (qty p) size); lra. }
    destruct (Qleb (qty p - py_min size (qty p)) 0.000000000001) eqn:Hn;
      unfold pos_inv; cbn [qty avg_cost].
    + repeat split; intros; lra.
    + apply Qleb_false in Hn. split; [ lra | split ].
      * intros ?. lra.
      * intros _. apply Hbig. lra.
Qed.

Lemma apply_fills_inv (fs : list Fill) (self : InventoryEngine) :
  Forall valid_fill fs ->
  map_Forall (fun _ p => pos_inv p) (pos self) ->
  map_Forall (fun _ p => pos_inv p) (pos (apply_fills self fs)).
Proof.
  revert self. induction fs as [ | f fs IH ]; intros self Hv Hall; [ exact Hall | ].
  inversion Hv as [ | ? ? Hf Hfs ]; subst.
  destruct Hf as (_ & Hp & _ & Hs & _).
  cbn. apply IH; [ exact Hfs | ]. apply apply_fill_inv; assumption.
Qed.

Ltac valid_fill_tac :=
  unfold valid_fill; cbn;
  split; [ (left; reflexivity) || (right; reflexivity) | repeat split; lra ].

(** C6, as stated, fails: buying 1e-13 shares at 0.50 leaves the position
    with a positive quantity and an average cost of zero. *)
Lemma dust_buy_counterexample :
  Forall valid_fill Examples.dust_buy /\
  exists p, pos (apply_fills (InventoryEngine_init 1000) Examples.dust_buy) !! "T" = Some p /\
            0 <= qty p /\ avg_cost p == 0 /\ ~ qty p == 0.
Proof.
  split.
  - repeat (constructor; [ valid_fill_tac | ]). constructor.
  - eexists. split; [ vm_compute; reflexivity | ].
    repeat split; vm_compute; discriminate.
Qed.

(** C6 (amended): after every finite sequence of fills (BUY or SELL, prices in
    (0,1), sizes >= 0, fees >= 0) from the empty inventory, every position has
    qty >= 0 and avg_cost = 0 if and only if qty <= 1e-12; in particular
    qty = 0 implies avg_cost = 0. *)
Theorem apply_fills_position_invariant (cash0 : Q) (fs : list Fill) (tok : string) (p : Position) :
  Forall valid_fill fs ->
  pos (apply_fills (InventoryEngine_init cash0) fs) !! tok = Some p ->
  0 <= qty p /\ (avg_cost p == 0 <-> qty p <= 0.000000000001) /\ (qty p == 0 -> avg_cost p == 0).
Proof.
  intros Hv Hlook.
  assert (Hall : map_Forall (fun _ p => pos_inv p) (pos (apply_fills (InventoryEngine_init cash0) fs))).
  { apply apply_fills_inv; [ exact Hv | ]. cbn. apply map_Forall_empty. }
  destruct (Hall _ _ Hlook) as (Hq & Hsmall & Hbig).
  split; [ exact Hq | split ].
  - split; [ | exact Hsmall ].
    intros Hz. destruct (Qlt_le_dec 0.000000000001 (qty p)) as [Hb | Hb]; [ | exact Hb ].
    specialize (Hbig Hb). lra.
  - intros Hz. apply Hsmall. lra.
Qed.

Lemma apply_fills_position_invariant_witness :
  exists p, pos (apply_fills (InventoryEngine_init 1000) Examples.basic_fills) !! "T" = Some p /\
            0 <= qty p /\ (avg_cost p == 0 <-> qty p <= 0.000000000001) /\ (qty p == 0 -> avg_cost p == 0).
Proof.
  eexists. split; [ vm_compute; reflexivity | ].
  eapply (apply_fills_position_invariant 1000 Examples.basic_fills "T").
  - repeat (constructor; [ valid_fill_tac | ]). constructor.
  - vm_compute. reflexivity.
Defined.

(** Scenario 1: BUY 10 at 0.40, BUY 10 at 0.60, SELL 5 at 0.70 from 1000. *)
Example inventory_basic :
  let inv := apply_fills (InventoryEngine_init 1000) Examples.basic_fills in
  cash inv == 993.5 /\
  exists p, pos inv !! "T" = Some p /\ qty p == 15 /\ avg_cost p == 0.5 /\ realized p == 1.
Proof.
  cbv zeta. split; [ vm_compute; reflexivity | ].
  eexists. split; [ vm_compute; reflexivity | ].
  repeat split; vm_compute; reflexivity.
Qed.

End InventoryProofs.

(** ** Circuit breaker *)

Section BreakerProofs.
Import CircuitBreaker.

Example format_pct2_examples :
  format_pct2 0.4 = "40.00%" /\ format_pct2 (1 # 3) = "33.33%" /\
  format_pct2 1 = "100.00%".
Proof. repeat split; vm_compute; reflexivity. Qed.

Lemma Qleb_compat_l (a a' b : Q) : a == a' -> Qleb a b = Qleb a' b.
Proof.
  intros E. destruct (Qleb a' b) eqn:H.
  - apply Qleb_true in H. apply Qleb_true. lra.
  - apply Qleb_false in H. apply Qleb_false. lra.
Qed.

(** [should_halt] trips exactly on the disjunction of its three tests. *)
Lemma should_halt_iff (cb : CircuitBreaker) :
  fst (should_halt cb) = true <->
  (max_reject_rate (cfg cb) <= reject_rate cb /\ (20 <= placed (state cb))%Z)
  \/ (max_cancels_per_min (cfg cb) < Z.of_nat (length (cancel_events (state cb))))%Z
  \/ (max_errors (cfg cb) <= errors (state cb))%Z.
Proof.
  unfold should_halt.
  destruct (Qleb (max_reject_rate (cfg cb)) (reject_rate cb)) eqn:Hr;
  destruct (Z.leb_spec 20 (placed (state cb))) as [Hp | Hp];
  destruct (Z.ltb_spec (max_cancels_per_min (cfg cb))
                       (Z.of_nat (length (cancel_events (state cb))))) as [Hc | Hc];
  destruct (Z.leb_spec (max_errors (cfg cb)) (errors (state cb))) as [He | He];
  cbn [andb fst];
  try apply Qleb_true in Hr; try apply Qleb_false in Hr;
  (split; [ intros H; try discriminate H; tauto
          | intros [ [H1 H2] | [ H | H ] ]; try reflexivity; try lia; try lra ]).
Qed.

(** The reason names the test that tripped. *)
Lemma should_halt_reject_reason (cb : CircuitBreaker) :
  max_reject_rate (cfg cb) <= reject_rate cb -> (20 <= placed (state cb))%Z ->
  should_halt cb =
    (true, "reject_rate=" +:+ format_pct2 (reject_rate cb)
           +:+ " over placed=" +:+ pretty (placed (state cb))).
Proof.
  intros Hr Hp. unfold should_halt.
  apply Qleb_true in Hr. rewrite Hr.
  destruct (Z.leb_spec 20 (placed (state cb))); [ reflexivity | lia ].
Qed.

Lemma record_places_counts (oks : list bool) (cb : CircuitBreaker) :
  cfg (record_places cb oks) = cfg cb /\
  placed (state (record_places cb oks)) = (placed (state cb) + Z.of_nat (length oks))%Z /\
  rejected (state (record_places cb oks)) = (rejected (state cb) + Z.of_nat (count_rejects oks))%Z /\
  errors (state (record_places cb oks)) = errors (state cb) /\
  cancel_events (state (record_places cb oks)) = cancel_events (state cb).
Proof.
  revert cb. induction oks as [ | ok oks IH ]; intros cb.
  - cbn. repeat split; lia.
  - unfold record_places in *. cbn [fold_left].
    destruct (IH (record_place cb ok)) as (Hc & Hp & Hr & He & Hv).
    rewrite Hc, Hp, Hr, He, Hv. unfold count_rejects. cbn [cfg state record_place placed rejected errors cancel_events].
    destruct ok; cbn [List.filter negb length]; repeat split; lia.
Qed.

(** *** The 60-second window of [record_cancel] *)

Lemma filter_all_true {A} (f : A -> bool) (l : list A) :
  Forall (fun x => f x = true) l -> List.filter f l = l.
Proof.
  induction 1 as [ | x l Hx _ IH ]; [ reflexivity | ].
  cbn. rewrite Hx, IH. reflexivity.
Qed.

Lemma trim_filter (now : Z) (events : list Z) :
  Sorted Z.le events ->
  trim now events = List.filter (fun t => negb (60 <? now - t)%Z) events.
Proof.
  induction events as [ | t rest IH ]; intros Hs; [ reflexivity | ].
  apply Sorted_StronglySorted in Hs; [ | intros x y z; lia ].
  inversion Hs as [ | ? ? Hrest Hall ]; subst.
  cbn [trim List.filter]. destruct (Z.ltb_spec 60 (now - t)) as [Hold | Hnew]; cbn [negb].
  - apply IH. apply StronglySorted_Sorted. exact Hrest.
  - f_equal. symmetry. apply filter_all_true.
    eapply Forall_impl; [ exact Hall | ]. cbn beta. intros x Hx.
    destruct (Z.ltb_spec 60 (now - x)); [ lia | reflexivity ].
Qed.

(** When timestamps are recorded in non-decreasing order, the deque after
    [record_cancel] holds exactly the recorded events of the last 60 seconds,
    all of them inside [now - 60, now]. *)
Lemma record_cancel_window (cb : CircuitBreaker) (now : Z) :
  Sorted Z.le (cancel_events (state cb)) ->
  Forall (fun t => (t <= now)%Z) (cancel_events (state cb)) ->
  let events' := cancel_events (state (record_cancel cb now)) in
  events' = List.filter (fun t => negb (60 <? now - t)%Z) (cancel_events (state cb) ++ [now])
  /\ Forall (fun t => (now - 60 <= t <= now)%Z) events'
  /\ Sorted Z.le events'.
Proof.
  intros Hs Hle. cbv zeta. cbn [record_cancel state cancel_events].
  assert (Hs' : Sorted Z.le (cancel_events (state cb) ++ [now])).
  { apply StronglySorted_Sorted.
    apply Sorted_StronglySorted in Hs; [ | intros x y z; lia ].
    induction Hs as [ | t rest Hrest IH Hall ]; cbn.
    - repeat constructor.
    - inversion Hle; subst. constructor; [ apply IH; assumption | ].
      apply List.Forall_app. split; [ exact Hall | repeat constructor; assumption ]. }
  rewrite (trim_filter now _ Hs'). split; [ reflexivity | split ].
  - apply List.Forall_forall. intros x Hx. apply filter_In in Hx. destruct Hx as [Hin Hx].
    apply in_app_or in Hin.
    assert (x <= now)%Z.
    { destruct Hin as [Hin | [<- | []]]; [ | lia ].
      rewrite List.Forall_forall in Hle. apply Hle. exact Hin. }
    destruct (Z.ltb_spec 60 (now - x)); [ discriminate Hx | lia ].
  - apply StronglySorted_Sorted.
    apply Sorted_StronglySorted in Hs'; [ | intros x y z; lia ].
    clear -Hs'. induction Hs' as [ | t rest Hrest IH Hall ]; cbn; [ constructor | ].
    destruct (negb (60 <? now - t)%Z); [ | exact IH ].
    constructor; [ exact IH | ].
    apply List.Forall_forall. intros x Hx. apply filter_In in Hx.
    rewrite List.Forall_forall in Hall. apply Hall. tauto.
Qed.

Lemma calls_app (cb : CircuitBreaker) (a b : list Call) :
  calls cb (a ++ b) = calls (calls cb a) b.
Proof. unfold calls. apply fold_left_app. Qed.

Lemma call_frame (cb : CircuitBreaker) (c : Call) :
  cfg (call cb c) = cfg cb
  /\ (errors (state cb) <= errors (state (call cb c)))%Z
  /\ (placed (state cb) <= placed (state (call cb c)))%Z.
Proof. destruct c; cbn; repeat split; lia. Qed.

Lemma calls_frame (cs : list Call) (cb : CircuitBreaker) :
  cfg (calls cb cs) = cfg cb
  /\ (errors (state cb) <= errors (state (calls cb cs)))%Z
  /\ (placed (state cb) <= placed (state (calls cb cs)))%Z.
Proof.
  revert cb. induction cs as [ | c cs IH ]; intros cb; [ cbn; repeat split; lia | ].
  change (calls cb (c :: cs)) with (calls (call cb c) cs).
  destruct (IH (call cb c)) as (Hc & He & Hp). destruct (call_frame cb c) as (Hc' & He' & Hp').
  rewrite Hc, Hc'. repeat split; lia.
Qed.

Lemma calls_counters (cs : list Call) (cb : CircuitBreaker) :
  placed (state (calls cb cs)) = (placed (state cb) + Z.of_nat (length (placements cs)))%Z
  /\ rejected (state (calls cb cs))
     = (rejected (state cb) + Z.of_nat (count_rejects (placements cs)))%Z
  /\ errors (state (calls cb cs)) = (errors (state cb) + Z.of_nat (error_count cs))%Z.
Proof.
  revert cb. induction cs as [ | c cs IH ]; intros cb.
  - cbn. repeat split; lia.
  - change (calls cb (c :: cs)) with (calls (call cb c) cs).
    destruct (IH (call cb c)) as (Hp & Hr & He). rewrite Hp, Hr, He.
    unfold error_count, count_rejects, placements.
    destruct c as [[] | t | ]; cbn [call record_place record_cancel record_error state placed
                                     rejected errors flat_map app List.filter negb length];
      repeat split; lia.
Qed.

Lemma count_rejects_le (oks : list bool) : (count_rejects oks <= length oks)%nat.
Proof. unfold count_rejects. apply List.filter_length_le. Qed.

(** *** The cancel deque over a history of cancels *)

Lemma record_cancels_snoc (cb : CircuitBreaker) (ts : list Z) (t : Z) :
  record_cancels cb (ts ++ [t]) = record_cancel (record_cancels cb ts) t.
Proof. unfold record_cancels. rewrite fold_left_app. reflexivity. Qed.

Lemma Sorted_snoc_inv (ts : list Z) (t : Z) :
  Sorted Z.le (ts ++ [t]) -> Sorted Z.le ts /\ Forall (fun x => (x <= t)%Z) ts.
Proof.
  intros Hs. apply Sorted_StronglySorted in Hs; [ | intros x y z; lia ].
  induction ts as [ | a ts IH ]; [ split; constructor | ].
  cbn [app] in Hs. inversion Hs as [ | ? ? Hrest Hall ]; subst.
  destruct (IH Hrest) as [Hs' Hle]. split.
  - apply StronglySorted_Sorted. constructor.
    + apply Sorted_StronglySorted; [ intros x y z; lia | exact Hs' ].
    + apply List.Forall_app in Hall. tauto.
  - constructor; [ | exact Hle ].
    apply List.Forall_app in Hall. destruct Hall as [_ Ht]. inversion Ht; subst. assumption.
Qed.

Lemma window_sorted (now : Z) (ts : list Z) : Sorted Z.le ts -> Sorted Z.le (window now ts).
Proof.
  intros Hs. apply StronglySorted_Sorted.
  apply Sorted_StronglySorted in Hs; [ | intros x y z; lia ].
  unfold window. induction Hs as [ | t rest Hrest IH Hall ]; cbn [List.filter]; [ constructor | ].
  destruct (negb (60 <? now - t)%Z); [ | exact IH ].
  constructor; [ exact IH | ].
  apply List.Forall_forall. intros x Hx. apply filter_In in Hx.
  rewrite List.Forall_forall in Hall. apply Hall. tauto.
Qed.

Lemma window_window (prev now : Z) (ts : list Z) :
  (prev <= now)%Z -> window now (window prev ts) = window now ts.
Proof.
  intros Hle. unfold window. induction ts as [ | t ts IH ]; [ reflexivity | ].
  cbn [List.filter].
  destruct (Z.ltb_spec 60 (prev - t)) as [Hp | Hp];
    destruct (Z.ltb_spec 60 (now - t)) as [Hn | Hn]; cbn [negb List.filter]; try lia.
  - exact IH.
  - destruct (Z.ltb_spec 60 (now - t)); [ cbn [negb]; exact IH | lia ].
  - destruct (Z.ltb_spec 60 (now - t)); [ lia | cbn [negb]; f_equal; exact IH ].
Qed.

Lemma last_nonempty_In {A} (l : list A) (d : A) : l <> [] -> In (List.last l d) l.
Proof.
  induction l as [ | a l IH ]; intros Hne; [ congruence | ].
  destruct l as [ | b l ]; [ left; reflexivity | ].
  right. apply IH. discriminate.
Qed.

Lemma window_app (now : Z) (a b : list Z) :
  window now (a ++ b) = (window now a ++ window now b)%list.
Proof. unfold window. apply List.filter_app. Qed.

Lemma record_cancels_events (cb : CircuitBreaker) (ts : list Z) :
  cancel_events (state cb) = [] ->
  Sorted Z.le ts ->
  cancel_events (state (record_cancels cb ts)) = window (List.last ts 0%Z) ts.
Proof.
  intros Hempty. induction ts as [ | now ts IH ] using rev_ind; intros Hs.
  - cbn. exact Hempty.
  - destruct (Sorted_snoc_inv ts now Hs) as [Hs' Hle].
    rewrite record_cancels_snoc, last_last.
    destruct (record_cancel_window (record_cancels cb ts) now) as (Hev & _ & _).
    + rewrite (IH Hs'). apply window_sorted. exact Hs'.
    + rewrite (IH Hs'). apply List.Forall_forall. intros x Hx. unfold window in Hx.
      apply filter_In in Hx. rewrite List.Forall_forall in Hle. apply Hle. tauto.
    + cbv zeta in Hev. rewrite Hev, (IH Hs').
      change (List.filter (fun t => negb (60 <? now - t)%Z)
                (window (List.last ts 0%Z) ts ++ [now]))
        with (window now (window (List.last ts 0%Z) ts ++ [now])).
      rewrite !window_app. f_equal.
      destruct ts as [ | t0 ts0 ] eqn:Ets; [ reflexivity | ].
      rewrite <- Ets in *. apply window_window.
      rewrite List.Forall_forall in Hle. apply Hle.
      apply last_nonempty_In. rewrite Ets. discriminate.
Qed.

Lemma record_cancels_calls (ts : list Z) (cb : CircuitBreaker) :
  record_cancels cb ts = calls cb (map RecordCancel ts).
Proof.
  revert cb. induction ts as [ | t ts IH ]; intros cb; [ reflexivity | ].
  cbn [map]. change (calls cb (RecordCancel t :: map RecordCancel ts))
    with (calls (record_cancel cb t) (map RecordCancel ts)).
  rewrite <- IH. reflexivity.
Qed.

Lemma cancels_only (ts : list Z) :
  placements (map RecordCancel ts) = [] /\ error_count (map RecordCancel ts) = 0%nat.
Proof.
  unfold placements, error_count.
  induction ts as [ | t ts [IH1 IH2] ]; [ split; reflexivity | ].
  cbn [map flat_map app List.filter]. split; assumption.
Qed.

Lemma sorted_le_last (ts : list Z) (x : Z) :
  Sorted Z.le ts -> In x ts -> (x <= List.last ts 0)%Z.
Proof.
  intros Hs Hx. destruct (@exists_last _ ts) as (l & a & ->).
  { intros ->. destruct Hx. }
  rewrite last_last. destruct (Sorted_snoc_inv l a Hs) as [_ Hle].
  apply in_app_or in Hx. destruct Hx as [Hx | [<- | []]]; [ | lia ].
  rewrite List.Forall_forall in Hle. apply Hle. exact Hx.
Qed.

(** *** The cancel deque over any history *)

Lemma record_cancels_ext (ts : list Z) (cb cb' : CircuitBreaker) :
  cancel_events (state cb) = cancel_events (state cb') ->
  cancel_events (state (record_cancels cb ts)) = cancel_events (state (record_cancels cb' ts)).
Proof.
  revert cb cb'. induction ts as [ | t ts IH ]; intros cb cb' Heq; [ exact Heq | ].
  change (record_cancels cb (t :: ts)) with (record_cancels (record_cancel cb t) ts).
  change (record_cancels cb' (t :: ts)) with (record_cancels (record_cancel cb' t) ts).
  apply IH. cbn [record_cancel state cancel_events]. rewrite Heq. reflexivity.
Qed.

(** Placements and errors leave the deque alone: after any history it is the
    deque that the cancels of the history alone would leave. *)
Lemma calls_cancel_events (cs : list Call) (cb : CircuitBreaker) :
  cancel_events (state (calls cb cs))
  = cancel_events (state (record_cancels cb (cancel_times cs))).
Proof.
  revert cb. induction cs as [ | c cs IH ]; intros cb; [ reflexivity | ].
  change (calls cb (c :: cs)) with (calls (call cb c) cs). rewrite IH.
  destruct c as [ok | t | ]; cbn [cancel_times flat_map app call].
  - apply record_cancels_ext. reflexivity.
  - reflexivity.
  - apply record_cancels_ext. reflexivity.
Qed.

(** C8: [should_halt] takes no clock and trims nothing. After any history of
    [record_place], [record_cancel] and [record_error] calls on a new breaker
    whose cancels were recorded at non-decreasing times, the deque holds
    exactly the cancels recorded at most 60 seconds before the latest
    recorded cancel, and [should_halt] is true exactly when
    rejected / max(1, placed) reaches max_reject_rate with placed >= 20, or
    more than max_cancels_per_min cancels were recorded in that window, or
    errors >= max_errors. On every state the cancel test reads the length of
    the deque as it stands. After 30 recorded placements of which 12 were
    rejections, with max_reject_rate = 0.30, [should_halt] is true with a
    reason containing "reject_rate". *)
Theorem should_halt_amended :
  (forall (c : CircuitConfig) (t0 : Z) (cs : list Call),
      Sorted Z.le (cancel_times cs) ->
      let cb := calls (CircuitBreaker_init c t0) cs in
      let latest := List.last (cancel_times cs) 0%Z in
      let in_window := window latest (cancel_times cs) in
      cancel_events (state cb) = in_window
      /\ Forall (fun t => (latest - 60 <= t <= latest)%Z) in_window
      /\ (fst (should_halt cb) = true <->
          (max_reject_rate c
           <= inject_Z (rejected (state cb)) / inject_Z (Z.max 1 (placed (state cb)))
           /\ (20 <= placed (state cb))%Z)
          \/ (max_cancels_per_min c < Z.of_nat (length in_window))%Z
          \/ (max_errors c <= errors (state cb))%Z))
  /\
  (forall cb : CircuitBreaker,
      fst (should_halt cb) = true <->
      (max_reject_rate (cfg cb) <= inject_Z (rejected (state cb)) / inject_Z (Z.max 1 (placed (state cb)))
       /\ (20 <= placed (state cb))%Z)
      \/ (max_cancels_per_min (cfg cb) < Z.of_nat (length (cancel_events (state cb))))%Z
      \/ (max_errors (cfg cb) <= errors (state cb))%Z)
  /\
  (forall (c : CircuitConfig) (now : Z) (oks : list bool),
      max_reject_rate c == 0.30 ->
      length oks = 30%nat -> count_rejects oks = 12%nat ->
      let cb := record_places (CircuitBreaker_init c now) oks in
      fst (should_halt cb) = true /\
      snd (should_halt cb) = "reject_rate=40.00% over placed=30" /\
      contains "reject_rate" (snd (should_halt cb)) = true).
Proof.
  split; [ | split ].
  - intros c t0 cs Hs cb latest in_window.
    assert (Hev : cancel_events (state cb) = in_window).
    { unfold cb. rewrite calls_cancel_events.
      apply record_cancels_events; [ reflexivity | exact Hs ]. }
    split; [ exact Hev | ]. split.
    + apply List.Forall_forall. intros x Hx. unfold in_window, window in Hx.
      apply filter_In in Hx. destruct Hx as [Hin Hx].
      pose proof (sorted_le_last (cancel_times cs) x Hs Hin) as Hle. fold latest in Hle.
      destruct (Z.ltb_spec 60 (latest - x)); [ discriminate Hx | lia ].
    + rewrite should_halt_iff, Hev.
      destruct (calls_frame cs (CircuitBreaker_init c t0)) as (Hc & _ & _).
      fold cb in Hc. cbn [CircuitBreaker_init cfg] in Hc. rewrite Hc. reflexivity.
  - intros cb. apply should_halt_iff.
  - intros c now oks Hc Hlen Hrej. cbv zeta.
    destruct (record_places_counts oks (CircuitBreaker_init c now)) as (Ec & Ep & Er & _ & _).
    rewrite Hlen in Ep. rewrite Hrej in Er. cbn in Ep, Er.
    set (cb := record_places (CircuitBreaker_init c now) oks) in *.
    assert (Erate : reject_rate cb = inject_Z 12 / inject_Z (Z.max 1 30)).
    { unfold reject_rate. rewrite Ep, Er. reflexivity. }
    assert (H : should_halt cb = (true, "reject_rate=40.00% over placed=30")).
    { rewrite should_halt_reject_reason.
      - rewrite Erate, Ep. vm_compute. reflexivity.
      - rewrite Erate, Ec. cbn [cfg CircuitBreaker_init]. rewrite Hc. vm_compute. discriminate.
      - rewrite Ep. lia. }
    rewrite H. cbn [fst snd]. repeat split.
Qed.

(** The claim as stated fails: three cancels recorded at seconds 0, 10 and
    20 on a breaker that allows two a minute stay in the deque, so
    [should_halt] is true however much later it is called; at second 1000 no
    cancel was recorded in the last 60 seconds, no placement was recorded
    and no error. *)
Lemma should_halt_window_counterexample :
  let cb := calls (CircuitBreaker_init CircuitConfig_tight 0)
                  [RecordCancel 0; RecordCancel 10; RecordCancel 20] in
  should_halt cb = (true, "cancel_rate=3/min")
  /\ window 1000 (cancel_times [RecordCancel 0; RecordCancel 10; RecordCancel 20]) = []
  /\ placed (state cb) = 0%Z
  /\ errors (state cb) = 0%Z
  /\ max_errors (cfg cb) = 10%Z.
Proof. cbv zeta. repeat split. Qed.

(** Cancels at 1000, 1030, 1061 and 1090 between a placement and an error:
    the first cancel has left the window; and the scenario of 30 placements
    with 12 rejections. *)
Lemma should_halt_amended_witness :
  let cs := [RecordCancel 1000; RecordPlace true; RecordCancel 1030; RecordError;
             RecordCancel 1061; RecordCancel 1090] in
  let cb := record_places (CircuitBreaker_init CircuitConfig_default 0)
                          (repeat false 12 ++ repeat true 18)%list in
  cancel_events (state (calls (CircuitBreaker_init CircuitConfig_default 1000) cs))
  = [1030; 1061; 1090]%Z
  /\ fst (should_halt cb) = true
  /\ snd (should_halt cb) = "reject_rate=40.00% over placed=30"
  /\ contains "reject_rate" (snd (should_halt cb)) = true.
Proof.
  cbv zeta. destruct should_halt_amended as (Hwin & _ & Hscen). split.
  - destruct (Hwin CircuitConfig_default 1000%Z
                [RecordCancel 1000; RecordPlace true; RecordCancel 1030; RecordError;
                 RecordCancel 1061; RecordCancel 1090]) as (Hev & _ & _).
    + repeat constructor; lia.
    + exact Hev.
  - apply (Hscen CircuitConfig_default 0%Z (repeat false 12 ++ repeat true 18)%list).
    + reflexivity.
    + reflexivity.
    + reflexivity.
Defined.

End BreakerProofs.

(** ** Capital allocator *)

Section AllocatorProofs.
Import Allocator.
Context `{M : PyMath}.
Variable self : CapitalAllocator.

Abbreviation cap := (max_per_market self).
Abbreviation floor_ := (min_per_market self).


(** *** The pinned minimums *)


(** *** Keys of the allocation map are market ids *)



(** *** The cap *)




(** *** Sums of rationals *)

Lemma fold_Qplus_acc (l : list Q) (a : Q) : fold_left Qplus l a == a + sumQ l.
Proof.
  unfold sumQ. revert a. induction l as [ | x l IH ]; intros a; cbn [fold_left].
  - ring.
  - rewrite (IH (a + x)), (IH (0 + x)). ring.
Qed.

Lemma sumQ_cons (x : Q) (l : list Q) : sumQ (x :: l) == x + sumQ l.
Proof. unfold sumQ at 1. cbn [fold_left]. rewrite fold_Qplus_acc. ring. Qed.



Lemma sumQ_repeat_one (n : nat) : sumQ (repeat 1 n) == inject_Z (Z.of_nat n).
Proof.
  induction n as [ | n IH ].
  - reflexivity.
  - cbn [repeat]. rewrite sumQ_cons, IH, Nat2Z.inj_succ.
    unfold Z.succ. rewrite inject_Z_plus. ring.
Qed.

(** *** Redistribution arithmetic on a list of shares *)








(** *** Closed forms of the passes when market ids are distinct *)



Lemma map_fst_combine {A B} (l : list A) (l' : list B) :
  length l = length l' -> map fst (combine l l') = l.
Proof.
  revert l'. induction l as [ | x l IH ]; intros [ | y l' ] H; try discriminate H; [ reflexivity | ].
  cbn. f_equal. apply IH. cbn in H. lia.
Qed.

Lemma map_snd_combine {A B} (l : list A) (l' : list B) :
  length l = length l' -> map snd (combine l l') = l'.
Proof.
  revert l'. induction l as [ | x l IH ]; intros [ | y l' ] H; try discriminate H; [ reflexivity | ].
  cbn. f_equal. apply IH. cbn in H. lia.
Qed.

















(** *** The budget is preserved when no share is lost to a bound *)

Lemma weights_spec (feats : list MarketFeatures) :
  length (weights self feats).1 = length feats /\
  sumQ (weights self feats).1 == (weights self feats).2.
Proof.
  unfold weights. destruct (Qleb _ 0); cbn [fst snd].
  - split; [ apply repeat_length | apply sumQ_repeat_one ].
  - split; [ apply length_map | reflexivity ].
Qed.







End AllocatorProofs.

(** Closed comparisons of rationals, decided by evaluation. *)
Ltac q_decide :=
  vm_compute;
  lazymatch goal with
  | |- _ = _ => reflexivity
  | |- (_ -> False) -> False =>
      let H := fresh in intro H; apply H; reflexivity
  | |- (_ -> False) -> _ -> False =>
      let H := fresh in
      let H' := fresh in
      intros H H'; first [ discriminate H' | apply H; reflexivity ]
  | |- _ -> False =>
      let H := fresh in intro H; discriminate H
  end.

(** Scenario 2: the larger market is cut at 60 and the overflow goes to the
    other one; the two amounts are 60 and 40. *)
Example allocate_two_markets :
  Forall2 Qeq
    (Allocator.vals (@Allocator.allocate Examples.PyMath_points Examples.alloc_two Examples.feats_two)
                    Examples.feats_two)
    [60; 40].
Proof. repeat constructor; q_decide. Qed.



(** ** Order manager: the post-only guard *)

Section GuardLemmas.
Import OrderManager.
Context {E : Type} `{Exchange.ExchangeBase E} {R : Type}.

Lemma upper_ascii_idem (c : ascii) : upper_ascii (upper_ascii c) = upper_ascii c.
Proof.
  destruct c as [[] [] [] [] [] [] [] []]; reflexivity.
Qed.

Lemma upper_idem (s : string) : upper (upper s) = upper s.
Proof.
  induction s as [ | c s IH ]; [ reflexivity | ].
  cbn [upper]. rewrite upper_ascii_idem, IH. reflexivity.
Qed.

Lemma guard_buy_cross (self : OrderManager R) side price bb a :
  post_only self = true -> upper side = "BUY" -> a <= price ->
  _guard_post_only self side price bb (Some a)
  = if Qltb 0 (a - tick_or self 0.001) then Some (a - tick_or self 0.001) else None.
Proof.
  intros Hpo Hside Hle. unfold _guard_post_only. rewrite Hpo, Hside. cbn [negb String.eqb].
  apply Qleb_true in Hle. rewrite Hle. reflexivity.
Qed.

Lemma guard_sell_cross (self : OrderManager R) side price b ba :
  post_only self = true -> upper side = "SELL" -> price <= b ->
  _guard_post_only self side price (Some b) ba
  = if Qltb (b + tick_or self 0.001) 1 then Some (b + tick_or self 0.001) else None.
Proof.
  intros Hpo Hside Hle. unfold _guard_post_only. rewrite Hpo, Hside.
  apply Qleb_true in Hle. rewrite Hle.
  destruct ba; reflexivity.
Qed.

Lemma guard_buy_no_ask (self : OrderManager R) side price bb :
  upper side = "BUY" -> _guard_post_only self side price bb None = Some price.
Proof.
  intros Hside. unfold _guard_post_only. rewrite Hside.
  destruct (post_only self); cbn [negb]; [ | reflexivity ].
  destruct bb; reflexivity.
Qed.

Lemma guard_sell_no_bid (self : OrderManager R) side price ba :
  upper side = "SELL" -> _guard_post_only self side price None ba = Some price.
Proof.
  intros Hside. unfold _guard_post_only. rewrite Hside.
  destruct (post_only self); cbn [negb]; [ | reflexivity ].
  destruct ba; reflexivity.
Qed.

Lemma guard_empty_book (self : OrderManager R) side price :
  _guard_post_only self side price None None = Some price.
Proof. unfold _guard_post_only. destruct (post_only self); reflexivity. Qed.

Lemma place_or_replace_guard (self : OrderManager R) (w : World E)
  now cond tok side price size bb ba :
  place_or_replace now cond tok side price size bb ba self w
  = match _guard_post_only self side price bb ba with
    | None => Ret (blocked_result bb ba, self, w)
    | Some p => place_guarded now cond tok (upper side) p size bb ba self w
    end.
Proof.
  unfold place_or_replace.
  assert (Eg : _guard_post_only self (upper side) price bb ba
               = _guard_post_only self side price bb ba).
  { unfold _guard_post_only. rewrite upper_idem. reflexivity. }
  rewrite Eg. reflexivity.
Qed.

End GuardLemmas.

(** ** Order manager: placement *)

Section PlaceProofs.
Import OrderManager.
Context {E : Type} `{Exchange.ExchangeBase E} {R : Type}.

Lemma od_get_set (k : string) (v : list LiveOrderState) (d : LiveTable) :
  od_get k (od_set k v d) = Some v.
Proof.
  induction d as [ | [k' v'] d IH ]; cbn [od_set od_get].
  - rewrite String.eqb_refl. reflexivity.
  - destruct (String.eqb_spec k k') as [-> | Hne]; cbn [od_get].
    + rewrite String.eqb_refl. reflexivity.
    + destruct (String.eqb_spec k k') as [E' | _]; [ contradiction | exact IH ].
Qed.

Lemma vid_truthy_Some (v : option string) (s : string) :
  vid_truthy v = Some s <-> v = Some s /\ s <> EmptyString.
Proof.
  unfold vid_truthy. destruct v as [x | ]; [ | split; [ discriminate | intros [? _]; discriminate ] ].
  destruct (String.eqb_spec x EmptyString) as [-> | Hne]; split.
  - discriminate.
  - intros [[= <-] Hs]. contradiction.
  - intros [= <-]. split; [ reflexivity | exact Hne ].
  - intros [[= <-] _]. reflexivity.
Qed.

(** An order is appended exactly for a successful result that carries a
    non-empty venue id. *)
Lemma appended_order_iff (self : OrderManager R) now cond tok side price size res :
  appended_order self now cond tok side price size res <> []
  <-> Exchange.success res = true
      /\ exists vid, Exchange.venue_order_id res = Some vid /\ vid <> EmptyString.
Proof.
  unfold appended_order. destruct (Exchange.success res).
  - destruct (vid_truthy (Exchange.venue_order_id res)) as [vid | ] eqn:Ev.
    + apply vid_truthy_Some in Ev. split; [ | discriminate ].
      intros _. split; [ reflexivity | exists vid; exact Ev ].
    + split; [ congruence | ]. intros [_ (vid & Hv & Hne)].
      assert (Hs : vid_truthy (Exchange.venue_order_id res) = Some vid)
        by (apply vid_truthy_Some; split; assumption).
      congruence.
  - split; [ congruence | intros [Hs _]; discriminate Hs ].
Qed.

Lemma orders_table_upsert (c : Repo.Conn) (row : Repo.OrderRow) :
  exists r, Repo.orders_table (Repo.upsert_order c row)
              !! (Repo.run_id row, Repo.local_order_id row) = Some r
            /\ Repo.status r = Repo.status row.
Proof.
  unfold Repo.orders_table, Repo.upsert_order. rewrite fold_left_app. cbn [fold_left].
  set (t := fold_left _ c ∅). unfold Repo.apply_upsert.
  destruct (t !! (Repo.run_id row, Repo.local_order_id row));
    eexists; (split; [ apply lookup_insert_eq | reflexivity ]).
Qed.

(** The effect of the placement phase on the live table and on the store. *)
Lemma place_phase_spec (self : OrderManager R) now cond tok side price size bb ba
  existing (w : World E) :
  let r := place_phase self now cond tok side price size bb ba existing w in
  let res := (Exchange.place_limit (exchange w) tok side price size (post_only self)
                [("condition_id", JStr cond)]).1 in
  let row := place_row self cond tok side price size now bb ba res in
  r.1.1 = res
  /\ od_get tok (live r.1.2)
     = Some (existing ++ appended_order self now cond tok side price size res)%list
  /\ conn r.2 = Repo.upsert_order (conn w) row.
Proof.
  cbv zeta. unfold place_phase.
  destruct (Exchange.place_limit _ _ _ _ _ _ _) as [res ex]. cbn [fst snd with_live live do_upsert conn].
  split; [ reflexivity | ]. split; [ apply od_get_set | reflexivity ].
Qed.

(** A guarded placement that returns went through the cancellations, asked
    the venue, stored the row and set live[token]. *)
Lemma place_guarded_spec (self : OrderManager R) (w : World E)
  now cond tok side p size bb ba res om' w' :
  place_guarded now cond tok side p size bb ba self w = Ret (res, om', w') ->
  exists (w1 : World E) (existing : list LiveOrderState),
    cancel_phase self now cond tok side p w = Ret (w1, existing)
    /\ res = (Exchange.place_limit (exchange w1) tok side p size (post_only self)
                [("condition_id", JStr cond)]).1
    /\ od_get tok (live om')
       = Some (existing ++ appended_order self now cond tok side p size res)%list
    /\ conn w' = Repo.upsert_order (conn w1)
                   (place_row self cond tok side p size now bb ba res).
Proof.
  intros Hcall. unfold place_guarded in Hcall.
  destruct (cancel_phase self now cond tok side p w) as [[w1 existing] | e] eqn:Ec;
    [ | discriminate Hcall ].
  cbn in Hcall. injection Hcall as Hr.
  destruct (place_phase_spec self now cond tok side p size bb ba existing w1)
    as (Hres & Hlive & Hconn).
  rewrite Hr in Hres, Hlive, Hconn. cbn [fst snd] in Hres, Hlive, Hconn.
  exists w1, existing. rewrite <- Hres in Hlive, Hconn.
  split; [ reflexivity | ]. split; [ exact Hres | ]. split; [ exact Hlive | exact Hconn ].
Qed.

(** C10 (amended): a call to [place_or_replace] that returns either was
    stopped by the guard and changed nothing, or went through the replace and
    capacity cancellations and then: its result is the venue's; a new live
    order is appended to live[token] if and only if that result has
    success = true and a venue_order_id that is neither null nor the empty
    string; on a failed placement live[token] is exactly the list left by the
    cancellations; and the order row is persisted with status REJECTED when
    the placement failed and PLACED when it succeeded. *)
Theorem place_or_replace_append (self : OrderManager R) (w : World E)
  (now : Z) (cond tok side : string) (price size : Q) (bb ba : option Q)
  (res : Exchange.PlaceOrderResult) (om' : OrderManager R) (w' : World E) :
  place_or_replace now cond tok side price size bb ba self w = Ret (res, om', w') ->
  (_guard_post_only self side price bb ba = None
   /\ res = blocked_result bb ba /\ om' = self /\ w' = w)
  \/
  exists (p : Q) (w1 : World E) (existing : list LiveOrderState),
    let appended := appended_order self now cond tok (upper side) p size res in
    let row := place_row self cond tok (upper side) p size now bb ba res in
    _guard_post_only self side price bb ba = Some p
    /\ cancel_phase self now cond tok (upper side) p w = Ret (w1, existing)
    /\ res = (Exchange.place_limit (exchange w1) tok (upper side) p size (post_only self)
                [("condition_id", JStr cond)]).1
    /\ od_get tok (live om') = Some (existing ++ appended)%list
    /\ (appended <> [] <->
        Exchange.success res = true
        /\ exists vid, Exchange.venue_order_id res = Some vid /\ vid <> EmptyString)
    /\ (Exchange.success res = false -> od_get tok (live om') = Some existing)
    /\ conn w' = Repo.upsert_order (conn w1) row
    /\ Repo.status row = (if Exchange.success res then "PLACED" else "REJECTED")
    /\ exists r, Repo.orders_table (conn w')
                   !! (run_id self, make_local_order_id self cond now (upper side)) = Some r
                 /\ Repo.status r = (if Exchange.success res then "PLACED" else "REJECTED").
Proof.
  intros Hcall. rewrite place_or_replace_guard in Hcall.
  destruct (_guard_post_only self side price bb ba) as [p | ].
  2:{ left. injection Hcall as <- <- <-. repeat split. }
  right. destruct (place_guarded_spec _ _ _ _ _ _ _ _ _ _ _ _ _ Hcall)
    as (w1 & existing & Hc & Hres & Hlive & Hconn).
  exists p, w1, existing. cbv zeta.
  split; [ reflexivity | ]. split; [ exact Hc | ]. split; [ exact Hres | ].
  split; [ exact Hlive | ]. split; [ apply appended_order_iff | ].
  split.
  { intros Hf. rewrite Hlive. unfold appended_order. rewrite Hf, app_nil_r. reflexivity. }
  split; [ exact Hconn | ]. split; [ reflexivity | ].
  rewrite Hconn.
  destruct (orders_table_upsert (conn w1)
              (place_row self cond tok (upper side) p size now bb ba res)) as (r & Hl & Hs).
  exists r. split; [ exact Hl | exact Hs ].
Qed.

End PlaceProofs.

(** C10, as stated, fails: a venue result with success = true and the empty
    string as venue_order_id is not null, and nothing is appended. *)
Lemma place_empty_id_counterexample :
  exists res om' w',
    OrderManager.place_or_replace 1000 "cond01" "tok" "BUY" 0.50 10 None None
      (Examples.manager 2 []) (Examples.world_of [Examples.accepted EmptyString])
    = Ret (res, om', w')
    /\ Exchange.success res = true
    /\ Exchange.venue_order_id res = Some EmptyString
    /\ OrderManager.od_get "tok" (OrderManager.live (Examples.manager 2 [])) = Some []
    /\ OrderManager.od_get "tok" (OrderManager.live om') = Some [].
Proof.
  do 3 eexists. split; [ vm_compute; reflexivity | ]. repeat split.
Qed.

(** A rejected placement next to a resting order: the live list is left
    alone and the row is stored as REJECTED. *)
Lemma place_or_replace_append_witness :
  exists res om' w',
    OrderManager.place_or_replace 1000 "cond01" "tok" "SELL" 0.53 10 (Some 0.50) (Some 0.53)
      (Examples.manager 2 [Examples.resting_buy]) (Examples.world_of [Examples.rejected "not enough balance"])
    = Ret (res, om', w')
    /\ Exchange.success res = false
    /\ OrderManager.od_get "tok" (OrderManager.live om') = Some [Examples.resting_buy]
    /\ exists r,
         Repo.orders_table (OrderManager.conn w')
           !! (OrderManager.run_id (Examples.manager 2 [Examples.resting_buy]),
               OrderManager.make_local_order_id (Examples.manager 2 [Examples.resting_buy])
                 "cond01" 1000 (upper "SELL")) = Some r
         /\ Repo.status r = "REJECTED".
Proof.
  do 3 eexists.
  match goal with |- ?call = ?ret /\ _ =>
    assert (Hcall : call = ret) by (vm_compute; reflexivity) end.
  split; [ exact Hcall | ]. split; [ reflexivity | ].
  destruct (place_or_replace_append _ _ _ _ _ _ _ _ _ _ _ _ _ Hcall)
    as [(Hg & _) | (p & w1 & existing & _ & Hc & _ & _ & _ & Hfail & _ & _ & Htab)].
  - vm_compute in Hg. discriminate Hg.
  - split; [ | exact Htab ].
    rewrite (Hfail eq_refl). vm_compute in Hc. injection Hc as _ <-. reflexivity.
Defined.


Section GuardProofs.
Import OrderManager.
Context {E : Type} `{Exchange.ExchangeBase E} {R : Type}.

(** C7: with post_only enabled, a BUY at p >= best_ask is moved to
    best_ask - tick, where tick is the manager's tick_size when it is set
    and not zero and 1e-3 when it is unknown (none, or zero), and the call
    returns the rejection "post_only_guard_blocked", touching nothing,
    exactly when that price is <= 0; a SELL at p <= best_bid is moved to
    best_bid + tick and rejected exactly when that price is >= 1; otherwise
    the placement goes on and the venue is asked at the adjusted price; and
    when the relevant best quote is absent the price is unchanged and the
    guard does not block. *)
Theorem post_only_guard_correct (self : OrderManager R) (w : World E)
  (now : Z) (cond tok side : string) (price size : Q) (bb ba : option Q) :
  post_only self = true ->
  let tick := tick_or self 0.001 in
  let guard := _guard_post_only self side price bb ba in
  let call := place_or_replace now cond tok side price size bb ba self w in
  let blocked := Ret (blocked_result bb ba, self, w) in
  let placed_at p :=
    guard = Some p
    /\ call = place_guarded now cond tok (upper side) p size bb ba self w
    /\ forall res om' w',
         call = Ret (res, om', w') ->
         exists ex, res = (Exchange.place_limit ex tok (upper side) p size true
                             [("condition_id", JStr cond)]).1 in
  (tick_size self = None -> tick = 0.001)
  /\ (forall t, tick_size self = Some t ->
        (~ t == 0 -> tick = t) /\ (t == 0 -> tick = 0.001))
  /\ (Exchange.success (blocked_result bb ba) = false
      /\ Exchange.error (blocked_result bb ba) = Some "post_only_guard_blocked")
  /\ (forall a, upper side = "BUY" -> ba = Some a -> a <= price ->
        (guard = None <-> a - tick <= 0)
        /\ (a - tick <= 0 -> call = blocked)
        /\ (0 < a - tick -> placed_at (a - tick)))
  /\ (forall b, upper side = "SELL" -> bb = Some b -> price <= b ->
        (guard = None <-> 1 <= b + tick)
        /\ (1 <= b + tick -> call = blocked)
        /\ (b + tick < 1 -> placed_at (b + tick)))
  /\ (upper side = "BUY" -> ba = None -> placed_at price)
  /\ (upper side = "SELL" -> bb = None -> placed_at price).
Proof.
  intros Hpo tick guard call blocked placed_at.
  assert (Hcall : call = match guard with
                         | None => blocked
                         | Some p => place_guarded now cond tok (upper side) p size bb ba self w
                         end)
    by apply place_or_replace_guard.
  assert (Hplaced : forall p, guard = Some p -> placed_at p).
  { intros p Hg. unfold placed_at. rewrite Hcall, Hg.
    split; [ reflexivity | ]. split; [ reflexivity | ].
    intros res om' w' Hret.
    destruct (place_guarded_spec _ _ _ _ _ _ _ _ _ _ _ _ _ Hret) as (w1 & existing & _ & Hres & _).
    exists (exchange w1). rewrite Hpo in Hres. exact Hres. }
  split; [ | split; [ | split; [ | split; [ | split; [ | split ] ] ] ] ].
  - intros Hn. unfold tick, tick_or. rewrite Hn. reflexivity.
  - intros t Ht. unfold tick, tick_or. rewrite Ht.
    destruct (Qeqb t 0) eqn:Hz.
    + apply Qeqb_true in Hz. split; [ intros Hn; contradiction | reflexivity ].
    + apply Qeqb_false in Hz. split; [ reflexivity | intros Hn; contradiction ].
  - split; reflexivity.
  - intros a Hside -> Hle.
    assert (Hg : guard = if Qltb 0 (a - tick) then Some (a - tick) else None)
      by (apply guard_buy_cross; assumption).
    destruct (Qltb 0 (a - tick)) eqn:Hadj.
    + apply Qltb_true in Hadj. split; [ rewrite Hg; split; [ discriminate | lra ] | ].
      split; [ intros; lra | intros _; apply Hplaced; exact Hg ].
    + apply Qltb_false in Hadj.
      split; [ rewrite Hg; split; [ intros _; exact Hadj | reflexivity ] | ].
      split; [ intros _; rewrite Hcall, Hg; reflexivity | intros; lra ].
  - intros b Hside -> Hle.
    assert (Hg : guard = if Qltb (b + tick) 1 then Some (b + tick) else None)
      by (apply guard_sell_cross; assumption).
    destruct (Qltb (b + tick) 1) eqn:Hadj.
    + apply Qltb_true in Hadj. split; [ rewrite Hg; split; [ discriminate | lra ] | ].
      split; [ intros; lra | intros _; apply Hplaced; exact Hg ].
    + apply Qltb_false in Hadj.
      split; [ rewrite Hg; split; [ intros _; exact Hadj | reflexivity ] | ].
      split; [ intros _; rewrite Hcall, Hg; reflexivity | intros; lra ].
  - intros Hside ->. apply Hplaced. apply guard_buy_no_ask. exact Hside.
  - intros Hside ->. apply Hplaced. apply guard_sell_no_bid. exact Hside.
Qed.

End GuardProofs.

(** Scenario 4, on a manager with tick 0.01: a BUY at 0.51 against a best ask
    of 0.50 goes on at 0.50 - 0.01. *)
Lemma post_only_guard_correct_witness :
  OrderManager._guard_post_only (Examples.manager 2 []) "BUY" 0.51 None (Some 0.50)
  = Some (0.50 - 0.01)
  /\ OrderManager.place_or_replace 1000 "cond01" "tok" "BUY" 0.51 10 None (Some 0.50)
       (Examples.manager 2 []) (Examples.world_of [Examples.accepted "v9"])
     = OrderManager.place_guarded 1000 "cond01" "tok" "BUY" (0.50 - 0.01) 10 None (Some 0.50)
         (Examples.manager 2 []) (Examples.world_of [Examples.accepted "v9"]).
Proof.
  destruct (post_only_guard_correct (Examples.manager 2 [])
              (Examples.world_of [Examples.accepted "v9"])
              1000 "cond01" "tok" "BUY" 0.51 10 None (Some 0.50) eq_refl)
    as (_ & Htick & _ & Hbuy & _).
  destruct (Htick 0.01 eq_refl) as [Hset _].
  assert (Ht : OrderManager.tick_or (Examples.manager 2 []) 0.001 = 0.01).
  { apply Hset. intros Hz. vm_compute in Hz. discriminate Hz. }
  destruct (Hbuy 0.50 eq_refl eq_refl ltac:(q_decide)) as (_ & _ & Hpos).
  destruct (Hpos ltac:(q_decide)) as (Hg & Hc & _).
  rewrite Ht in Hg, Hc. split; [ exact Hg | exact Hc ].
Defined.

Example post_only_scenario :
  exists res om' w',
    OrderManager.place_or_replace 1000 "cond01" "tok" "BUY" 0.51 10 None (Some 0.50)
      (Examples.manager 2 []) (Examples.world_of [Examples.accepted "v9"])
    = Ret (res, om', w')
    /\ Exchange.success res = true
    /\ exists o, OrderManager.od_get "tok" (OrderManager.live om') = Some [o]
                 /\ OrderManager.price o == 0.49 /\ OrderManager.side o = "BUY".
Proof.
  do 3 eexists. split; [ vm_compute; reflexivity | ].
  split; [ reflexivity | ].
  eexists. split; [ reflexivity | ]. split; [ q_decide | reflexivity ].
Qed.

(** ** Order manager: stale cancellation *)

Section StaleProofs.
Import OrderManager.
Context {E : Type} `{Exchange.ExchangeBase E} {R : Type}.
Variable self : OrderManager R.
Variable now : Z.

Abbreviation fresh := (fun o => negb (is_stale self now o)).

Lemma cancel_all_app (ex : E) (a b : list string) :
  cancel_all ex (a ++ b)
  = (((cancel_all ex a).1 ++ (cancel_all (cancel_all ex a).2 b).1)%list,
     (cancel_all (cancel_all ex a).2 b).2).
Proof.
  revert ex. induction a as [ | v a IH ]; intros ex; cbn [cancel_all app].
  - cbn [fst snd]. destruct (cancel_all ex b); reflexivity.
  - destruct (Exchange.cancel ex v) as [ok ex1]. rewrite IH.
    destruct (cancel_all ex1 a) as [oks ex2]. cbn [fst snd].
    destruct (cancel_all ex2 b) as [oks' ex3]. reflexivity.
Qed.

Lemma count_true_app (a b : list bool) :
  count_true (a ++ b) = (count_true a + count_true b)%Z.
Proof. unfold count_true. rewrite List.filter_app, List.length_app. lia. Qed.

Lemma cancel_stale_order_stale (w : World E) (cancels : Z) (keep : list LiveOrderState)
  (o : LiveOrderState) :
  is_stale self now o = true ->
  let ok := (Exchange.cancel (exchange w) (venue_order_id o)).1 in
  let ex := (Exchange.cancel (exchange w) (venue_order_id o)).2 in
  cancel_stale_order self now (w, cancels, keep) o
  = (do_upsert {| conn := conn w; exchange := ex |}
       (cancel_row self o None (side o) now ok [("reason", JStr "stale"); ("ok", JBool ok)]),
     (cancels + (if ok then 1 else 0))%Z, keep).
Proof.
  intros Hs. cbv zeta. unfold cancel_stale_order, do_cancel. rewrite Hs.
  destruct (Exchange.cancel (exchange w) (venue_order_id o)) as [ok ex]. reflexivity.
Qed.

Lemma cancel_stale_order_fresh (w : World E) (cancels : Z) (keep : list LiveOrderState)
  (o : LiveOrderState) :
  is_stale self now o = false ->
  cancel_stale_order self now (w, cancels, keep) o = (w, cancels, (keep ++ [o])%list).
Proof. intros Hs. unfold cancel_stale_order. rewrite Hs. reflexivity. Qed.

(** The inner loop: one venue cancel per stale order, the others kept. *)
Lemma cancel_stale_orders_fold (lst : list LiveOrderState) (w : World E) (cancels : Z)
  (keep : list LiveOrderState) :
  let r := fold_left (cancel_stale_order self now) lst (w, cancels, keep) in
  let c := cancel_all (exchange w) (map venue_order_id (List.filter (is_stale self now) lst)) in
  exchange r.1.1 = c.2
  /\ r.1.2 = (cancels + count_true c.1)%Z
  /\ r.2 = (keep ++ List.filter fresh lst)%list.
Proof.
  revert w cancels keep. induction lst as [ | o lst IH ]; intros w cancels keep; cbv zeta.
  - cbn. unfold count_true. cbn. rewrite app_nil_r. repeat split; lia.
  - cbn [fold_left List.filter].
    destruct (is_stale self now o) eqn:Hs; cbn [negb map cancel_all].
    + rewrite (cancel_stale_order_stale w cancels keep o Hs). cbv zeta.
      destruct (Exchange.cancel (exchange w) (venue_order_id o)) as [ok ex1]. cbn [fst snd].
      match goal with |- context [fold_left _ lst (?w1, ?c1, ?k1)] =>
        destruct (IH w1 c1 k1) as (He & Hc & Hk) end.
      cbn [do_upsert exchange] in He, Hc.
      destruct (cancel_all ex1 _) as [oks ex2]. cbn [fst snd] in *.
      split; [ exact He | split; [ | exact Hk ] ].
      rewrite Hc. unfold count_true. cbn [List.filter].
      destruct ok; cbn [length]; lia.
    + rewrite (cancel_stale_order_fresh w cancels keep o Hs).
      destruct (IH w cancels (keep ++ [o])%list) as (He & Hc & Hk).
      split; [ exact He | split; [ exact Hc | ] ].
      rewrite Hk, <- app_assoc. reflexivity.
Qed.

Lemma od_set_skip (k : string) (v x : list LiveOrderState) (done rest : LiveTable) :
  ~ In k (map fst done) ->
  od_set k v (done ++ (k, x) :: rest)%list = (done ++ (k, v) :: rest)%list.
Proof.
  induction done as [ | [k' v'] done IH ]; intros Hk; cbn [od_set app].
  - rewrite String.eqb_refl. reflexivity.
  - destruct (String.eqb_spec k k') as [-> | Hne].
    + exfalso. apply Hk. left. reflexivity.
    + rewrite IH; [ reflexivity | ]. intros Hin. apply Hk. right. exact Hin.
Qed.

Lemma cancel_stale_token_eq (w : World E) (cancels : Z) (table : LiveTable)
  (tok : string) (lst : list LiveOrderState) :
  cancel_stale_token self now (w, cancels, table) (tok, lst)
  = let r := fold_left (cancel_stale_order self now) lst (w, cancels, []) in
    (r.1.1, r.1.2, od_set tok r.2 table).
Proof.
  unfold cancel_stale_token. cbv zeta.
  destruct (fold_left (cancel_stale_order self now) lst (w, cancels, [])) as [[w1 c1] keep].
  reflexivity.
Qed.

(** The outer loop over the items of [self.live]. *)
Lemma cancel_stale_tokens_fold (items done : LiveTable) (w : World E) (cancels : Z) :
  List.NoDup (map fst (done ++ items)%list) ->
  let r := fold_left (cancel_stale_token self now) items (w, cancels, (done ++ items)%list) in
  let c := cancel_all (exchange w)
             (map venue_order_id (List.filter (is_stale self now) (flat_map snd items))) in
  exchange r.1.1 = c.2
  /\ r.1.2 = (cancels + count_true c.1)%Z
  /\ r.2 = (done ++ map (fun it => (it.1, List.filter fresh it.2)) items)%list.
Proof.
  revert done w cancels. induction items as [ | [tok lst] items IH ]; intros done w cancels Hnd; cbv zeta.
  - cbn. unfold count_true. cbn. repeat split; lia.
  - cbn [fold_left flat_map snd]. rewrite cancel_stale_token_eq. cbv zeta.
    destruct (cancel_stale_orders_fold lst w cancels []) as (He1 & Hc1 & Hk1).
    rewrite app_nil_l in Hk1.
    set (r1 := fold_left (cancel_stale_order self now) lst (w, cancels, [])) in *.
    assert (Hk : ~ In tok (map fst done)).
    { rewrite map_app in Hnd. cbn [map fst] in Hnd. apply NoDup_remove_2 in Hnd.
      intros Hin. apply Hnd. apply in_or_app. left. exact Hin. }
    rewrite od_set_skip by exact Hk.
    assert (Hnd' : List.NoDup (map fst ((done ++ [(tok, r1.2)]) ++ items)%list)).
    { rewrite <- app_assoc. cbn [app]. rewrite map_app in *. exact Hnd. }
    destruct (IH (done ++ [(tok, r1.2)])%list r1.1.1 r1.1.2 Hnd') as (He & Hc & Ht).
    rewrite <- app_assoc in He, Hc, Ht. cbn [app] in He, Hc, Ht.
    rewrite He, Hc, Ht, He1, Hc1, Hk1.
    rewrite List.filter_app, List.map_app, cancel_all_app. cbn [fst snd].
    rewrite count_true_app. repeat split; [ lia | ].
    rewrite <- app_assoc. reflexivity.
Qed.

End StaleProofs.

Section StaleStepProofs.
Import OrderManager.
Context {E : Type} `{Exchange.ExchangeBase E} {R : Type}.

Lemma cancel_stale_spec (now : Z) (om : OrderManager R) (w : World E) :
  List.NoDup (map fst (live om)) ->
  let r := cancel_stale now om w in
  let c := cancel_all (exchange w) (map venue_order_id (stale_orders om now)) in
  r.1.1 = count_true c.1
  /\ r.1.2 = with_live om (fresh_table om now)
  /\ exchange r.2 = c.2.
Proof.
  intros Hnd. cbv zeta. unfold cancel_stale, stale_orders, fresh_table.
  destruct (cancel_stale_tokens_fold om now (live om) [] w 0%Z Hnd) as (He & Hc & Ht).
  cbn [app] in He, Hc, Ht.
  destruct (fold_left (cancel_stale_token om now) (live om) (w, 0%Z, live om))
    as [[w1 c1] table].
  cbn [fst snd] in *. subst c1 table. rewrite He. repeat split.
Qed.

(** C3 (amended): [cancel_stale] sends one venue cancel for each live order
    with now - created_ts >= cancel_reprice_sec, in table order, removes
    exactly these orders from the live tables (whether or not the venue
    cancel succeeded) and returns the number of successful venue cancels; the
    stale-cancel step of the control loop then calls [record_cancel] exactly
    once when that number is non-zero and not at all when it is zero. *)
Theorem stale_step_amended (now_om now_cb : Z) (om : OrderManager R) (w : World E)
  (cb : CircuitBreaker.CircuitBreaker) :
  List.NoDup (map fst (live om)) ->
  let r := ControlLoop.stale_step now_om now_cb om w cb in
  let c := cancel_all (exchange w) (map venue_order_id (stale_orders om now_om)) in
  r.1.1.1 = count_true c.1
  /\ live r.1.1.2 = fresh_table om now_om
  /\ exchange r.1.2 = c.2
  /\ r.2 = (if (count_true c.1 =? 0)%Z then cb else CircuitBreaker.record_cancel cb now_cb).
Proof.
  intros Hnd. cbv zeta. unfold ControlLoop.stale_step.
  destruct (cancel_stale_spec now_om om w Hnd) as (Hc & Ho & He).
  destruct (cancel_stale now_om om w) as [[cancels om'] w']. cbn [fst snd] in *.
  subst cancels om'. rewrite He. repeat split.
Qed.

End StaleStepProofs.

(** C3, as stated, fails: with two stale orders whose venue cancels both
    succeed, the stale-cancel step reports 2 cancels and the breaker's deque
    grows from 0 to 1 event. *)
Lemma stale_step_counterexample :
  let om := Examples.manager 2 [Examples.resting_buy; Examples.resting_sell] in
  let r := ControlLoop.stale_step 1100 1100 om (Examples.world_of []) Examples.breaker0 in
  OrderManager.stale_orders om 1100 = [Examples.resting_buy; Examples.resting_sell]
  /\ r.1.1.1 = 2%Z
  /\ length (CircuitBreaker.cancel_events (CircuitBreaker.state Examples.breaker0)) = 0%nat
  /\ length (CircuitBreaker.cancel_events (CircuitBreaker.state r.2)) = 1%nat.
Proof. cbv zeta. repeat split. Qed.

Lemma stale_step_amended_witness :
  let om := Examples.manager 2 [Examples.resting_buy; Examples.resting_sell] in
  let r := ControlLoop.stale_step 1100 1100 om (Examples.world_of []) Examples.breaker0 in
  let c := OrderManager.cancel_all (OrderManager.exchange (Examples.world_of []))
             (map OrderManager.venue_order_id (OrderManager.stale_orders om 1100)) in
  r.1.1.1 = OrderManager.count_true c.1
  /\ OrderManager.live r.1.1.2 = OrderManager.fresh_table om 1100
  /\ OrderManager.exchange r.1.2 = c.2
  /\ r.2 = (if (OrderManager.count_true c.1 =? 0)%Z then Examples.breaker0
            else CircuitBreaker.record_cancel Examples.breaker0 1100).
Proof.
  apply (stale_step_amended 1100 1100
           (Examples.manager 2 [Examples.resting_buy; Examples.resting_sell])
           (Examples.world_of []) Examples.breaker0).
  repeat constructor. intros [].
Defined.

(** ** Order manager: the missing SKIP *)

Section SkipProofs.
Import OrderManager.
Context {E : Type} `{Exchange.ExchangeBase E}.

(** The result of [place_or_replace] is the guard's rejection or the venue's
    own answer: the manager never builds a result with [action = "SKIP"]. *)
Lemma place_result_origin {R} (self : OrderManager R) (w : World E)
  now cond tok side price size bb ba res om' w' :
  place_or_replace now cond tok side price size bb ba self w = Ret (res, om', w') ->
  res = blocked_result bb ba
  \/ exists ex tok' side' p' size' po meta,
       res = (Exchange.place_limit ex tok' side' p' size' po meta).1.
Proof.
  intros Hcall. rewrite place_or_replace_guard in Hcall.
  destruct (_guard_post_only self side price bb ba) as [p | ].
  - destruct (place_guarded_spec _ _ _ _ _ _ _ _ _ _ _ _ _ Hcall) as (w1 & _ & _ & Hres & _).
    right. do 7 eexists. exact Hres.
  - left. injection Hcall as <- _ _. reflexivity.
Qed.

Lemma blocked_result_not_skip bb ba : ControlLoop.is_skip (blocked_result bb ba) = false.
Proof. reflexivity. Qed.

Lemma replace_order_keep {R} (self : OrderManager R) now cond side price
  (st : World E * list LiveOrderState) (o : LiveOrderState) :
  String.eqb (OrderManager.side o) side && _price_changed self (OrderManager.price o) price = false ->
  replace_order self now cond side price st o = st.
Proof. intros Hc. destruct st as [w existing]. unfold replace_order. rewrite Hc. reflexivity. Qed.

Lemma enforce_cap_pop {R} (self : OrderManager R) now cond o rest (w : World E) :
  (max_orders_per_token self <= Z.of_nat (length (o :: rest)))%Z ->
  let ok := (Exchange.cancel (exchange w) (venue_order_id o)).1 in
  let ex := (Exchange.cancel (exchange w) (venue_order_id o)).2 in
  enforce_cap self now cond (o :: rest) w
  = enforce_cap self now cond rest
      (do_upsert {| conn := conn w; exchange := ex |}
         (cancel_row self o (Some cond) (OrderManager.side o) now ok
            [("reason", JStr "cap"); ("ok", JBool ok)])).
Proof.
  intros Hle. cbv zeta. cbn [enforce_cap].
  destruct (Z.leb_spec (max_orders_per_token self) (Z.of_nat (length (o :: rest)))) as [_ | Hgt];
    [ | lia ].
  unfold do_cancel. destruct (Exchange.cancel (exchange w) (venue_order_id o)) as [ok ex].
  reflexivity.
Qed.

Lemma enforce_cap_stop {R} (self : OrderManager R) now cond existing (w : World E) :
  (Z.of_nat (length existing) < max_orders_per_token self)%Z ->
  enforce_cap self now cond existing w = Ret (w, existing).
Proof.
  intros Hlt. destruct existing as [ | o rest ]; cbn [enforce_cap];
    match goal with |- context [Z.leb ?a ?b] => destruct (Z.leb_spec a b) as [Hle | _] end;
    try reflexivity; lia.
Qed.

(** C1 fails on the code. With the default capacity of two orders per token
    and a resting BUY and SELL, a BUY identical to the resting one (same
    price, same size) is not skipped, whatever the venue: the capacity loop
    cancels the resting BUY at the venue, the venue is asked to place again
    and its answer is returned; live[token] then starts with the SELL and is
    no longer the list it was. *)
Theorem place_identical_order_not_skipped (w : World E) (now : Z) :
  let om := Examples.manager 2 [Examples.resting_buy; Examples.resting_sell] in
  let ex1 := (Exchange.cancel (exchange w) "v1").2 in
  let venue := Exchange.place_limit ex1 "tok" "BUY" 0.50 10 true [("condition_id", JStr "cond01")] in
  od_get "tok" (live om) = Some [Examples.resting_buy; Examples.resting_sell]
  /\ exists res om' w',
       place_or_replace now "cond01" "tok" "BUY" 0.50 10 (Some 0.49) (Some 0.52) om w
       = Ret (res, om', w')
       /\ res = venue.1
       /\ exchange w' = venue.2
       /\ (exists rest, od_get "tok" (live om') = Some (Examples.resting_sell :: rest))
       /\ od_get "tok" (live om') <> od_get "tok" (live om).
Proof.
  cbv zeta. split; [ reflexivity | ].
  set (om := Examples.manager 2 [Examples.resting_buy; Examples.resting_sell]).
  rewrite place_or_replace_guard.
  assert (Hg : _guard_post_only om "BUY" 0.50 (Some 0.49) (Some 0.52) = Some 0.50) by reflexivity.
  rewrite Hg. unfold place_guarded, cancel_phase.
  assert (Hex : od_get "tok" (live om) = Some [Examples.resting_buy; Examples.resting_sell])
    by reflexivity.
  rewrite Hex. change (upper "BUY") with "BUY". cbn [default id fold_left].
  rewrite !replace_order_keep by reflexivity.
  rewrite enforce_cap_pop by (cbn; lia). cbv zeta.
  rewrite enforce_cap_stop by (cbn; lia).
  change (venue_order_id Examples.resting_buy) with "v1".
  set (ex1 := (Exchange.cancel (exchange w) "v1").2).
  set (w1 := do_upsert _ _).
  unfold mbind, pyres_bind. cbv beta iota.
  pose proof (place_phase_spec om now "cond01" "tok" "BUY" 0.50 10 (Some 0.49) (Some 0.52)
                [Examples.resting_sell] w1) as Hp.
  cbv zeta in Hp. change (exchange w1) with ex1 in Hp. change (post_only om) with true in Hp.
  destruct Hp as (Hres & Hlive & Hconn).
  destruct (place_phase om now "cond01" "tok" "BUY" 0.50 10 (Some 0.49) (Some 0.52)
              [Examples.resting_sell] w1) as [[res om'] w'] eqn:Ep.
  cbn [fst snd] in Hres, Hlive, Hconn.
  exists res, om', w'. split; [ reflexivity | ]. split; [ exact Hres | ].
  split.
  { unfold place_phase in Ep. change (exchange w1) with ex1 in Ep.
    change (post_only om) with true in Ep.
    destruct (Exchange.place_limit ex1 _ _ _ _ _ _) as [res0 ex2]. injection Ep as _ _ <-.
    reflexivity. }
  split; [ eexists; rewrite Hlive; reflexivity | ].
  rewrite Hlive. intros Heq. discriminate Heq.
Qed.

End SkipProofs.

(** The same call on a venue that accepts: the answer is not a SKIP, the
    control loop counts it as a placement, and the token ends with the SELL
    and a new BUY. *)
Example place_identical_order_counted :
  let om := Examples.manager 2 [Examples.resting_buy; Examples.resting_sell] in
  let q := {| MMSpread.side := "BUY"; MMSpread.price := 0.50; MMSpread.size := 10 |} in
  exists res om' w' cb',
    ControlLoop.place_step 1001 "cond01" "tok" q (Some 0.49) (Some 0.52) om
      (Examples.world_of [Examples.accepted "v3"]) Examples.breaker0
    = Ret (res, om', w', cb')
    /\ ControlLoop.is_skip res = false
    /\ CircuitBreaker.placed (CircuitBreaker.state cb') = 1%Z
    /\ map OrderManager.venue_order_id
           (default [] (OrderManager.od_get "tok" (OrderManager.live om'))) = ["v2"; "v3"].
Proof.
  cbv zeta. do 4 eexists. split; [ vm_compute; reflexivity | ]. repeat split.
Qed.

(** ** Fill simulator: reproducibility *)

Section SimProofs.
Import OrderManager.
Context {E : Type} `{Exchange.ExchangeBase E} {R : Type} `{PyRandom R} `{PyMath}
        {U : Type} `{PyUuid U}.

Lemma res_rel_bind {A B A' B'} (P : A -> B -> Prop) (Q' : A' -> B' -> Prop)
  (m1 : pyres A) (m2 : pyres B) (k1 : A -> pyres A') (k2 : B -> pyres B') :
  res_rel P m1 m2 ->
  (forall a b, P a b -> res_rel Q' (k1 a) (k2 b)) ->
  res_rel Q' (m1 ≫= k1) (m2 ≫= k2).
Proof.
  intros Hm Hk. destruct m1 as [a | e1], m2 as [b | e2]; cbn in *; try contradiction.
  - apply Hk. exact Hm.
  - exact Hm.
Qed.

Lemma trades_of_insert (c : Repo.Conn) (t : Repo.TradeRow) :
  Repo.trades_of (Repo.insert_trade c t) = (Repo.trades_of c ++ [t])%list.
Proof. unfold Repo.trades_of, Repo.insert_trade. rewrite flat_map_app. reflexivity. Qed.

Lemma trades_of_upsert (c : Repo.Conn) (r : Repo.OrderRow) :
  Repo.trades_of (Repo.upsert_order c r) = Repo.trades_of c.
Proof.
  unfold Repo.trades_of, Repo.upsert_order. rewrite flat_map_app. cbn. apply app_nil_r.
Qed.

Lemma same_fills_outcomes c1 c2 (w1 w2 : World E) :
  same_fills c1 c2 w1 w2 -> outcomes_since c1 (conn w1) = outcomes_since c2 (conn w2).
Proof.
  intros (_ & e1 & e2 & Ht1 & Ht2 & He). unfold outcomes_since.
  rewrite Ht1, Ht2, !skipn_app, !skipn_all, !Nat.sub_diag. cbn. exact He.
Qed.

(** Recording a fill keeps two states related, whatever the uuid sources
    and the timestamps are. *)
Lemma record_fill_rel (self : OrderManager R) inp now1 now2 c1 c2 (s1 s2 : @SimState E R U)
  rng o f :
  sim_rel c1 c2 s1 s2 ->
  sim_rel c1 c2 (record_fill self inp now1 s1 rng o f) (record_fill self inp now2 s2 rng o f).
Proof.
  intros (Hr & Ho & Hk & Hex & e1 & e2 & Ht1 & Ht2 & He).
  unfold record_fill.
  destruct (uuid4 (st_uuid s1)) as [id1 u1'], (uuid4 (st_uuid s2)) as [id2 u2'].
  unfold sim_rel, same_fills. cbn [st_rng st_out st_keep st_world conn exchange].
  rewrite Ho, Hk. split; [ reflexivity | ]. split; [ reflexivity | ].
  split; [ reflexivity | ]. split; [ exact Hex | ].
  eexists (e1 ++ [_])%list, (e2 ++ [_])%list.
  rewrite !trades_of_upsert, !trades_of_insert, Ht1, Ht2, <- !app_assoc.
  split; [ reflexivity | ]. split; [ reflexivity | ].
  rewrite !map_app, He. reflexivity.
Qed.

Lemma sim_order_rel (self : OrderManager R) inp now1 now2 tick intensity base_p
  c1 c2 (s1 s2 : @SimState E R U) o :
  sim_rel c1 c2 s1 s2 ->
  res_rel (sim_rel c1 c2)
    (sim_order self inp now1 tick intensity base_p s1 o)
    (sim_order self inp now2 tick intensity base_p s2 o).
Proof.
  intros Hrel. unfold sim_order.
  assert (Hr : st_rng s1 = st_rng s2) by apply Hrel. rewrite Hr.
  destruct (decide_fill inp tick intensity base_p (st_rng s2) o) as [[rng d] | e];
    [ | reflexivity ].
  cbn. destruct d as [ | | f ]; cbn.
  - exact Hrel.
  - destruct Hrel as (_ & Ho & Hk & Hw). unfold sim_rel.
    cbn [st_rng st_out st_keep st_world]. rewrite Hk.
    split; [ reflexivity | ]. split; [ exact Ho | ]. split; [ reflexivity | exact Hw ].
  - apply record_fill_rel. exact Hrel.
Qed.

Lemma sim_loop_rel (self : OrderManager R) inp now1 now2 tick intensity base_p
  c1 c2 lst (s1 s2 : @SimState E R U) :
  sim_rel c1 c2 s1 s2 ->
  res_rel (sim_rel c1 c2)
    (sim_loop self inp now1 tick intensity base_p lst s1)
    (sim_loop self inp now2 tick intensity base_p lst s2).
Proof.
  revert s1 s2. induction lst as [ | o lst IH ]; intros s1 s2 Hrel; cbn [sim_loop].
  - exact Hrel.
  - eapply res_rel_bind; [ apply sim_order_rel; exact Hrel | ].
    intros a b Hab. apply IH. exact Hab.
Qed.

Lemma simulate_fills_rel inp ts1 clock1 ts2 clock2 (self : OrderManager R)
  c1 c2 (w1 w2 : World E) (u1 u2 : U) :
  same_fills c1 c2 w1 w2 ->
  res_rel (call_rel c1 c2)
    (simulate_fills inp ts1 clock1 self w1 u1)
    (simulate_fills inp ts2 clock2 self w2 u2).
Proof.
  intros Hw. unfold simulate_fills.
  assert (Hex : exchange w1 = exchange w2) by apply Hw. rewrite Hex.
  assert (Hsame : call_rel c1 c2 (SimFillStats0, self, w1, u1) (SimFillStats0, self, w2, u2)).
  { unfold call_rel. cbn [fst snd]. split; [ reflexivity | ]. split; [ reflexivity | exact Hw ]. }
  destruct (negb (Exchange.is_paper (exchange w2))); [ exact Hsame | ].
  destruct (negb (String.eqb (lower (PMM_PAPER_SIM_ENABLE (s_env inp))) "true"));
    [ exact Hsame | ].
  destruct (default [] (od_get (s_token_id inp) (live self))) as [ | o lst ];
    [ exact Hsame | ].
  eapply res_rel_bind.
  - apply sim_loop_rel. unfold sim_rel. cbn [st_rng st_out st_keep st_world].
    split; [ reflexivity | ]. split; [ reflexivity | ]. split; [ reflexivity | exact Hw ].
  - intros a b (Hr & Ho & Hk & Hwab). cbn. unfold call_rel. cbn [fst snd].
    rewrite Hr, Ho, Hk. split; [ reflexivity | ]. split; [ reflexivity | exact Hwab ].
Qed.

Lemma run_sim_rel (steps : list (SimInput * (option Z * Z) * (option Z * Z)))
  (self : OrderManager R) c1 c2 (w1 w2 : World E) (u1 u2 : U) :
  same_fills c1 c2 w1 w2 ->
  res_rel (run_rel c1 c2)
    (run_sim (first_run steps) self w1 u1)
    (run_sim (second_run steps) self w2 u2).
Proof.
  revert self w1 w2 u1 u2.
  induction steps as [ | [[inp [ts1 k1]] [ts2 k2]] steps IH ]; intros self w1 w2 u1 u2 Hw.
  - cbn. unfold run_rel. cbn [fst snd]. split; [ reflexivity | ]. split; [ reflexivity | exact Hw ].
  - cbn [first_run second_run map run_sim fst snd].
    eapply res_rel_bind; [ apply simulate_fills_rel; exact Hw | ].
    intros [[[st1 om1] w1'] u1'] [[[st2 om2] w2'] u2'] (Hs & Ho & Hw').
    cbn [fst snd] in Hs, Ho, Hw'. subst st2 om2.
    eapply res_rel_bind; [ apply (IH om1 w1' w2' u1' u2'); exact Hw' | ].
    intros [[[m1 o1] x1] y1] [[[m2 o2] x2] y2] (Hm & Ho & Hx).
    cbn [fst snd] in Hm, Ho, Hx. subst m2 o2.
    cbn. unfold run_rel. cbn [fst snd]. split; [ reflexivity | ]. split; [ reflexivity | exact Hx ].
Qed.

(** C9: two paper runs of a manager built for the same run identifier, from
    the same live orders and over identical per-step inputs, produce the same
    sequence of (live order, fill_size, status, price) outcomes, the same
    statistics and the same manager state, whatever their stores, uuid
    sources, timestamps and clocks are; the only generator the outcomes
    depend on is [self._rng], seeded with the lower 32 bits of the hash of
    the run identifier. *)
Theorem paper_run_deterministic
  (run_id : string) (max_orders : Z) (cancel_reprice : Q) (post_only : bool)
  (tick : option Q) (live0 : LiveTable) (ex : E)
  (steps : list (SimInput * (option Z * Z) * (option Z * Z)))
  (c1 c2 : Repo.Conn) (u1 u2 : U) :
  let om : OrderManager R :=
    with_live (OrderManager_init run_id max_orders cancel_reprice post_only tick) live0 in
  let run1 := run_sim (first_run steps) om {| conn := c1; exchange := ex |} u1 in
  let run2 := run_sim (second_run steps) om {| conn := c2; exchange := ex |} u2 in
  _rng om = Random (Z.land (run_id_hash run_id) 0xFFFFFFFF)
  /\ Z.land (run_id_hash run_id) 0xFFFFFFFF = (run_id_hash run_id mod 2 ^ 32)%Z
  /\ res_rel (fun r1 r2 =>
                r1.1.1.1 = r2.1.1.1
                /\ r1.1.1.2 = r2.1.1.2
                /\ outcomes_since c1 (conn r1.1.2) = outcomes_since c2 (conn r2.1.2))
             run1 run2.
Proof.
  cbv zeta. split; [ | split ].
  - cbn [with_live OrderManager_init _rng]. unfold _seed_from_run_id, run_id_hash.
    destruct (UUID_int run_id); reflexivity.
  - change 0xFFFFFFFF%Z with (Z.ones 32). apply Z.land_ones. lia.
  - set (om := with_live _ live0).
    assert (Hw : same_fills c1 c2 {| conn := c1; exchange := ex |} {| conn := c2; exchange := ex |}).
    { split; [ reflexivity | ]. exists [], []. cbn [conn]. rewrite !app_nil_r. repeat split. }
    pose proof (run_sim_rel steps om c1 c2 _ _ u1 u2 Hw) as Hrun.
    destruct (run_sim (first_run steps) om _ u1) as [r1 | e1],
             (run_sim (second_run steps) om _ u2) as [r2 | e2]; cbn in *; try exact Hrun.
    destruct Hrun as (Hs & Ho & Hf). split; [ exact Hs | ]. split; [ exact Ho | ].
    apply same_fills_outcomes. exact Hf.
Qed.

End SimProofs.

(** Two evaluated runs with the stand-in generator: different timestamps,
    clocks and uuid counters, the same outcomes. *)
Example paper_run_example :
  let om : OrderManager.OrderManager Z :=
    OrderManager.with_live
      (OrderManager.OrderManager_init (U := nat)
         "0f8fad5b-d9cb-469f-a165-70867728950e" 2 15 true (Some 0.01))
      [("tok", [Examples.resting_buy; Examples.resting_sell])] in
  let steps :=
    [(Examples.sim_input, (Some 1000%Z, 1000%Z), (Some 2000%Z, 1%Z));
     (Examples.sim_input, (None, 1003%Z), (None, 77%Z))] in
  exists r1 r2,
    OrderManager.run_sim (U := nat) (OrderManager.first_run steps) om (Examples.world_of []) 0%nat
    = Ret r1
    /\ OrderManager.run_sim (U := nat) (OrderManager.second_run steps) om (Examples.world_of []) 42%nat
       = Ret r2
    /\ OrderManager.outcomes_since [] (OrderManager.conn r1.1.2)
       = OrderManager.outcomes_since [] (OrderManager.conn r2.1.2)
    /\ map (fun o => (o.1.1.1, o.1.2)) (OrderManager.outcomes_since [] (OrderManager.conn r1.1.2))
       = [("v2", "PARTIAL"); ("v1", "FILLED")]
    /\ map Repo.t_trade_id (Repo.trades_of (OrderManager.conn r1.1.2)) = ["paper-0"; "paper-1"]
    /\ map Repo.t_trade_id (Repo.trades_of (OrderManager.conn r2.1.2)) = ["paper-42"; "paper-43"].
Proof.
  cbv zeta. do 2 eexists. split; [ vm_compute; reflexivity | ].
  split; [ vm_compute; reflexivity | ]. repeat split; vm_compute; reflexivity.
Qed.

(* ===================================================================== *)
(** * Part III. Further properties of the code                            *)
(* ===================================================================== *)

(** ** pmm/utils/math.py *)

Section MathProofs.

Lemma py_max_compat (a a' b b' : Q) : a == a' -> b == b' -> py_max a b == py_max a' b'.
Proof. intros Ha Hb. rewrite !py_max_Qmax, Ha, Hb. reflexivity. Qed.

Lemma py_min_compat (a a' b b' : Q) : a == a' -> b == b' -> py_min a b == py_min a' b'.
Proof. intros Ha Hb. rewrite !py_min_Qmin, Ha, Hb. reflexivity. Qed.

Lemma py_max_ge_l (a b : Q) : a <= py_max a b.
Proof. unfold py_max. destruct (Qlt_le_dec a b); lra. Qed.

Lemma py_max_ge_r (a b : Q) : b <= py_max a b.
Proof. unfold py_max. destruct (Qlt_le_dec a b); lra. Qed.

Lemma py_min_le_r (a b : Q) : py_min a b <= b.
Proof. unfold py_min. destruct (Qlt_le_dec b a); lra. Qed.

Lemma py_min_le_first (a b : Q) : py_min a b <= a.
Proof. unfold py_min. destruct (Qlt_le_dec b a); lra. Qed.

(** X1: [clamp(x, lo, hi)] with lo <= hi lies in [lo, hi], is x itself
    inside the interval, lo below it and hi above it; with the bounds
    inverted (hi < lo) it is lo, whatever x is. *)
Theorem clamp_range (x lo hi : Q) :
  (lo <= hi ->
   lo <= clamp x lo hi <= hi
   /\ (lo <= x <= hi -> clamp x lo hi == x)
   /\ (x <= lo -> clamp x lo hi == lo)
   /\ (hi <= x -> clamp x lo hi == hi))
  /\ (hi < lo -> clamp x lo hi = lo).
Proof.
  unfold clamp, py_max, py_min. split.
  - intros Hle.
    destruct (Qlt_le_dec x hi) as [H1 | H1]; cbv beta iota;
      match goal with |- context [Qlt_le_dec lo ?m] => destruct (Qlt_le_dec lo m) as [H2 | H2] end;
      cbv beta iota; repeat split; intros; lra.
  - intros Hinv.
    destruct (Qlt_le_dec x hi) as [H1 | H1]; cbv beta iota;
      match goal with |- context [Qlt_le_dec lo ?m] => destruct (Qlt_le_dec lo m) as [H2 | H2] end;
      cbv beta iota; try reflexivity; lra.
Qed.

(** *** quantize_price *)

Lemma to_integral_down_nonneg (q : Q) :
  0 <= q -> 0 <= inject_Z (to_integral_down q) <= q /\ q < inject_Z (to_integral_down q) + 1.
Proof.
  intros Hq. unfold to_integral_down.
  assert (Hb : Qleb 0 q = true) by (apply Qleb_true; exact Hq). rewrite Hb.
  pose proof (Qfloor_le q) as Hl. pose proof (Qlt_floor q) as Hu.
  rewrite inject_Z_plus in Hu.
  assert (H0 : (0 <= Qfloor q)%Z).
  { change 0%Z with (Qfloor 0). apply Qfloor_resp_le. exact Hq. }
  rewrite Zle_Qle in H0. change (inject_Z 0) with 0 in H0. change (inject_Z 1) with 1 in Hu. lra.
Qed.

Lemma to_integral_down_neg (q : Q) :
  q < 0 -> q <= inject_Z (to_integral_down q) <= 0 /\ inject_Z (to_integral_down q) - 1 < q.
Proof.
  intros Hq. unfold to_integral_down.
  assert (Hb : Qleb 0 q = false) by (apply Qleb_false; exact Hq). rewrite Hb.
  pose proof (Qle_ceiling q) as Hl. pose proof (Qceiling_lt q) as Hu.
  unfold Z.sub in Hu. rewrite inject_Z_plus in Hu.
  assert (H0 : (Qceiling q <= 0)%Z).
  { change 0%Z with (Qceiling 0). apply Qceiling_resp_le. lra. }
  rewrite Zle_Qle in H0. change (inject_Z 0) with 0 in H0. change (inject_Z (- (1))) with (-1) in Hu. lra.
Qed.

Lemma Qleb_compat_r (a b b' : Q) : b == b' -> Qleb a b = Qleb a b'.
Proof.
  intros E. destruct (Qleb a b') eqn:H.
  - apply Qleb_true in H. apply Qleb_true. lra.
  - apply Qleb_false in H. apply Qleb_false. lra.
Qed.

Lemma Qltb_compat (a a' b b' : Q) : a == a' -> b == b' -> Qltb a b = Qltb a' b'.
Proof.
  intros Ea Eb. destruct (Qltb a' b') eqn:H.
  - apply Qltb_true in H. apply Qltb_true. lra.
  - apply Qltb_false in H. apply Qltb_false. lra.
Qed.

Lemma Qleb_compat (a a' b b' : Q) : a == a' -> b == b' -> Qleb a b = Qleb a' b'.
Proof.
  intros Ea Eb. destruct (Qleb a' b') eqn:H.
  - apply Qleb_true in H. apply Qleb_true. lra.
  - apply Qleb_false in H. apply Qleb_false. lra.
Qed.

Lemma to_integral_down_compat (q q' : Q) : q == q' -> to_integral_down q = to_integral_down q'.
Proof.
  intros E. unfold to_integral_down. rewrite (Qleb_compat_r 0 q q' E).
  destruct (Qleb 0 q'); [ apply Qfloor_comp | apply Qceiling_comp ]; exact E.
Qed.

Lemma to_integral_down_Z (z : Z) : to_integral_down (inject_Z z) = z.
Proof.
  unfold to_integral_down. destruct (Qleb 0 (inject_Z z)); [ apply Qfloor_Z | apply Qceiling_Z ].
Qed.

(** X2: with a tick that is not positive [quantize_price] returns the price
    unchanged; with a positive tick the result is an integer multiple of the
    tick, lies between 0 and the price (rounding towards zero), is less than
    one tick away from it, and quantizing again changes nothing. *)
Theorem quantize_price_grid (p tick : Q) :
  (tick <= 0 -> quantize_price p tick = p)
  /\ (0 < tick ->
      (exists k : Z, quantize_price p tick = inject_Z k * tick)
      /\ (0 <= p -> 0 <= quantize_price p tick <= p /\ p < quantize_price p tick + tick)
      /\ (p <= 0 -> p <= quantize_price p tick <= 0 /\ quantize_price p tick - tick < p)
      /\ quantize_price (quantize_price p tick) tick == quantize_price p tick).
Proof.
  unfold quantize_price. split.
  - intros Ht. apply Qleb_true in Ht. rewrite Ht. reflexivity.
  - intros Ht. assert (Hb : Qleb tick 0 = false) by (apply Qleb_false; exact Ht). rewrite Hb.
    assert (Ht0 : ~ tick == 0) by lra.
    assert (Ep : p / tick * tick == p) by (field; exact Ht0).
    split; [ eexists; reflexivity | ]. split; [ | split ].
    + intros Hp.
      assert (Hq : 0 <= p / tick) by (apply Qle_shift_div_l; lra).
      destruct (to_integral_down_nonneg _ Hq) as [[H0 H1] H2].
      set (k := inject_Z (to_integral_down (p / tick))) in *.
      assert (0 <= k * tick) by (apply Qmult_le_0_compat; lra).
      assert (k * tick <= p / tick * tick) by (apply Qmult_le_compat_r; lra).
      assert (p / tick * tick < (k + 1) * tick) by (apply Qmult_lt_compat_r; lra).
      lra.
    + intros Hp.
      destruct (Qeq_dec p 0) as [Ez | Hnz].
      * assert (Eq0 : p / tick == 0) by (rewrite Ez; field; exact Ht0).
        rewrite (to_integral_down_compat _ _ Eq0). change 0 with (inject_Z 0).
        rewrite to_integral_down_Z. change (inject_Z 0) with 0. lra.
      * assert (Hq : p / tick < 0).
        { apply Qlt_shift_div_r; [ exact Ht | ]. lra. }
        destruct (to_integral_down_neg _ Hq) as [[H0 H1] H2].
        set (k := inject_Z (to_integral_down (p / tick))) in *.
        assert (p / tick * tick <= k * tick) by (apply Qmult_le_compat_r; lra).
        assert (k * tick <= 0 * tick) by (apply Qmult_le_compat_r; lra).
        assert ((k - 1) * tick < p / tick * tick) by (apply Qmult_lt_compat_r; lra).
        lra.
    + assert (Ek : inject_Z (to_integral_down (p / tick)) * tick / tick
                   == inject_Z (to_integral_down (p / tick))) by (field; exact Ht0).
      rewrite (to_integral_down_compat _ _ Ek), to_integral_down_Z. reflexivity.
Qed.

End MathProofs.

(** ** pmm/strategy/mm_spread.py, pmm/strategy/risk.py and the quotes of the loop *)

Section QuoteRangeProofs.
Import MMSpread.

Lemma clamp_bounds (x lo hi : Q) : lo <= hi -> lo <= clamp x lo hi <= hi.
Proof.
  intros Hle. unfold clamp. pose proof (py_max_ge_l lo (py_min hi x)).
  pose proof (py_min_le_first hi x). unfold py_max in *.
  destruct (Qlt_le_dec lo (py_min hi x)); lra.
Qed.

Lemma clamp_mono (x y lo hi : Q) : x <= y -> clamp x lo hi <= clamp y lo hi.
Proof.
  intros Hxy. rewrite !clamp_Qmax_Qmin.
  apply Q.max_le_compat_l. apply Q.min_le_compat_l. exact Hxy.
Qed.

Lemma quote_size_ge_one (u p : Q) : 1 <= py_max 1 (u / py_max 0.01 p).
Proof. apply py_max_ge_l. Qed.

(** The notional of a quote of the quoter is at most the larger of its
    price and the per-side budget. *)
Lemma quote_notional_bound (u p : Q) :
  0 < p -> p <= 1 -> p * py_max 1 (u / py_max 0.01 p) <= py_max 1 u.
Proof.
  intros Hp Hp1. set (d := py_max 0.01 p).
  assert (Hd : p <= d) by apply py_max_ge_r.
  assert (Hd0 : 0 < d) by lra.
  pose proof (py_max_ge_l 1 u) as H1. pose proof (py_max_ge_r 1 u) as Hu.
  unfold py_max at 1. destruct (Qlt_le_dec 1 (u / d)) as [Hbig | Hsmall].
  - assert (Eu : u == d * (u / d)) by (field; lra).
    assert (p * (u / d) <= d * (u / d)) by (apply Qmult_le_compat_r; lra).
    lra.
  - lra.
Qed.

Lemma size_scale_range (risk : Risk.RiskManager) :
  0 < Risk.size_scale risk <= 1.
Proof.
  unfold Risk.size_scale. set (d := py_max 1 _).
  assert (Hd : 1 <= d) by apply py_max_ge_l.
  split.
  - apply Qlt_shift_div_l; lra.
  - apply Qle_shift_div_r; lra.
Qed.

(** X3: for every midpoint and every configuration the quoter returns a BUY
    then a SELL, both priced inside [0.001, 0.999] and of size at least 1;
    the bid is at most the ask when midpoint * target_spread_bps >= 0, and
    the quotes are crossed or locked (ask <= bid) when it is negative. *)
Theorem quotes_range (self : SymmetricSpreadMM) (m : Q) :
  exists b a : Quote,
    quotes self m = [b; a]
    /\ side b = "BUY" /\ side a = "SELL"
    /\ 0.001 <= price b <= 0.999 /\ 0.001 <= price a <= 0.999
    /\ 1 <= size b /\ 1 <= size a
    /\ (0 <= m * target_spread_bps self -> price b <= price a)
    /\ (m * target_spread_bps self <= 0 -> price a <= price b).
Proof.
  unfold quotes. do 2 eexists. split; [ reflexivity | ]. cbn [side price size].
  split; [ reflexivity | ]. split; [ reflexivity | ].
  split; [ apply clamp_bounds; lra | ]. split; [ apply clamp_bounds; lra | ].
  split; [ apply quote_size_ge_one | ]. split; [ apply quote_size_ge_one | ].
  assert (E : m * (target_spread_bps self / 10000) / 2
              == (m * target_spread_bps self) * (1 # 20000)) by field.
  split; intros Hs; apply clamp_mono; rewrite E; lra.
Qed.

(** X4: in the control loop the notional test never skips a quote: with the
    quoter built from half of the market budget and the risk manager's scale
    (which lies in (0, 1]), every quote has price * size at most
    max(1, (max_usd / 2) * 1.10), so the quotes that reach [place_or_replace]
    are exactly the first max_orders_per_market quotes, both of them once
    max_orders_per_market >= 2. *)
Theorem notional_test_never_skips (max_orders_per_market : Z)
  (target_spread_bps max_usd : Q) (risk : Risk.RiskManager) (mid : Q) :
  let qs := quotes (ControlLoop.loop_quoter target_spread_bps max_usd risk) mid in
  0 < Risk.size_scale risk <= 1
  /\ Forall (fun q => ControlLoop.notional_too_large max_usd q = false) qs
  /\ ControlLoop.quotes_to_place max_orders_per_market target_spread_bps max_usd risk mid
     = ControlLoop.py_take max_orders_per_market qs
  /\ ((2 <= max_orders_per_market)%Z ->
      ControlLoop.quotes_to_place max_orders_per_market target_spread_bps max_usd risk mid = qs).
Proof.
  cbv zeta. pose proof (size_scale_range risk) as Hscale.
  split; [ exact Hscale | ].
  assert (Hall : Forall (fun q => ControlLoop.notional_too_large max_usd q = false)
                   (quotes (ControlLoop.loop_quoter target_spread_bps max_usd risk) mid)).
  { unfold quotes, ControlLoop.loop_quoter. cbn [MMSpread.target_spread_bps MMSpread.max_usd MMSpread.alpha_scale].
    set (u := max_usd / 2 / 2 * Risk.size_scale risk).
    assert (Hu : py_max 1 u <= py_max 1 (max_usd / 2 * 1.10)).
    { pose proof (py_max_ge_l 1 (max_usd / 2 * 1.10)) as G1.
      pose proof (py_max_ge_r 1 (max_usd / 2 * 1.10)) as G2.
      assert (E2 : max_usd / 2 * 1.10 == max_usd * (11 # 20)) by field.
      assert (E4 : max_usd / 2 / 2 == max_usd * (1 # 4)) by field.
      set (cap := py_max 1 (max_usd / 2 * 1.10)) in *.
      unfold py_max. destruct (Qlt_le_dec 1 u) as [Hbig | _]; [ | lra ].
      unfold u in *. rewrite E4 in Hbig |- *.
      set (sc := Risk.size_scale risk) in *.
      destruct (Qlt_le_dec max_usd 0) as [Hneg | Hpos].
      - assert (max_usd * (1 # 4) * sc <= 0 * sc) by (apply Qmult_le_compat_r; lra).
        lra.
      - assert (sc * (max_usd * (1 # 4)) <= 1 * (max_usd * (1 # 4)))
          by (apply Qmult_le_compat_r; lra).
        lra. }
    repeat constructor; unfold ControlLoop.notional_too_large; cbn [price size];
      apply Qltb_false;
      (eapply Qle_trans; [ apply quote_notional_bound | exact Hu ]);
      match goal with |- context [clamp ?x 0.001 0.999] =>
        pose proof (clamp_bounds x 0.001 0.999 ltac:(lra)) end; lra. }
  split; [ exact Hall | ].
  assert (Hkeep : forall l, Forall (fun q => ControlLoop.notional_too_large max_usd q = false) l ->
            List.filter (fun q => negb (ControlLoop.notional_too_large max_usd q)) l = l).
  { intros l Hl. apply filter_all_true. eapply List.Forall_impl; [ | exact Hl ].
    cbn beta. intros q Hq. rewrite Hq. reflexivity. }
  split.
  - unfold ControlLoop.quotes_to_place. apply Hkeep.
    unfold ControlLoop.py_take. destruct (0 <=? max_orders_per_market)%Z; apply Forall_take; exact Hall.
  - intros Hn. unfold ControlLoop.quotes_to_place.
    assert (Et : ControlLoop.py_take max_orders_per_market
                   (quotes (ControlLoop.loop_quoter target_spread_bps max_usd risk) mid)
                 = quotes (ControlLoop.loop_quoter target_spread_bps max_usd risk) mid).
    { unfold ControlLoop.py_take. destruct (Z.leb_spec 0 max_orders_per_market) as [_ | Hlt]; [ | lia ].
      apply firstn_all2. unfold quotes. cbn [length]. lia. }
    rewrite Et. apply Hkeep. exact Hall.
Qed.

End QuoteRangeProofs.

(** ** pmm/strategy/calibrator.py *)

Section CalibratorStepProofs.
Import Calibrator.

Lemma py_min_ge (a b c : Q) : c <= a -> c <= b -> c <= py_min a b.
Proof. intros Ha Hb. unfold py_min. destruct (Qlt_le_dec b a); lra. Qed.

Lemma py_max_le (a b c : Q) : a <= c -> b <= c -> py_max a b <= c.
Proof. intros Ha Hb. unfold py_max. destruct (Qlt_le_dec a b); lra. Qed.

(** The sign of the average markout is the sign of the markout sum. *)
Lemma avg_markout_neg (st : MarketCalibState) :
  Qltb (markout_sum st / inject_Z (Z.max 1 (fills st))) 0 = Qltb (markout_sum st) 0.
Proof.
  assert (Hd : 0 < inject_Z (Z.max 1 (fills st))).
  { change 0 with (inject_Z 0). rewrite <- Zlt_Qlt. lia. }
  destruct (Qltb (markout_sum st) 0) eqn:Hm.
  - apply Qltb_true in Hm. apply Qltb_true. apply Qlt_shift_div_r; [ exact Hd | lra ].
  - apply Qltb_false in Hm. apply Qltb_false. apply Qle_shift_div_l; [ exact Hd | lra ].
Qed.

(** X5: [next_params] raises ZeroDivisionError exactly when the state has
    quotes > 0 and the prior target_spread_bps is zero; it raises nothing
    else, and with quotes <= 0 it returns the prior parameters untouched. *)
Theorem next_params_zero_division (prev : MarketCalibParams) :
  (next_params prev = Raise ZeroDivisionError
   <-> (0 < quotes (state prev))%Z /\ target_spread_bps prev == 0)
  /\ (forall e, next_params prev = Raise e -> e = ZeroDivisionError)
  /\ ((quotes (state prev) <= 0)%Z -> next_params prev = Ret prev)
  /\ ((0 < quotes (state prev))%Z -> ~ target_spread_bps prev == 0 ->
      exists p, next_params prev = Ret p).
Proof.
  unfold next_params.
  destruct (Z.leb_spec (quotes (state prev)) 0) as [Hq | Hq].
  - split; [ split; [ discriminate | intros [? _]; lia ] | ].
    split; [ discriminate | ]. split; [ reflexivity | ]. intros ?. lia.
  - destruct (Qeqb (target_spread_bps prev) 0) eqn:Hz.
    + apply Qeqb_true in Hz.
      split; [ split; [ intros _; split; assumption | reflexivity ] | ].
      split; [ intros e [= <-]; reflexivity | ].
      split; [ intros ?; lia | ]. intros _ Hn. contradiction.
    + apply Qeqb_false in Hz.
      split; [ split; [ discriminate | intros [_ ?]; contradiction ] | ].
      split; [ discriminate | ]. split; [ intros ?; lia | ].
      intros _ _. eexists. reflexivity.
Qed.

(** X6: a returned calibration keeps alpha, max_usd and the counters,
    whatever the prior spread is; and from a prior spread inside [20, 500]
    the new spread never narrows and grows by at most 50% when fills >= 5
    and the markout sum is negative, and otherwise never widens and narrows
    by at most 10%. *)
Theorem next_params_step (prev p : MarketCalibParams) :
  next_params prev = Ret p ->
  (alpha p = alpha prev /\ max_usd p = max_usd prev /\ state p = state prev)
  /\ (20 <= target_spread_bps prev <= 500 ->
      ((5 <= fills (state prev))%Z /\ markout_sum (state prev) < 0 ->
       target_spread_bps prev <= target_spread_bps p <= 1.5 * target_spread_bps prev)
      /\ (~ ((5 <= fills (state prev))%Z /\ markout_sum (state prev) < 0) ->
          0.9 * target_spread_bps prev <= target_spread_bps p <= target_spread_bps prev)).
Proof.
  intros Hret. unfold next_params in Hret. cbv zeta in Hret.
  destruct (Z.leb_spec (quotes (state prev)) 0) as [Hq | Hq].
  { injection Hret as <-. split; [ repeat split | ].
    intros [Hlo Hhi]. split; intros; lra. }
  rewrite avg_markout_neg in Hret.
  destruct (Qeqb (target_spread_bps prev) 0); [ discriminate Hret | ].
  set (s := target_spread_bps prev) in *.
  set (am := Qabs _ * 5) in Hret.
  set (low := Qltb _ 0.01 && (500 <? quotes (state prev))%Z) in Hret.
  assert (Hp : p = {| alpha := alpha prev;
                      target_spread_bps :=
                        py_max 20
                          (py_min (if (5 <=? fills (state prev))%Z && Qltb (markout_sum (state prev)) 0
                                   then s * (1 + py_min 0.50 am)
                                   else if low then s * 0.90 else s) 500);
                      max_usd := max_usd prev;
                      quote_refresh_sec := quote_refresh_sec p;
                      cancel_reprice_sec := cancel_reprice_sec p;
                      state := state prev |}).
  { clearbody am low s. injection Hret as <-. reflexivity. }
  clear Hret. rewrite Hp. cbn [alpha max_usd state target_spread_bps].
  split; [ repeat split | ]. intros [Hlo Hhi].
  assert (Ham : 0 <= am).
  { unfold am. pose proof (Qabs_nonneg (markout_sum (state prev)
                                        / inject_Z (Z.max 1 (fills (state prev))))). lra. }
  assert (Hf : 0 <= py_min 0.50 am <= 0.50).
  { split; [ apply py_min_ge; lra | apply py_min_le_first ]. }
  destruct (Z.leb_spec 5 (fills (state prev))) as [H5 | H5];
    destruct (Qltb (markout_sum (state prev)) 0) eqn:Hm; cbn [andb];
    try apply Qltb_true in Hm; try apply Qltb_false in Hm.
  - (* widening *)
    split; [ intros _ | intros Hn; exfalso; apply Hn; split; assumption ].
    set (f := py_min 0.50 am) in *.
    assert (Hsf : s <= s * (1 + f) <= 1.5 * s).
    { assert (0 <= s * f) by (apply Qmult_le_0_compat; lra).
      assert (s * f <= s * 0.50).
      { rewrite (Qmult_comm s f), (Qmult_comm s 0.50). apply Qmult_le_compat_r; lra. }
      lra. }
    split.
    + eapply Qle_trans; [ | apply py_max_ge_r ]. apply py_min_ge; lra.
    + apply py_max_le; [ lra | ]. eapply Qle_trans; [ apply py_min_le_first | lra ].
  - split; [ intros [_ ?]; lra | intros _ ].
    destruct low.
    + split.
      * eapply Qle_trans; [ | apply py_max_ge_r ]. apply py_min_ge; lra.
      * apply py_max_le; [ lra | ]. eapply Qle_trans; [ apply py_min_le_first | lra ].
    + split.
      * eapply Qle_trans; [ | apply py_max_ge_r ]. apply py_min_ge; lra.
      * apply py_max_le; [ lra | ]. apply py_min_le_first.
  - split; [ intros [? _]; lia | intros _ ].
    destruct low.
    + split.
      * eapply Qle_trans; [ | apply py_max_ge_r ]. apply py_min_ge; lra.
      * apply py_max_le; [ lra | ]. eapply Qle_trans; [ apply py_min_le_first | lra ].
    + split.
      * eapply Qle_trans; [ | apply py_max_ge_r ]. apply py_min_ge; lra.
      * apply py_max_le; [ lra | ]. apply py_min_le_first.
  - split; [ intros [? _]; lia | intros _ ].
    destruct low.
    + split.
      * eapply Qle_trans; [ | apply py_max_ge_r ]. apply py_min_ge; lra.
      * apply py_max_le; [ lra | ]. eapply Qle_trans; [ apply py_min_le_first | lra ].
    + split.
      * eapply Qle_trans; [ | apply py_max_ge_r ]. apply py_min_ge; lra.
      * apply py_max_le; [ lra | ]. apply py_min_le_first.
Qed.

End CalibratorStepProofs.

(** Scenario 3: spread 60, 10 fills, markout sum -0.02. *)
Lemma next_params_step_witness :
  exists p,
    Calibrator.next_params Examples.calib_widening = Ret p
    /\ Calibrator.alpha p = Calibrator.alpha Examples.calib_widening
    /\ Calibrator.target_spread_bps Examples.calib_widening <= Calibrator.target_spread_bps p
       <= 1.5 * Calibrator.target_spread_bps Examples.calib_widening.
Proof.
  eexists. split; [ vm_compute; reflexivity | ].
  match goal with |- context [Calibrator.alpha ?p = _] =>
    destruct (next_params_step Examples.calib_widening p) as ((Ha & _ & _) & Hband) end.
  - vm_compute. reflexivity.
  - split; [ exact Ha | ].
    destruct Hband as [Hw _]; [ split; q_decide | ].
    apply Hw. split; [ vm_compute; discriminate | q_decide ].
Defined.

Section CalibratorStateProofs.
Import Calibrator CalibratorState.
Context `{P : PyParse}.

(** X7: the persisted calibration state survives the round trip through
    [to_state_json] and [from_state_json]; a dictionary with none of the four
    keys decodes to the all-zero state; and a key that is present but null
    raises TypeError. *)
Theorem state_json_round_trip (p : MarketCalibParams) :
  from_state_json (to_state_json p) = Conv (state p)
  /\ from_state_json (to_state_json (init_params
        {| base_alpha := alpha p; base_spread_bps := target_spread_bps p;
           base_max_usd := max_usd p; base_quote_refresh_sec := quote_refresh_sec p;
           base_cancel_reprice_sec := cancel_reprice_sec p |})) = Conv MarketCalibState0
  /\ (forall d : pydict,
        dict_get "fills" d = None -> dict_get "quotes" d = None ->
        dict_get "markout_sum" d = None -> dict_get "realized_spread_sum" d = None ->
        from_state_json d = Conv MarketCalibState0)
  /\ (forall (d : pydict) (k : string),
        In k ["fills"; "quotes"; "markout_sum"; "realized_spread_sum"] ->
        dict_get k d = Some JNone ->
        (forall k', In k' ["fills"; "quotes"; "markout_sum"; "realized_spread_sum"] ->
                    k' <> k -> dict_get k' d = None) ->
        from_state_json d = ConvRaise TypeError).
Proof.
  split; [ destruct p as [? ? ? ? ? []]; reflexivity | ].
  split; [ reflexivity | ].
  split.
  - intros d Hf Hq Hm Hr. unfold from_state_json, dict_get_or. rewrite Hf, Hq, Hm, Hr. reflexivity.
  - intros d k Hk Hnull Hrest. unfold from_state_json, dict_get_or.
    cbn [In] in Hk. destruct Hk as [<- | [<- | [<- | [<- | []]]]]; rewrite Hnull;
      repeat match goal with
             | |- context [dict_get ?k' d] =>
                 rewrite (Hrest k') by (cbn [In]; first [ tauto | discriminate ])
             end; reflexivity.
Qed.

End CalibratorStateProofs.

(** ** pmm/analytics/inventory.py: the ledger *)

Section LedgerProofs.
Import Inventory.

Abbreviation sumQ := Allocator.sumQ.

Lemma sumQ_app (l l' : list Q) : sumQ (l ++ l') == sumQ l + sumQ l'.
Proof.
  induction l as [ | x l IH ]; cbn [app].
  - change (sumQ []) with 0. ring.
  - rewrite !sumQ_cons, IH. ring.
Qed.

Lemma sumQ_perm (l l' : list Q) : l ≡ₚ l' -> sumQ l == sumQ l'.
Proof.
  induction 1 as [ | x l l' _ IH | x y l | l l' l'' _ IH1 _ IH2 ].
  - reflexivity.
  - rewrite !sumQ_cons, IH. reflexivity.
  - rewrite !sumQ_cons. ring.
  - rewrite IH1. exact IH2.
Qed.

Lemma sum_pos_insert (g : Position -> Q) (m : gmap string Position) (k : string) (v : Position) :
  g Position0 == 0 ->
  sum_pos g (<[k := v]> m) == sum_pos g m - g (default Position0 (m !! k)) + g v.
Proof.
  intros Hg0. unfold sum_pos. fold (sumQ (map (fun kp : string * Position => g kp.2) (map_to_list (<[k:=v]> m)))).
  fold (sumQ (map (fun kp : string * Position => g kp.2) (map_to_list m))).
  destruct (m !! k) as [x | ] eqn:Hk; cbn [default].
  - rewrite <- (insert_delete_eq m k v).
    rewrite (sumQ_perm _ _ (Permutation_map _ (map_to_list_insert (delete k m) k v
                                                  (lookup_delete_eq m k)))).
    rewrite <- (sumQ_perm _ _ (Permutation_map _ (map_to_list_delete m k x Hk))).
    cbn [map snd]. rewrite !sumQ_cons. unfold id. ring.
  - rewrite (sumQ_perm _ _ (Permutation_map _ (map_to_list_insert m k v Hk))).
    cbn [map snd]. rewrite sumQ_cons. unfold id. rewrite Hg0. ring.
Qed.

Lemma realized_total_sum (self : InventoryEngine) :
  realized_total self = sum_pos realized (pos self).
Proof. reflexivity. Qed.

Lemma cost_basis_sum (self : InventoryEngine) :
  cost_basis self = sum_pos (fun p => avg_cost p * qty p) (pos self).
Proof. reflexivity. Qed.

Lemma apply_one_cash (self : InventoryEngine) (f : Fill) :
  cash (apply_one self f) == cash self + cash_flow f.
Proof.
  unfold apply_one, apply_fill, cash_flow.
  destruct (String.eqb (upper (f_side f)) "BUY"); cbn [cash]; ring.
Qed.

(** X8: the cash of the engine after any sequence of fills is the starting
    cash plus the cash flows of the fills, whatever is held: each BUY pays
    price * size + fee and every other fill receives price * size - fee in
    full, also when it sells more than the position holds. *)
Theorem apply_fills_cash (self : InventoryEngine) (fs : list Fill) :
  cash (apply_fills self fs) == cash self + sumQ (map cash_flow fs).
Proof.
  revert self. induction fs as [ | f fs IH ]; intros self.
  - cbn. unfold Allocator.sumQ. cbn. ring.
  - cbn [apply_fills fold_left map]. fold (apply_one self f).
    change (fold_left _ fs (apply_one self f)) with (apply_fills (apply_one self f) fs).
    rewrite IH, apply_one_cash, sumQ_cons. ring.
Qed.

(** X9: a fill whose side is not BUY and whose size is at least the quantity
    held (a token that was never held included) leaves the position with
    quantity 0 and average cost 0, realizes (price - avg_cost) on the quantity
    held only, and still credits the cash with price * size - fee. *)
Theorem sell_at_least_held (self : InventoryEngine) (tok side : string) (price size fee : Q) :
  upper side <> "BUY" ->
  qty (default Position0 (pos self !! tok)) <= size ->
  let p := default Position0 (pos self !! tok) in
  exists r : Q,
    apply_fill self tok side price size fee
    = {| cash := cash self + (price * size - fee);
         pos := <[tok := {| qty := 0; avg_cost := 0; realized := r |}]> (pos self) |}
    /\ r == realized p + (price - avg_cost p) * qty p.
Proof.
  intros Hside Hle p. subst p. unfold apply_fill.
  set (p := default Position0 (pos self !! tok)) in *.
  destruct (String.eqb_spec (upper side) "BUY") as [E | _]; [ contradiction | ].
  assert (Hs : py_min size (qty p) == qty p).
  { unfold py_min. destruct (Qlt_le_dec (qty p) size); [ reflexivity | lra ]. }
  assert (Hz : Qleb (qty p - py_min size (qty p)) 0.000000000001 = true).
  { apply Qleb_true. lra. }
  rewrite Hz. eexists. split; [ reflexivity | ]. rewrite Hs. reflexivity.
Qed.

(** *** The accounting identity *)

Lemma apply_one_book_value (self : InventoryEngine) (f : Fill) :
  clean_fill self f = true ->
  book_value (apply_one self f) == book_value self - f_fee f.
Proof.
  intros Hc. unfold book_value. rewrite !cost_basis_sum, !realized_total_sum.
  unfold clean_fill in Hc. unfold apply_one, apply_fill.
  set (p := default Position0 (pos self !! f_token f)) in *.
  assert (Hb0 : avg_cost Position0 * qty Position0 == 0) by (cbn; ring).
  assert (Hr0 : realized Position0 == 0) by reflexivity.
  destruct (String.eqb (upper (f_side f)) "BUY"); cbn [cash pos].
  - rewrite Hc. apply Qltb_true in Hc.
    rewrite (sum_pos_insert (fun p => avg_cost p * qty p)) by exact Hb0.
    rewrite (sum_pos_insert realized) by exact Hr0.
    fold p. cbn [qty avg_cost realized]. field. lra.
  - apply andb_true_iff in Hc. destruct Hc as [Hle Hend]. apply Qleb_true in Hle.
    assert (Hs : py_min (f_size f) (qty p) == f_size f).
    { unfold py_min. destruct (Qlt_le_dec (qty p) (f_size f)); [ lra | reflexivity ]. }
    destruct (Qleb (qty p - py_min (f_size f) (qty p)) 0.000000000001) eqn:Hreset.
    + apply Qleb_true in Hreset.
      assert (Hq : qty p - f_size f == 0).
      { apply orb_true_iff in Hend. destruct Hend as [Hbig | Hzero].
        - apply Qltb_true in Hbig. lra.
        - apply Qeqb_true in Hzero. exact Hzero. }
      rewrite (sum_pos_insert (fun p => avg_cost p * qty p)) by exact Hb0.
      rewrite (sum_pos_insert realized) by exact Hr0.
      fold p. cbn [qty avg_cost realized]. rewrite Hs.
      assert (Eq : qty p == f_size f) by lra. rewrite Eq. ring.
    + rewrite (sum_pos_insert (fun p => avg_cost p * qty p)) by exact Hb0.
      rewrite (sum_pos_insert realized) by exact Hr0.
      fold p. cbn [qty avg_cost realized]. rewrite Hs. ring.
Qed.

Lemma apply_fills_book_value (fs : list Fill) (self : InventoryEngine) :
  clean_fills self fs = true ->
  book_value (apply_fills self fs) == book_value self - total_fees fs.
Proof.
  revert self. induction fs as [ | f fs IH ]; intros self Hc.
  - cbn. unfold total_fees. cbn. ring.
  - cbn [clean_fills] in Hc. apply andb_true_iff in Hc. destruct Hc as [Hf Hfs].
    cbn [apply_fills fold_left]. fold (apply_one self f).
    change (fold_left _ fs (apply_one self f)) with (apply_fills (apply_one self f) fs).
    rewrite (IH _ Hfs), (apply_one_book_value _ _ Hf).
    unfold total_fees. cbn [map]. fold (sumQ (f_fee f :: map f_fee fs)).
    fold (sumQ (map f_fee fs)). rewrite sumQ_cons. ring.
Qed.

(** The loops of [equity] and [mark] over positions that all have a
    midpoint. *)
Lemma equity_mark_fold (mids : gmap string Q) (l : list (string * Position))
  (eq0 : Q) (st : Q * Q * gmap string Q) :
  Forall (fun kp => is_Some (mids !! kp.1)) l ->
  fold_left (fun eq kp => match mids !! kp.1 with
                          | Some mid => eq + mid * qty kp.2
                          | None => eq
                          end) l eq0
  == eq0 + ((fold_left (mark_step mids) l st).1.2 - st.1.2)
     + sumQ (map (fun kp : string * Position => avg_cost kp.2 * qty kp.2) l).
Proof.
  intros Hall. revert eq0 st. induction Hall as [ | [k p] l [mid Hk] _ IH ]; intros eq0 st.
  - cbn. unfold Allocator.sumQ. cbn. ring.
  - cbn [fold_left map]. cbn [fst snd] in Hk |- *. rewrite sumQ_cons.
    destruct st as [[gross unreal] marks]. unfold mark_step at 2. cbn [fst snd]. rewrite Hk.
    rewrite (IH (eq0 + mid * qty p)
                (gross + Qabs (qty p) * mid, unreal + (mid - avg_cost p) * qty p, <[k := mid]> marks)).
    cbn [fst snd]. ring.
Qed.

(** X10: for fills that stay clear of the two 1e-12 thresholds and never
    sell more than is held, the book keeps
    cash + cost basis - realized = starting cash - fees; hence, when every
    held token has a midpoint, [equity] equals the starting cash plus the
    realized total plus the unrealized amount of [mark], minus the fees paid;
    and the realized figure that [mark] returns is [realized_total]. *)
Theorem equity_identity (cash0 : Q) (fs : list Fill) (mids : gmap string Q) :
  clean_fills (InventoryEngine_init cash0) fs = true ->
  let inv := apply_fills (InventoryEngine_init cash0) fs in
  (forall tok p, pos inv !! tok = Some p -> is_Some (mids !! tok)) ->
  (mark inv mids).1.1.2 = realized_total inv
  /\ cash inv + cost_basis inv - realized_total inv == cash0 - total_fees fs
  /\ equity inv mids == cash0 + realized_total inv + (mark inv mids).1.2 - total_fees fs.
Proof.
  intros Hclean inv Hmids.
  pose proof (apply_fills_book_value fs (InventoryEngine_init cash0) Hclean) as Hbook.
  fold inv in Hbook.
  assert (Hinit : book_value (InventoryEngine_init cash0) == cash0).
  { unfold book_value, cost_basis, realized_total. cbn [InventoryEngine_init cash pos].
    rewrite map_to_list_empty. cbn. ring. }
  rewrite Hinit in Hbook. unfold book_value in Hbook.
  assert (Hall : Forall (fun kp : string * Position => is_Some (mids !! kp.1))
                   (map_to_list (pos inv))).
  { apply List.Forall_forall. intros [k p] Hin. apply list_elem_of_In in Hin.
    apply elem_of_map_to_list in Hin. exact (Hmids k p Hin). }
  pose proof (equity_mark_fold mids (map_to_list (pos inv)) (cash inv) (0, 0, ∅) Hall) as Heq.
  cbn [fst snd] in Heq. fold (equity inv mids) in Heq. fold (cost_basis inv) in Heq.
  unfold mark.
  destruct (fold_left (mark_step mids) (map_to_list (pos inv)) (0, 0, ∅)) as [[gross unreal] marks].
  cbn [fst snd] in *. split; [ reflexivity | ]. split; [ exact Hbook | ].
  rewrite Heq.
  change (sumQ (map (fun kp : string * Position => avg_cost kp.2 * qty kp.2)
                    (map_to_list (pos inv)))) with (cost_basis inv).
  lra.
Qed.

End LedgerProofs.

(** Scenario 1 with the position marked at 0.55: cash 993.5, 15 shares at an
    average cost of 0.5, realized 1. *)
Lemma equity_identity_witness :
  let inv := Inventory.apply_fills (Inventory.InventoryEngine_init 1000) Examples.basic_fills in
  let mids : gmap string Q := {[ "T" := 0.55 ]} in
  Inventory.equity inv mids
  == 1000 + Inventory.realized_total inv + (Inventory.mark inv mids).1.2
     - Inventory.total_fees Examples.basic_fills.
Proof.
  cbv zeta.
  apply (equity_identity 1000 Examples.basic_fills {[ "T" := 0.55 ]}).
  - vm_compute. reflexivity.
  - intros tok p Hp. destruct (decide (tok = "T")) as [-> | Hne].
    + rewrite lookup_singleton_eq. eexists. reflexivity.
    + exfalso. revert Hp. unfold Inventory.apply_fills, Examples.basic_fills. cbn [fold_left].
      rewrite !apply_fill_lookup_other by (intros E; apply Hne; symmetry; exact E).
      cbn. rewrite lookup_empty. discriminate.
Defined.

Lemma sell_at_least_held_witness :
  exists r : Q,
    Inventory.apply_fill (Inventory.InventoryEngine_init 1000) "T" "SELL" 0.70 5 0
    = {| Inventory.cash := 1000 + (0.70 * 5 - 0);
         Inventory.pos := <["T" := {| Inventory.qty := 0; Inventory.avg_cost := 0;
                                      Inventory.realized := r |}]> ∅ |}
    /\ r == 0.
Proof.
  destruct (sell_at_least_held (Inventory.InventoryEngine_init 1000) "T" "SELL" 0.70 5 0)
    as (r & Hr & Er).
  - discriminate.
  - q_decide.
  - exists r. split; [ exact Hr | ]. rewrite Er. vm_compute. reflexivity.
Defined.

(** ** pmm/strategy/circuit_breaker.py: histories of calls *)

Section BreakerHistoryProofs.
Import CircuitBreaker.

(** X11: after any history of [record_place], [record_cancel] and
    [record_error] calls on a new breaker, the configuration is the one it
    was built with, placed is the number of placements recorded, rejected the
    number of failed ones (so 0 <= rejected <= placed), errors the number of
    errors recorded, and the reject rate lies between 0 and 1. *)
Theorem breaker_counters (c : CircuitConfig) (now : Z) (cs : list Call) :
  let cb := calls (CircuitBreaker_init c now) cs in
  cfg cb = c
  /\ placed (state cb) = Z.of_nat (length (placements cs))
  /\ rejected (state cb) = Z.of_nat (count_rejects (placements cs))
  /\ errors (state cb) = Z.of_nat (error_count cs)
  /\ (0 <= rejected (state cb) <= placed (state cb))%Z
  /\ 0 <= reject_rate cb <= 1.
Proof.
  cbv zeta. destruct (calls_counters cs (CircuitBreaker_init c now)) as (Hp & Hr & He).
  destruct (calls_frame cs (CircuitBreaker_init c now)) as (Hc & _ & _).
  cbn [CircuitBreaker_init state placed rejected errors cfg] in Hp, Hr, He, Hc.
  pose proof (count_rejects_le (placements cs)) as Hle.
  split; [ exact Hc | ]. split; [ lia | ]. split; [ lia | ]. split; [ lia | ].
  split; [ lia | ].
  unfold reject_rate. rewrite Hp, Hr.
  set (r := Z.of_nat (count_rejects (placements cs))).
  set (n := Z.of_nat (length (placements cs))).
  assert (Hrn : (0 <= r <= n)%Z) by (subst r n; lia).
  assert (Hd : 0 < inject_Z (Z.max 1 (0 + n))).
  { change 0 with (inject_Z 0). rewrite <- Zlt_Qlt. lia. }
  assert (Hr0 : 0 <= inject_Z (0 + r)).
  { change 0 with (inject_Z 0) at 1. rewrite <- Zle_Qle. lia. }
  assert (Hrd : inject_Z (0 + r) <= inject_Z (Z.max 1 (0 + n))).
  { rewrite <- Zle_Qle. lia. }
  split.
  - apply Qle_shift_div_l; [ exact Hd | lra ].
  - apply Qle_shift_div_r; [ exact Hd | lra ].
Qed.

(** X12: once errors >= max_errors, [should_halt] is true after every
    further history of calls: no call lowers the error count or changes the
    configuration. *)
Theorem error_trip_is_permanent (cb : CircuitBreaker) (cs : list Call) :
  (max_errors (cfg cb) <= errors (state cb))%Z ->
  fst (should_halt (calls cb cs)) = true.
Proof.
  intros Htrip. apply should_halt_iff. right. right.
  destruct (calls_frame cs cb) as (Hc & He & _). rewrite Hc. lia.
Qed.

(** X13: after cancels recorded at non-decreasing times on a new breaker,
    the deque holds exactly the recorded times that are at most 60 seconds
    before the latest one, all of them inside [latest - 60, latest]; and
    [should_halt] then trips exactly when more than max_cancels_per_min
    cancels were recorded in that window (or max_errors is not positive). *)
Theorem cancel_window_history (c : CircuitConfig) (t0 : Z) (times : list Z) :
  Sorted Z.le times ->
  let cb := record_cancels (CircuitBreaker_init c t0) times in
  let latest := List.last times 0%Z in
  cancel_events (state cb) = window latest times
  /\ Forall (fun t => (latest - 60 <= t <= latest)%Z) (cancel_events (state cb))
  /\ (fst (should_halt cb) = true
      <-> (max_cancels_per_min c < Z.of_nat (length (window latest times)))%Z
          \/ (max_errors c <= 0)%Z).
Proof.
  intros Hs cb latest.
  assert (Hev : cancel_events (state cb) = window latest times).
  { apply record_cancels_events; [ reflexivity | exact Hs ]. }
  split; [ exact Hev | ]. split.
  - rewrite Hev. apply List.Forall_forall. intros x Hx. unfold window in Hx.
    apply filter_In in Hx. destruct Hx as [Hin Hx].
    pose proof (sorted_le_last times x Hs Hin) as Hle. fold latest in Hle.
    destruct (Z.ltb_spec 60 (latest - x)); [ discriminate Hx | lia ].
  - rewrite should_halt_iff, Hev. unfold cb. rewrite record_cancels_calls.
    destruct (calls_counters (map RecordCancel times) (CircuitBreaker_init c t0)) as (Hp & _ & He).
    destruct (calls_frame (map RecordCancel times) (CircuitBreaker_init c t0)) as (Hc & _ & _).
    destruct (cancels_only times) as [Hpl Her]. rewrite Hpl in Hp. rewrite Her in He.
    cbn [CircuitBreaker_init state placed errors cfg length] in Hp, He, Hc.
    rewrite Hp, He, Hc. split.
    + intros [[_ H20] | [Hcancel | Herr]]; [ lia | left; exact Hcancel | right; lia ].
    + intros [Hcancel | Herr]; [ right; left; exact Hcancel | right; right; lia ].
Qed.

End BreakerHistoryProofs.

(** Ten errors on a breaker with the default limits, then a successful
    placement and a cancel. *)
Lemma error_trip_is_permanent_witness :
  fst (CircuitBreaker.should_halt
         (CircuitBreaker.calls
            (CircuitBreaker.calls Examples.breaker0 (repeat CircuitBreaker.RecordError 10))
            [CircuitBreaker.RecordPlace true; CircuitBreaker.RecordCancel 1001])) = true.
Proof.
  apply (error_trip_is_permanent
           (CircuitBreaker.calls Examples.breaker0 (repeat CircuitBreaker.RecordError 10))).
  vm_compute. discriminate.
Defined.

(** Cancels at 1000, 1030, 1061 and 1090: the first has left the window. *)
Lemma cancel_window_history_witness :
  CircuitBreaker.cancel_events
    (CircuitBreaker.state
       (CircuitBreaker.record_cancels Examples.breaker0 [1000; 1030; 1061; 1090]%Z))
  = [1030; 1061; 1090]%Z.
Proof.
  destruct (cancel_window_history CircuitBreaker.CircuitConfig_default 1000
              [1000; 1030; 1061; 1090]%Z) as (Hev & _ & _).
  - repeat constructor; lia.
  - exact Hev.
Defined.

(** ** pmm/strategy/allocator.py: the pinned minimums and the two exits *)

Section AllocatorBranchProofs.
Import Allocator.
Context `{M : PyMath}.
Variable self : CapitalAllocator.

Lemma min_pass_fold (alloc : gmap string Q) (l : list (nat * MarketFeatures))
  (st : gmap string Q * Q * list nat) :
  let r := fold_left (min_step self alloc) l st in
  (forall k, r.1.1 !! k
             = if in_dec string_dec k (cids (pinned self alloc (map snd l)))
               then Some (min_per_market self) else st.1.1 !! k)
  /\ r.1.2 == st.1.2 - inject_Z (Z.of_nat (length (pinned self alloc (map snd l))))
                       * min_per_market self.
Proof.
  revert st. induction l as [ | [i f] l IH ]; intros st; cbv zeta.
  - cbn. split; [ reflexivity | ring ].
  - cbn [fold_left map snd]. destruct st as [[fixed remaining] idx].
    assert (Hstep : min_step self alloc (fixed, remaining, idx) (i, f)
                    = if below_min self alloc f
                      then (<[condition_id f := min_per_market self]> fixed,
                            remaining - min_per_market self,
                            List.filter (fun j => negb (Nat.eqb j i)) idx)
                      else (fixed, remaining, idx)) by reflexivity.
    rewrite Hstep. clear Hstep. unfold pinned. cbn [List.filter]. fold (pinned self alloc (map snd l)).
    destruct (below_min self alloc f) eqn:Hlow.
    + destruct (IH (<[condition_id f := min_per_market self]> fixed,
                    remaining - min_per_market self,
                    List.filter (fun j => negb (Nat.eqb j i)) idx)) as [Hk Hr].
      cbv zeta in Hk, Hr. cbn [fst snd] in Hk, Hr |- *. split.
      * intros k. rewrite Hk. cbn [cids map].
        destruct (in_dec string_dec k (cids (pinned self alloc (map snd l)))) as [Hin | Hnin].
        -- destruct (in_dec string_dec k _) as [_ | Hn]; [ reflexivity | ].
           exfalso. apply Hn. right. exact Hin.
        -- destruct (in_dec string_dec k _) as [[E | Hin] | Hn].
           ++ subst k. apply lookup_insert_eq.
           ++ contradiction.
           ++ apply lookup_insert_ne. intros E. apply Hn. left. exact E.
      * rewrite Hr. cbn [length]. rewrite Nat2Z.inj_succ, <- Z.add_1_r, inject_Z_plus.
        change (inject_Z 1) with 1. ring.
    + destruct (IH (fixed, remaining, idx)) as [Hk Hr].
      cbv zeta in Hk, Hr. cbn [fst snd] in Hk, Hr |- *. split; [ exact Hk | exact Hr ].
Qed.

Lemma min_pass_spec (alloc : gmap string Q) (feats : list MarketFeatures) :
  let r := min_pass self alloc feats in
  (forall k, r.1.1 !! k
             = if in_dec string_dec k (cids (pinned self alloc feats))
               then Some (min_per_market self) else None)
  /\ r.1.2 == total_budget_usd self
              - inject_Z (Z.of_nat (length (pinned self alloc feats))) * min_per_market self.
Proof.
  cbv zeta. unfold min_pass.
  destruct (min_pass_fold alloc (combine (seq 0 (length feats)) feats)
              (∅, total_budget_usd self, seq 0 (length feats))) as [Hk Hr].
  cbv zeta in Hk, Hr. cbn [fst snd] in Hk, Hr.
  rewrite map_snd_combine in Hk, Hr by (rewrite length_seq; reflexivity).
  split; [ | exact Hr ].
  intros k. rewrite Hk. destruct (in_dec string_dec k _); [ reflexivity | apply lookup_empty ].
Qed.

(** *** Keys are never removed by the later passes *)

Lemma first_pass_has_key (B s : Q) (feats : list MarketFeatures) (w_raw : list Q)
  (f : MarketFeatures) :
  length w_raw = length feats -> In f feats ->
  is_Some (first_pass B s feats w_raw !! condition_id f).
Proof.
  intros Hlen Hf. unfold first_pass.
  assert (Hin : In (condition_id f) (map (fun fw : MarketFeatures * Q => condition_id fw.1)
                                         (combine feats w_raw))).
  { rewrite <- (map_map fst condition_id), map_fst_combine by (symmetry; exact Hlen).
    apply in_map. exact Hf. }
  revert Hin. generalize (combine feats w_raw). intros l. generalize (∅ : gmap string Q).
  induction l as [ | fw l IH ]; intros a Hin; [ destruct Hin | ].
  cbn [fold_left]. cbn [map] in Hin.
  destruct (in_dec string_dec (condition_id f)
              (map (fun fw : MarketFeatures * Q => condition_id fw.1) l)) as [Hl | Hnl].
  - apply IH. exact Hl.
  - destruct Hin as [E | Hl]; [ | contradiction ].
    assert (G : forall (l' : list (MarketFeatures * Q)) (a' : gmap string Q),
               is_Some (a' !! condition_id f) ->
               is_Some (fold_left (fun a fw => <[condition_id fw.1 := B * (fw.2 / s)]> a) l' a'
                        !! condition_id f)).
    { induction l' as [ | x l' IH' ]; intros a' Ha; [ exact Ha | ].
      cbn [fold_left]. apply IH'. apply lookup_insert_is_Some'. right. exact Ha. }
    apply G. rewrite E. rewrite lookup_insert_eq. eexists. reflexivity.
Qed.

Lemma realloc_pass_mono (remaining : Q) (feats : list MarketFeatures) (w_raw : list Q)
  (idx : list nat) (alloc : gmap string Q) (k : string) :
  is_Some (alloc !! k) -> is_Some (realloc_pass remaining feats w_raw idx alloc !! k).
Proof.
  unfold realloc_pass. destruct idx as [ | i0 idx0 ]; [ tauto | ].
  generalize (i0 :: idx0). intros idx. clear i0 idx0.
  set (s2 := sumQ (map (fun i => nth i w_raw 0) idx)). clearbody s2.
  revert alloc. induction idx as [ | i idx IH ]; intros alloc Hk; cbn [fold_left]; [ exact Hk | ].
  apply IH. destruct (nth_error feats i); [ | exact Hk ].
  apply lookup_insert_is_Some'. right. exact Hk.
Qed.

Lemma max_pass_mono (l : list MarketFeatures) (st : gmap string Q * Q * list string) (k : string) :
  is_Some (st.1.1 !! k) -> is_Some ((fold_left (max_step self) l st).1.1 !! k).
Proof.
  revert st. induction l as [ | f l IH ]; intros st Hk; cbn [fold_left]; [ exact Hk | ].
  apply IH. destruct st as [[alloc ov] un]. cbn [max_step fst] in *.
  destruct (Qltb _ _); cbn [fst]; [ | exact Hk ].
  apply lookup_insert_is_Some'. right. exact Hk.
Qed.

Lemma redistribute_mono (st : gmap string Q * Q * list string) (k : string) :
  is_Some (st.1.1 !! k) -> is_Some (redistribute self st !! k).
Proof.
  destruct st as [[alloc ov] un]. cbn [redistribute fst].
  destruct un as [ | u0 un0 ]; [ tauto | ].
  destruct (Qltb 0 ov); [ | tauto ].
  generalize (ov / inject_Z (Z.of_nat (length (u0 :: un0)))). intros add.
  generalize (u0 :: un0). clear u0 un0. intros un.
  revert alloc. induction un as [ | u un IH ]; intros alloc Hk; cbn [fold_left]; [ exact Hk | ].
  apply IH. apply lookup_insert_is_Some'. right. exact Hk.
Qed.

(** X14: a market whose first-pass amount (looked up by its id) is below
    min_per_market is given min_per_market by [allocate], on both exits of
    the function, when min_per_market <= max_per_market. *)
Theorem allocate_pins_minimum (feats : list MarketFeatures) (f : MarketFeatures) :
  min_per_market self <= max_per_market self ->
  In f feats ->
  below_min self (first_alloc self feats) f = true ->
  exists v, allocate self feats !! condition_id f = Some v /\ v == min_per_market self.
Proof.
  intros Hmm Hf Hlow.
  assert (Ea : allocate self feats = allocate_nonempty self feats).
  { destruct feats; [ destruct Hf | reflexivity ]. }
  rewrite Ea. unfold allocate_nonempty. unfold first_alloc in Hlow.
  destruct (weights self feats) as [w_raw s].
  set (alloc0 := first_pass (total_budget_usd self) s feats w_raw) in *.
  destruct (min_pass_spec alloc0 feats) as [Hfixed _]. cbv zeta in Hfixed.
  destruct (min_pass self alloc0 feats) as [[fixed remaining] idx]. cbn [fst snd] in Hfixed.
  assert (Hk : fixed !! condition_id f = Some (min_per_market self)).
  { rewrite Hfixed. destruct (in_dec string_dec _ _) as [_ | Hn]; [ reflexivity | ].
    exfalso. apply Hn. apply in_map. apply filter_In. split; assumption. }
  destruct (Qleb remaining 0).
  - rewrite lookup_fmap, Hk. cbn. eexists. split; [ reflexivity | ].
    unfold py_min. destruct (Qlt_le_dec (min_per_market self) (max_per_market self)); lra.
  - exists (min_per_market self). split; [ | reflexivity ].
    apply lookup_union_Some_l. exact Hk.
Qed.

(** X15: the two exits of [allocate]. When the pinned minimums use up the
    budget (budget - pinned * min_per_market <= 0) the result holds only the
    pinned markets, each with min(max_per_market, min_per_market), and every
    other market is left without an entry; otherwise every market of the
    input has an entry. *)
Theorem allocate_exits (feats : list MarketFeatures) :
  feats <> [] ->
  (budget_left self feats <= 0 ->
   forall k, allocate self feats !! k
             = if in_dec string_dec k (cids (pinned self (first_alloc self feats) feats))
               then Some (py_min (max_per_market self) (min_per_market self))
               else None)
  /\ (0 < budget_left self feats ->
      forall f, In f feats -> is_Some (allocate self feats !! condition_id f)).
Proof.
  intros Hne.
  assert (Ea : allocate self feats = allocate_nonempty self feats).
  { destruct feats; [ congruence | reflexivity ]. }
  rewrite Ea. unfold allocate_nonempty, budget_left, first_alloc.
  destruct (weights_spec self feats) as [Hlen _].
  destruct (weights self feats) as [w_raw s]. cbn [fst] in Hlen.
  set (alloc0 := first_pass (total_budget_usd self) s feats w_raw) in *.
  destruct (min_pass_spec alloc0 feats) as [Hfixed Hrem]. cbv zeta in Hfixed, Hrem.
  destruct (min_pass self alloc0 feats) as [[fixed remaining] idx]. cbn [fst snd] in Hfixed, Hrem.
  split.
  - intros Hleft k.
    assert (Hb : Qleb remaining 0 = true) by (apply Qleb_true; lra).
    rewrite Hb, lookup_fmap, Hfixed.
    destruct (in_dec string_dec k _); reflexivity.
  - intros Hleft f Hf.
    assert (Hb : Qleb remaining 0 = false) by (apply Qleb_false; lra).
    rewrite Hb. apply lookup_union_is_Some. right.
    apply redistribute_mono. unfold max_pass. apply max_pass_mono. cbn [fst].
    apply realloc_pass_mono. apply first_pass_has_key; assumption.
Qed.

End AllocatorBranchProofs.

(** Three markets with first-pass amounts 29, 30.1 and 40.9 and a minimum of
    30: the first is pinned at 30. *)
Lemma allocate_pins_minimum_witness :
  exists v,
    @Allocator.allocate Examples.PyMath_points Examples.alloc_three Examples.feats_three !! "M1"
    = Some v
    /\ v == 30.
Proof.
  apply (@allocate_pins_minimum Examples.PyMath_points Examples.alloc_three Examples.feats_three
           (Examples.market "M1" 58 0 0)).
  - q_decide.
  - left. reflexivity.
  - vm_compute. reflexivity.
Defined.

(** Two markets at 50 each, a minimum of 60 and a budget of 100: both are
    pinned and each is returned with 60. *)
Lemma allocate_exits_witness :
  @Allocator.allocate Examples.PyMath_points Examples.alloc_tight Examples.feats_tight !! "M2"
  = Some (py_min 80 60).
Proof.
  assert (Hne : Examples.feats_tight <> []) by discriminate.
  destruct (@allocate_exits Examples.PyMath_points Examples.alloc_tight Examples.feats_tight Hne)
    as [Hout _].
  rewrite Hout by q_decide. reflexivity.
Defined.

(** ** pmm/execution/order_manager.py: what a placement cancels and keeps *)

Section PlaceClosedForm.
Import OrderManager.
Context {E : Type} `{Exchange.ExchangeBase E} {R : Type}.
Variable self : OrderManager R.

Lemma live_eqb_refl (o : LiveOrderState) : live_eqb o o = true.
Proof.
  unfold live_eqb. rewrite !String.eqb_refl, Z.eqb_refl.
  assert (Hq : forall q : Q, Qeqb q q = true) by (intros q; apply Qeqb_true; reflexivity).
  rewrite !Hq. reflexivity.
Qed.

Lemma price_changed_compat (old old' new : Q) :
  old == old' -> _price_changed self old new = _price_changed self old' new.
Proof.
  intros Eo. unfold _price_changed.
  assert (Ea : Qabs (old - new) == Qabs (old' - new)) by (rewrite Eo; reflexivity).
  destruct (tick_truthy self).
  - apply Qleb_compat; [ reflexivity | exact Ea ].
  - apply Qleb_compat; [ | exact Ea ].
    apply py_max_compat; [ reflexivity | rewrite Eo; reflexivity ].
Qed.

Lemma live_eqb_moved (side : string) (price : Q) (x o : LiveOrderState) :
  live_eqb x o = true -> moved self side price x = moved self side price o.
Proof.
  unfold live_eqb. rewrite !andb_true_iff.
  intros [[[[[[_ _] _] Hs] Hp] _] _].
  apply String.eqb_eq in Hs. apply Qeqb_true in Hp.
  unfold moved. rewrite Hs, (price_changed_compat _ _ price Hp). reflexivity.
Qed.

Lemma remove_first_skip (o : LiveOrderState) (pre rest : list LiveOrderState) :
  (forall x, In x pre -> live_eqb x o = false) ->
  remove_first o (pre ++ o :: rest) = (pre ++ rest)%list.
Proof.
  induction pre as [ | x pre IH ]; intros Hpre; cbn [app remove_first].
  - rewrite live_eqb_refl. reflexivity.
  - rewrite (Hpre x) by (left; reflexivity). f_equal.
    apply IH. intros y Hy. apply Hpre. right. exact Hy.
Qed.

Lemma replace_order_moved now cond side price (w : World E) (existing : list LiveOrderState)
  (o : LiveOrderState) :
  moved self side price o = true ->
  let ok := (Exchange.cancel (exchange w) (venue_order_id o)).1 in
  let ex := (Exchange.cancel (exchange w) (venue_order_id o)).2 in
  replace_order self now cond side price (w, existing) o
  = (do_upsert {| conn := conn w; exchange := ex |}
       (cancel_row self o (Some cond) side now ok
          [("reason", JStr "reprice"); ("ok", JBool ok); ("new_price", JNum price)]),
     remove_first o existing).
Proof.
  intros Hm. cbv zeta. unfold replace_order. fold (moved self side price o). rewrite Hm.
  unfold do_cancel. destruct (Exchange.cancel (exchange w) (venue_order_id o)) as [ok ex].
  reflexivity.
Qed.

Lemma replace_order_kept now cond side price (st : World E * list LiveOrderState)
  (o : LiveOrderState) :
  moved self side price o = false ->
  replace_order self now cond side price st o = st.
Proof.
  intros Hm. destruct st as [w existing]. unfold replace_order.
  fold (moved self side price o). rewrite Hm. reflexivity.
Qed.

(** The "replace" loop cancels the orders that [moved] selects and keeps the
    others, in order. *)
Lemma replace_fold now cond side price (rest pre : list LiveOrderState) (w : World E) :
  (forall x, In x pre -> moved self side price x = false) ->
  let r := fold_left (replace_order self now cond side price) rest (w, (pre ++ rest)%list) in
  r.2 = (pre ++ survivors self side price rest)%list
  /\ exchange r.1
     = (cancel_all (exchange w) (map venue_order_id (repriced self side price rest))).2
  /\ length (conn r.1) = (length (conn w) + length (repriced self side price rest))%nat.
Proof.
  revert pre w. induction rest as [ | o rest IH ]; intros pre w Hpre; cbv zeta.
  - cbn. rewrite app_nil_r. repeat split; lia.
  - cbn [fold_left].
    unfold survivors, repriced. cbn [List.filter]. fold (survivors self side price rest).
    fold (repriced self side price rest).
    destruct (moved self side price o) eqn:Hm; cbn [negb].
    + rewrite (replace_order_moved now cond side price w _ o Hm). cbv zeta.
      rewrite remove_first_skip.
      2:{ intros x Hx. destruct (live_eqb x o) eqn:Heq; [ | reflexivity ].
          apply (live_eqb_moved side price) in Heq. rewrite (Hpre x Hx), Hm in Heq. discriminate Heq. }
      cbn [map cancel_all].
      destruct (Exchange.cancel (exchange w) (venue_order_id o)) as [ok ex1]. cbn [fst snd].
      match goal with |- context [fold_left _ rest (?w1, _)] =>
        destruct (IH pre w1 Hpre) as (Hl & He & Hc) end.
      cbv zeta in Hl, He, Hc. cbn [do_upsert exchange conn] in He, Hc.
      rewrite Hl, He, Hc. unfold Repo.upsert_order. rewrite List.length_app. cbn [length].
      destruct (cancel_all ex1 _) as [oks ex2]. cbn [fst snd]. repeat split; lia.
    + rewrite (replace_order_kept now cond side price _ o Hm).
      assert (Hpre' : forall x, In x (pre ++ [o]) -> moved self side price x = false).
      { intros x Hx. apply in_app_or in Hx. destruct Hx as [Hx | [<- | []]]; [ apply Hpre; exact Hx | exact Hm ]. }
      destruct (IH (pre ++ [o])%list w Hpre') as (Hl & He & Hc). cbv zeta in Hl, He, Hc.
      rewrite <- app_assoc in Hl, He, Hc. cbn [app] in Hl, He, Hc.
      rewrite Hl, He, Hc, <- app_assoc. repeat split.
Qed.

(** The "cap" loop pops the oldest orders until there is room for one more. *)
Lemma enforce_cap_spec now cond (l : list LiveOrderState) (w : World E) :
  (1 <= max_orders_per_token self)%Z ->
  exists w',
    enforce_cap self now cond l w = Ret (w', skipn (cap_excess self l) l)
    /\ exchange w'
       = (cancel_all (exchange w) (map venue_order_id (firstn (cap_excess self l) l))).2
    /\ length (conn w') = (length (conn w) + cap_excess self l)%nat.
Proof.
  intros Hmax. revert w. induction l as [ | o rest IH ]; intros w.
  - cbn [enforce_cap length]. destruct (Z.leb_spec (max_orders_per_token self) (Z.of_nat 0)) as [Hle | _];
      [ cbn in Hle; lia | ].
    assert (Ek : cap_excess self [] = 0%nat) by (unfold cap_excess; cbn [length]; lia).
    rewrite Ek. exists w. cbn. repeat split; lia.
  - cbn [enforce_cap].
    destruct (Z.leb_spec (max_orders_per_token self) (Z.of_nat (length (o :: rest)))) as [Hle | Hgt].
    + assert (Ek : cap_excess self (o :: rest) = S (cap_excess self rest)).
      { unfold cap_excess. cbn [length] in *. lia. }
      rewrite Ek. cbn [skipn firstn map cancel_all]. unfold do_cancel.
      destruct (Exchange.cancel (exchange w) (venue_order_id o)) as [ok ex1].
      match goal with |- context [enforce_cap self now cond rest ?w1] =>
        destruct (IH w1) as (w' & Hr & He & Hc) end.
      cbn [do_upsert exchange conn] in He, Hc.
      exists w'. rewrite Hr, He, Hc. unfold Repo.upsert_order. rewrite List.length_app. cbn [length].
      destruct (cancel_all ex1 _) as [oks ex2]. cbn [fst snd]. repeat split; lia.
    + assert (Ek : cap_excess self (o :: rest) = 0%nat).
      { unfold cap_excess. cbn [length] in *. lia. }
      rewrite Ek. exists w. cbn. repeat split; lia.
Qed.

Lemma enforce_cap_raises now cond (l : list LiveOrderState) (w : World E) :
  (max_orders_per_token self <= 0)%Z ->
  enforce_cap self now cond l w = Raise IndexError.
Proof.
  intros Hmax. revert w. induction l as [ | o rest IH ]; intros w; cbn [enforce_cap].
  - destruct (Z.leb_spec (max_orders_per_token self) (Z.of_nat (length (@nil LiveOrderState))))
      as [_ | Hgt]; [ reflexivity | cbn in Hgt; lia ].
  - destruct (Z.leb_spec (max_orders_per_token self) (Z.of_nat (length (o :: rest))))
      as [_ | Hgt]; [ | lia ].
    unfold do_cancel. destruct (Exchange.cancel (exchange w) (venue_order_id o)) as [ok ex1].
    apply IH.
Qed.

(** The cancellations of a placement, in closed form. *)
Lemma cancel_phase_spec now cond tok side price (w : World E) :
  (1 <= max_orders_per_token self)%Z ->
  let l := default [] (od_get tok (live self)) in
  let gone := repriced self side price l in
  let kept := survivors self side price l in
  let k := cap_excess self kept in
  exists w',
    cancel_phase self now cond tok side price w = Ret (w', skipn k kept)
    /\ exchange w'
       = (cancel_all (exchange w) (map venue_order_id (gone ++ firstn k kept))).2
    /\ length (conn w') = (length (conn w) + length gone + k)%nat.
Proof.
  intros Hmax l gone kept k. unfold cancel_phase. fold l.
  destruct (replace_fold now cond side price l [] w) as (Hl & He & Hc); [ intros x [] | ].
  cbv zeta in Hl, He, Hc. cbn [app] in Hl, He, Hc.
  destruct (fold_left (replace_order self now cond side price) l (w, l)) as [w1 existing].
  cbn [fst snd] in Hl, He, Hc. subst existing. fold kept.
  destruct (enforce_cap_spec now cond kept w1 Hmax) as (w' & Hr & He' & Hc').
  exists w'. fold k in Hr, He', Hc'. split; [ exact Hr | ]. split.
  - rewrite He', He. rewrite List.map_app, cancel_all_app. cbn [snd]. reflexivity.
  - rewrite Hc', Hc. reflexivity.
Qed.

Lemma od_get_set_other (k k' : string) (v : list LiveOrderState) (d : LiveTable) :
  k' <> k -> od_get k' (od_set k v d) = od_get k' d.
Proof.
  intros Hne. induction d as [ | [k0 v0] d IH ]; cbn [od_set od_get].
  - destruct (String.eqb_spec k' k) as [Heq | _]; [ contradiction | reflexivity ].
  - destruct (String.eqb_spec k k0) as [-> | Hk]; cbn [od_get].
    + destruct (String.eqb_spec k' k0) as [Heq | _]; [ contradiction | reflexivity ].
    + rewrite IH. reflexivity.
Qed.

(** X16: a placement that the guard lets through at price p, on a manager
    with max_orders_per_token >= 1, returns; it cancels at the venue exactly
    the live orders of that side whose price moved by the repricing
    threshold, then the oldest of the remaining ones until fewer than
    max_orders_per_token are left; it then asks the venue to place, and
    live[token] becomes the newest remaining orders followed by the new order
    when one is appended; one order row is written per cancel and one for the
    placement. *)
Theorem place_or_replace_live_orders (w : World E) (now : Z) (cond tok side : string)
  (price size : Q) (bb ba : option Q) (p : Q) :
  (1 <= max_orders_per_token self)%Z ->
  _guard_post_only self side price bb ba = Some p ->
  let l := default [] (od_get tok (live self)) in
  let gone := repriced self (upper side) p l in
  let kept := survivors self (upper side) p l in
  let k := cap_excess self kept in
  let ex1 := (cancel_all (exchange w) (map venue_order_id (gone ++ firstn k kept))).2 in
  let venue := Exchange.place_limit ex1 tok (upper side) p size (post_only self)
                 [("condition_id", JStr cond)] in
  exists om' w',
    place_or_replace now cond tok side price size bb ba self w = Ret (venue.1, om', w')
    /\ exchange w' = venue.2
    /\ od_get tok (live om')
       = Some (skipn k kept ++ appended_order self now cond tok (upper side) p size venue.1)%list
    /\ length (conn w') = (length (conn w) + length gone + k + 1)%nat.
Proof.
  intros Hmax Hg l gone kept k ex1 venue.
  rewrite place_or_replace_guard, Hg. unfold place_guarded.
  destruct (cancel_phase_spec now cond tok (upper side) p w Hmax) as (w1 & Hc & He & Hn).
  fold l in Hc, He, Hn. fold gone in He, Hn. fold kept in Hc, He, Hn. fold k in Hc, He, Hn.
  rewrite Hc. cbn [mbind pyres_bind].
  unfold place_phase. rewrite He. fold ex1. fold venue.
  destruct venue as [res ex2] eqn:Ev. cbn [fst snd].
  eexists _, _. split; [ reflexivity | ].
  cbn [do_upsert exchange conn with_live live]. split; [ reflexivity | ].
  split; [ apply od_get_set | ].
  unfold Repo.upsert_order. rewrite List.length_app. cbn [length]. lia.
Qed.

(** X17: on a manager with max_orders_per_token >= 1, [place_or_replace]
    always returns; when the guard lets the order through, the token is left
    with at most max_orders_per_token live orders; and the live orders of
    every other token are untouched. *)
Theorem place_or_replace_respects_cap (w : World E) (now : Z) (cond tok side : string)
  (price size : Q) (bb ba : option Q) :
  (1 <= max_orders_per_token self)%Z ->
  exists res om' w',
    place_or_replace now cond tok side price size bb ba self w = Ret (res, om', w')
    /\ (is_Some (_guard_post_only self side price bb ba) ->
        (Z.of_nat (length (default [] (od_get tok (live om')))) <= max_orders_per_token self)%Z)
    /\ (forall tok', tok' <> tok -> od_get tok' (live om') = od_get tok' (live self)).
Proof.
  intros Hmax. rewrite place_or_replace_guard.
  destruct (_guard_post_only self side price bb ba) as [p | ] eqn:Hg.
  2:{ eexists _, _, _. split; [ reflexivity | ]. split; [ intros [? Hx]; discriminate Hx | ].
      intros; reflexivity. }
  unfold place_guarded.
  destruct (cancel_phase_spec now cond tok (upper side) p w Hmax) as (w1 & Hc & _ & _).
  rewrite Hc. cbn [mbind pyres_bind]. unfold place_phase.
  destruct (Exchange.place_limit _ _ _ _ _ _ _) as [res ex2].
  eexists _, _, _. split; [ reflexivity | ]. cbn [with_live live]. split.
  - intros _. rewrite od_get_set. cbn [default].
    set (kept := survivors self (upper side) p (default [] (od_get tok (live self)))).
    unfold id. rewrite List.length_app, length_skipn.
    assert (Ha : (length (appended_order self now cond tok (upper side) p size res) <= 1)%nat).
    { unfold appended_order. destruct (Exchange.success res); [ | cbn; lia ].
      destruct (vid_truthy _); cbn; lia. }
    unfold cap_excess. lia.
  - intros tok' Hne. apply od_get_set_other. exact Hne.
Qed.

(** X18: on a manager with max_orders_per_token <= 0, every placement that
    the guard lets through raises IndexError: the "cap" loop pops from the
    list of live orders until it is empty, and then once more. *)
Theorem place_or_replace_no_capacity (w : World E) (now : Z) (cond tok side : string)
  (price size : Q) (bb ba : option Q) :
  (max_orders_per_token self <= 0)%Z ->
  is_Some (_guard_post_only self side price bb ba) ->
  place_or_replace now cond tok side price size bb ba self w = Raise IndexError.
Proof.
  intros Hmax [p Hg]. rewrite place_or_replace_guard, Hg.
  unfold place_guarded, cancel_phase.
  destruct (fold_left _ _ _) as [w1 existing].
  rewrite enforce_cap_raises by exact Hmax. reflexivity.
Qed.

End PlaceClosedForm.

(** A BUY at 0.48 against a resting BUY at 0.50 and a resting SELL: the
    resting BUY is repriced away, the SELL stays and the new BUY follows it. *)
Lemma place_or_replace_live_orders_witness :
  let om := Examples.manager 2 [Examples.resting_buy; Examples.resting_sell] in
  exists om' w',
    OrderManager.place_or_replace 1001 "cond01" "tok" "BUY" 0.48 10 (Some 0.47) (Some 0.52) om
      (Examples.world_of [Examples.accepted "v3"])
    = Ret (Examples.accepted "v3", om', w')
    /\ map OrderManager.venue_order_id (default [] (OrderManager.od_get "tok" (OrderManager.live om')))
       = ["v2"; "v3"]
    /\ length (OrderManager.conn w') = 2%nat.
Proof.
  cbv zeta.
  destruct (place_or_replace_live_orders
              (Examples.manager 2 [Examples.resting_buy; Examples.resting_sell])
              (Examples.world_of [Examples.accepted "v3"])
              1001 "cond01" "tok" "BUY" 0.48 10 (Some 0.47) (Some 0.52) 0.48)
    as (om' & w' & Hcall & _ & Hlive & Hconn).
  - vm_compute. discriminate.
  - reflexivity.
  - exists om', w'. split; [ exact Hcall | ]. split.
    + rewrite Hlive. reflexivity.
    + rewrite Hconn. reflexivity.
Defined.

Lemma place_or_replace_respects_cap_witness :
  let om := Examples.manager 2 [Examples.resting_buy; Examples.resting_sell] in
  exists res om' w',
    OrderManager.place_or_replace 1001 "cond01" "tok" "BUY" 0.50 10 (Some 0.49) (Some 0.52) om
      (Examples.world_of [Examples.accepted "v3"])
    = Ret (res, om', w')
    /\ (Z.of_nat (length (default [] (OrderManager.od_get "tok" (OrderManager.live om')))) <= 2)%Z.
Proof.
  cbv zeta.
  destruct (place_or_replace_respects_cap
              (Examples.manager 2 [Examples.resting_buy; Examples.resting_sell])
              (Examples.world_of [Examples.accepted "v3"])
              1001 "cond01" "tok" "BUY" 0.50 10 (Some 0.49) (Some 0.52))
    as (res & om' & w' & Hcall & Hcap & _).
  - vm_compute. discriminate.
  - exists res, om', w'. split; [ exact Hcall | ]. apply Hcap. eexists. reflexivity.
Defined.

(** A manager configured with a capacity of zero. *)
Lemma place_or_replace_no_capacity_witness :
  OrderManager.place_or_replace 1001 "cond01" "tok" "BUY" 0.50 10 (Some 0.49) (Some 0.52)
    (Examples.manager 0 [Examples.resting_sell]) (Examples.world_of [Examples.accepted "v3"])
  = Raise IndexError.
Proof.
  apply (place_or_replace_no_capacity (Examples.manager 0 [Examples.resting_sell])).
  - vm_compute. discriminate.
  - eexists. reflexivity.
Defined.

(** ** pmm/execution/order_manager.py: repeating cancel_stale *)

Section StaleAgainProofs.
Import OrderManager.
Context {E : Type} `{Exchange.ExchangeBase E} {R : Type}.

Lemma cancel_stale_orders_noop (self : OrderManager R) (now : Z) (lst keep : list LiveOrderState)
  (w : World E) (cancels : Z) :
  Forall (fun o => is_stale self now o = false) lst ->
  fold_left (cancel_stale_order self now) lst (w, cancels, keep) = (w, cancels, (keep ++ lst)%list).
Proof.
  intros Hall. revert keep. induction Hall as [ | o lst Ho _ IH ]; intros keep.
  - cbn. rewrite app_nil_r. reflexivity.
  - cbn [fold_left]. rewrite (cancel_stale_order_fresh self now w cancels keep o Ho).
    rewrite IH, <- app_assoc. reflexivity.
Qed.

Lemma cancel_stale_tokens_noop (self : OrderManager R) (now : Z) (items done : LiveTable)
  (w : World E) (cancels : Z) :
  List.NoDup (map fst (done ++ items)%list) ->
  Forall (fun o => is_stale self now o = false) (flat_map snd items) ->
  fold_left (cancel_stale_token self now) items (w, cancels, (done ++ items)%list)
  = (w, cancels, (done ++ items)%list).
Proof.
  revert done. induction items as [ | [tok lst] items IH ]; intros done Hnd Hall; [ reflexivity | ].
  cbn [flat_map snd] in Hall. apply List.Forall_app in Hall. destruct Hall as [Hlst Hrest].
  cbn [fold_left]. rewrite cancel_stale_token_eq. cbv zeta.
  rewrite (cancel_stale_orders_noop self now lst [] w cancels Hlst). cbn [fst snd app].
  assert (Hk : ~ In tok (map fst done)).
  { rewrite map_app in Hnd. cbn [map fst] in Hnd. apply NoDup_remove_2 in Hnd.
    intros Hin. apply Hnd. apply in_or_app. left. exact Hin. }
  rewrite od_set_skip by exact Hk.
  change (done ++ (tok, lst) :: items)%list with (done ++ [(tok, lst)] ++ items)%list.
  rewrite app_assoc. apply IH; [ | exact Hrest ].
  rewrite <- app_assoc. exact Hnd.
Qed.

Lemma is_stale_with_live (om : OrderManager R) (t : LiveTable) (now : Z) (o : LiveOrderState) :
  is_stale (with_live om t) now o = is_stale om now o.
Proof. reflexivity. Qed.

Lemma with_live_same (om : OrderManager R) : with_live om (live om) = om.
Proof. destruct om; reflexivity. Qed.

Lemma od_get_map (f : list LiveOrderState -> list LiveOrderState) (tok : string) (d : LiveTable) :
  od_get tok (map (fun it => (it.1, f it.2)) d) = option_map f (od_get tok d).
Proof.
  induction d as [ | [k v] d IH ]; [ reflexivity | ].
  cbn [map od_get fst snd]. destruct (String.eqb tok k); [ reflexivity | exact IH ].
Qed.

(** X19: [cancel_stale] leaves every token with exactly its orders that are
    not stale, in order, and keeps every token of the table; right after it
    no live order is stale, and a second call at the same time cancels
    nothing, writes nothing and changes nothing. *)
Theorem cancel_stale_idempotent (now : Z) (om : OrderManager R) (w : World E) :
  List.NoDup (map fst (live om)) ->
  let r := cancel_stale now om w in
  (forall tok, od_get tok (live r.1.2)
               = option_map (List.filter (fun o => negb (is_stale om now o)))
                            (od_get tok (live om)))
  /\ map fst (live r.1.2) = map fst (live om)
  /\ stale_orders r.1.2 now = []
  /\ cancel_stale now r.1.2 r.2 = (0%Z, r.1.2, r.2).
Proof.
  intros Hnd. cbv zeta.
  destruct (cancel_stale_spec now om w Hnd) as (_ & Hom & _).
  set (r := cancel_stale now om w) in *. rewrite Hom.
  cbn [with_live live]. unfold fresh_table.
  assert (Hkeys : map fst (map (fun it : string * list LiveOrderState =>
                                  (it.1, List.filter (fun o => negb (is_stale om now o)) it.2))
                               (live om)) = map fst (live om)).
  { rewrite map_map. reflexivity. }
  assert (Hfresh : Forall (fun o => is_stale (with_live om (fresh_table om now)) now o = false)
                     (flat_map snd (fresh_table om now))).
  { unfold fresh_table. apply List.Forall_forall. intros o Ho.
    apply in_flat_map in Ho. destruct Ho as ([k v] & Hin & Ho).
    apply in_map_iff in Hin. destruct Hin as ([k0 v0] & [= <- <-] & _).
    cbn [snd] in Ho. apply filter_In in Ho. destruct Ho as [_ Ho].
    rewrite is_stale_with_live.
    destruct (is_stale om now o); [ discriminate Ho | reflexivity ]. }
  split; [ intros tok; apply od_get_map | ]. split; [ exact Hkeys | ]. split.
  - unfold stale_orders. cbn [with_live live]. fold (fresh_table om now).
    induction Hfresh as [ | o l Ho _ IH ]; [ reflexivity | ].
    cbn [List.filter]. rewrite Ho. exact IH.
  - fold (fresh_table om now). unfold cancel_stale.
    pose proof (cancel_stale_tokens_noop (with_live om (fresh_table om now)) now
                  (fresh_table om now) [] r.2 0%Z) as Hno.
    cbn [app] in Hno. cbn [with_live live].
    rewrite Hno; [ | unfold fresh_table; rewrite Hkeys; exact Hnd | exact Hfresh ].
    reflexivity.
Qed.

End StaleAgainProofs.

Lemma cancel_stale_idempotent_witness :
  let om := Examples.manager 2 [Examples.resting_buy; Examples.resting_sell] in
  let r := OrderManager.cancel_stale 1100 om (Examples.world_of []) in
  OrderManager.stale_orders r.1.2 1100 = []
  /\ OrderManager.cancel_stale 1100 r.1.2 r.2 = (0%Z, r.1.2, r.2).
Proof.
  cbv zeta.
  destruct (cancel_stale_idempotent 1100
              (Examples.manager 2 [Examples.resting_buy; Examples.resting_sell])
              (Examples.world_of [])) as (_ & _ & Hs & Hagain).
  - repeat constructor. intros [].
  - split; [ exact Hs | exact Hagain ].
Defined.

(** ** pmm/db/repo.py: the orders table *)

Section OrdersTableProofs.

Lemma orders_table_app (c rest : Repo.Conn) :
  Repo.orders_table (c ++ rest)%list
  = fold_left (fun t s => match s with
                          | Repo.UpsertOrder row => Repo.apply_upsert t row
                          | Repo.InsertTrade _ => t
                          end) rest (Repo.orders_table c).
Proof. unfold Repo.orders_table. apply fold_left_app. Qed.

(** One upsert, seen from any key of the table. *)
Lemma apply_upsert_lookup (t : gmap (string * string) Repo.OrderRow) (row : Repo.OrderRow)
  (k : string * string) :
  Repo.apply_upsert t row !! k
  = if decide (k = (Repo.run_id row, Repo.local_order_id row))
    then Some {| Repo.run_id := Repo.run_id row;
                 Repo.local_order_id := Repo.local_order_id row;
                 Repo.venue_order_id := Repo.venue_order_id row;
                 Repo.condition_id :=
                   match Repo.condition_id row with
                   | Some c => Some c
                   | None => t !! k ≫= Repo.condition_id
                   end;
                 Repo.token_id := Repo.token_id row;
                 Repo.side := Repo.side row;
                 Repo.price := Repo.price row;
                 Repo.size := Repo.size row;
                 Repo.post_only := Repo.post_only row;
                 Repo.status := Repo.status row;
                 Repo.created_ts := default (Repo.created_ts row) (Repo.created_ts <$> t !! k);
                 Repo.updated_ts := Repo.updated_ts row;
                 Repo.meta_json := Repo.meta_json row |}
    else t !! k.
Proof.
  unfold Repo.apply_upsert. destruct (decide (k = _)) as [-> | Hne].
  - destruct (t !! (Repo.run_id row, Repo.local_order_id row)) as [old | ] eqn:Hold.
    + rewrite lookup_insert_eq. cbn. reflexivity.
    + rewrite lookup_insert_eq. cbn. destruct row as [? ? ? [c | ] ? ? ? ? ? ? ? ? ?]; reflexivity.
  - destruct (t !! (Repo.run_id row, Repo.local_order_id row));
      rewrite lookup_insert_ne by (intros Heq; apply Hne; symmetry; exact Heq); reflexivity.
Qed.

(** X20: the orders table only grows: a row that has been stored under a
    key is never removed by later [upsert_order] and [insert_trade]
    statements; its created_ts stays the one of the first write under that
    key, and a condition id, once stored, is never replaced by null (the
    rows that [cancel_stale] writes carry a null condition id). *)
Theorem orders_table_keeps_rows (c rest : Repo.Conn) (k : string * string) (r : Repo.OrderRow) :
  Repo.orders_table c !! k = Some r ->
  exists r',
    Repo.orders_table (c ++ rest)%list !! k = Some r'
    /\ Repo.created_ts r' = Repo.created_ts r
    /\ (is_Some (Repo.condition_id r) -> is_Some (Repo.condition_id r')).
Proof.
  rewrite orders_table_app. generalize (Repo.orders_table c). intros t. revert t r.
  induction rest as [ | s rest IH ]; intros t r Hk; cbn [fold_left].
  - exists r. split; [ exact Hk | ]. split; [ reflexivity | tauto ].
  - destruct s as [row | tr]; [ | apply IH; exact Hk ].
    pose proof (apply_upsert_lookup t row k) as Hup. rewrite Hk in Hup. cbn in Hup.
    destruct (decide (k = (Repo.run_id row, Repo.local_order_id row))) as [Ek | Hne].
    + destruct (IH _ _ Hup) as (r' & Hr' & Hts & Hcond). exists r'.
      split; [ exact Hr' | ]. split; [ rewrite Hts; reflexivity | ].
      intros Hsome. apply Hcond. cbn [Repo.condition_id].
      destruct (Repo.condition_id row); [ eexists; reflexivity | exact Hsome ].
    + apply (IH _ _ Hup).
Qed.

(** The row found under the key of the latest upsert. *)
Lemma orders_table_last_upsert (c : Repo.Conn) (row : Repo.OrderRow) :
  exists r,
    Repo.orders_table (Repo.upsert_order c row)
      !! (Repo.run_id row, Repo.local_order_id row) = Some r
    /\ Repo.token_id r = Repo.token_id row
    /\ Repo.venue_order_id r = Repo.venue_order_id row
    /\ Repo.status r = Repo.status row.
Proof.
  unfold Repo.upsert_order. rewrite orders_table_app. cbn [fold_left].
  rewrite apply_upsert_lookup. rewrite decide_True by reflexivity.
  eexists. split; [ reflexivity | ]. repeat split.
Qed.

End OrdersTableProofs.

(** A placement at 1000 followed by the stale cancel at 1100, which writes a
    null condition id: the row keeps its creation time and its condition
    id. *)
Lemma orders_table_keeps_rows_witness :
  let placed := Repo.upsert_order []
                  (OrderManager.place_row (Examples.manager 2 []) "cond01" "tok" "BUY" 0.50 10
                     1000 None None (Examples.accepted "v1")) in
  let cancelled := [ Repo.UpsertOrder
                       (OrderManager.cancel_row (Examples.manager 2 []) Examples.resting_buy None
                          "BUY" 1100 true [("reason", JStr "stale"); ("ok", JBool true)]) ] in
  exists r',
    Repo.orders_table (placed ++ cancelled)%list
      !! ("0f8fad5b-d9cb-469f-a165-70867728950e", "0f8fad5b-cond01-1000-BUY") = Some r'
    /\ Repo.created_ts r' = 1000%Z
    /\ is_Some (Repo.condition_id r').
Proof.
  cbv zeta.
  match goal with |- context [Repo.orders_table (?c ++ ?rest)%list] =>
    destruct (orders_table_keeps_rows c rest
                ("0f8fad5b-d9cb-469f-a165-70867728950e", "0f8fad5b-cond01-1000-BUY")
                (OrderManager.place_row (Examples.manager 2 []) "cond01" "tok" "BUY" 0.50 10
                   1000 None None (Examples.accepted "v1")))
      as (r' & Hr & Hts & Hcond)
  end.
  - vm_compute. reflexivity.
  - exists r'. split; [ exact Hr | ]. split; [ exact Hts | ].
    apply Hcond. eexists. reflexivity.
Defined.

(** ** pmm/execution/order_manager.py: local order ids and the guard *)

Section LocalIdProofs.
Import OrderManager.
Context {E : Type} `{Exchange.ExchangeBase E} {R : Type}.

Lemma place_or_replace_row (self : OrderManager R) (w : World E)
  now cond tok side price size bb ba p res om' w' :
  _guard_post_only self side price bb ba = Some p ->
  place_or_replace now cond tok side price size bb ba self w = Ret (res, om', w') ->
  exists c, conn w' = Repo.upsert_order c
                        (place_row self cond tok (upper side) p size now bb ba res).
Proof.
  intros Hg Hcall. rewrite place_or_replace_guard, Hg in Hcall.
  destruct (place_guarded_spec _ _ _ _ _ _ _ _ _ _ _ _ _ Hcall) as (w1 & _ & _ & _ & _ & Hconn).
  exists (conn w1). exact Hconn.
Qed.

(** X21: the local order id is built from the run id, the condition id, the
    second and the side, not from the token. Two placements of the same side
    made in the same second for the two tokens of one market, by managers of
    the same run, are stored under one key of the orders table: after the
    second placement the row under that key describes the second token, and
    no row describes the first placement. *)
Theorem placements_share_order_row (omA omB : OrderManager R) (w wA wB : World E)
  (now : Z) (cond tokA tokB sideA sideB : string)
  (priceA sizeA priceB sizeB : Q) (bbA baA bbB baB : option Q)
  (resA resB : Exchange.PlaceOrderResult) (omA' omB' : OrderManager R) :
  run_id omA = run_id omB ->
  upper sideA = upper sideB ->
  is_Some (_guard_post_only omA sideA priceA bbA baA) ->
  is_Some (_guard_post_only omB sideB priceB bbB baB) ->
  place_or_replace now cond tokA sideA priceA sizeA bbA baA omA w = Ret (resA, omA', wA) ->
  place_or_replace now cond tokB sideB priceB sizeB bbB baB omB wA = Ret (resB, omB', wB) ->
  let key := (run_id omA, make_local_order_id omA cond now (upper sideA)) in
  (exists rA, Repo.orders_table (conn wA) !! key = Some rA /\ Repo.token_id rA = tokA)
  /\ (exists rB, Repo.orders_table (conn wB) !! key = Some rB
                 /\ Repo.token_id rB = tokB
                 /\ Repo.venue_order_id rB = Exchange.venue_order_id resB).
Proof.
  intros Hrun Hside [pA HgA] [pB HgB] HcallA HcallB key.
  destruct (place_or_replace_row _ _ _ _ _ _ _ _ _ _ _ _ _ _ HgA HcallA) as (cA & HA).
  destruct (place_or_replace_row _ _ _ _ _ _ _ _ _ _ _ _ _ _ HgB HcallB) as (cB & HB).
  split.
  - rewrite HA. destruct (orders_table_last_upsert cA
                            (place_row omA cond tokA (upper sideA) pA sizeA now bbA baA resA))
      as (r & Hr & Htok & _).
    exists r. split; [ exact Hr | exact Htok ].
  - rewrite HB. destruct (orders_table_last_upsert cB
                            (place_row omB cond tokB (upper sideB) pB sizeB now bbB baB resB))
      as (r & Hr & Htok & Hvid & _).
    exists r. split; [ | split; [ exact Htok | exact Hvid ] ].
    unfold key. rewrite <- Hr. cbn [place_row Repo.run_id Repo.local_order_id].
    unfold make_local_order_id. rewrite Hrun, Hside. reflexivity.
Qed.

(** X22: with post_only enabled and a positive tick (the tick of a manager
    built by the constructor is positive, 1e-3 standing in when there is
    none), a price that the guard returns never crosses the book: for a BUY
    it is strictly below the best ask, for a SELL strictly above the best
    bid, whenever that quote is present. *)
Theorem guard_never_crosses (self : OrderManager R) (side : string) (price : Q)
  (bb ba : option Q) (p : Q) :
  post_only self = true ->
  0 < tick_or self 0.001 ->
  _guard_post_only self side price bb ba = Some p ->
  (upper side = "BUY" -> forall a, ba = Some a -> p < a)
  /\ (upper side = "SELL" -> forall b, bb = Some b -> b < p).
Proof.
  intros Hpo Htick Hg. unfold _guard_post_only in Hg. rewrite Hpo in Hg. cbn [negb] in Hg.
  split.
  - intros Hside a ->. rewrite Hside in Hg. cbn [String.eqb Ascii.eqb Bool.eqb andb] in Hg.
    destruct (Qleb a price) eqn:Hc.
    + destruct (Qltb 0 (a - tick_or self 0.001)); [ | discriminate Hg ].
      injection Hg as <-. lra.
    + apply Qleb_false in Hc. change (String.eqb "BUY" "SELL") with false in Hg.
      destruct bb; cbn [andb] in Hg; injection Hg as <-; exact Hc.
  - intros Hside b ->. rewrite Hside in Hg.
    change (String.eqb "SELL" "BUY") with false in Hg.
    change (String.eqb "SELL" "SELL") with true in Hg. cbn [andb] in Hg.
    assert (Hg' : (if Qleb price b
                   then if Qltb (b + tick_or self 0.001) 1
                        then Some (b + tick_or self 0.001) else None
                   else Some price) = Some p).
    { destruct ba; exact Hg. }
    clear Hg. destruct (Qleb price b) eqn:Hc.
    + destruct (Qltb (b + tick_or self 0.001) 1); [ | discriminate Hg' ].
      injection Hg' as <-. lra.
    + apply Qleb_false in Hc. injection Hg' as <-. exact Hc.
Qed.

End LocalIdProofs.

Section ConstructorProofs.
Import OrderManager.
Context {R : Type} `{PyRandom R} {U : Type} `{PyUuid U}.

(** The constructor keeps a tick only when it is positive. *)
Lemma init_tick_positive (run_id : string) (max_orders : Z) (cancel_reprice : Q)
  (post_only : bool) (tick : option Q) :
  0 < tick_or (OrderManager_init (R := R) (U := U) run_id max_orders cancel_reprice post_only tick)
              0.001.
Proof.
  unfold tick_or, OrderManager_init. cbn [tick_size].
  destruct tick as [t | ]; [ | reflexivity ].
  destruct (Qeqb t 0) eqn:Hz; cbn [negb andb]; [ reflexivity | ].
  destruct (Qltb 0 t) eqn:Hp; [ | reflexivity ].
  rewrite Hz. apply Qltb_true in Hp. exact Hp.
Qed.

End ConstructorProofs.

(** A BUY at 0.55 against a best ask of 0.52 on a manager built by the
    constructor with tick 0.01: the guard returns a price below the ask. *)
Lemma guard_never_crosses_witness :
  let om : OrderManager.OrderManager Z :=
    OrderManager.OrderManager_init (U := nat)
      "0f8fad5b-d9cb-469f-a165-70867728950e" 2 15 true (Some 0.01) in
  exists p, OrderManager._guard_post_only om "BUY" 0.55 (Some 0.49) (Some 0.52) = Some p
            /\ p < 0.52.
Proof.
  cbv zeta. eexists. split; [ vm_compute; reflexivity | ].
  match goal with |- ?p < _ =>
    destruct (guard_never_crosses
                (OrderManager.OrderManager_init (R := Z) (U := nat)
                   "0f8fad5b-d9cb-469f-a165-70867728950e" 2 15 true (Some 0.01))
                "BUY" 0.55 (Some 0.49) (Some 0.52) p) as [Hbuy _]
  end.
  - reflexivity.
  - apply init_tick_positive.
  - vm_compute. reflexivity.
  - apply (Hbuy eq_refl 0.52 eq_refl).
Defined.

(** A BUY on the YES token and a BUY on the NO token of one market, placed in
    the same second by two managers of the same run. *)
Lemma placements_share_order_row_witness :
  let key := ("0f8fad5b-d9cb-469f-a165-70867728950e", "0f8fad5b-cond01-1001-BUY") in
  exists resA omA' wA resB omB' wB rB,
    OrderManager.place_or_replace 1001 "cond01" "yes" "BUY" 0.48 10 (Some 0.47) (Some 0.52)
      (Examples.manager 2 []) (Examples.world_of [Examples.accepted "v1"; Examples.accepted "v2"])
    = Ret (resA, omA', wA)
    /\ OrderManager.place_or_replace 1001 "cond01" "no" "BUY" 0.50 10 (Some 0.49) (Some 0.53)
         (Examples.manager 2 []) wA
       = Ret (resB, omB', wB)
    /\ Repo.orders_table (OrderManager.conn wB) !! key = Some rB
    /\ Repo.token_id rB = "no".
Proof.
  cbv zeta. do 6 eexists.
  match goal with |- exists rB, ?callA /\ ?callB /\ _ =>
    assert (HA : callA) by (vm_compute; reflexivity);
    assert (HB : callB) by (vm_compute; reflexivity)
  end.
  pose proof (fun h1 h2 h3 h4 =>
                placements_share_order_row _ _ _ _ _ _ _ _ _ _ _ _ _ _ _ _ _ _ _ _ _ _ _
                  h1 h2 h3 h4 HA HB) as Hshare.
  destruct (Hshare eq_refl eq_refl (ex_intro _ 0.48 eq_refl) (ex_intro _ 0.50 eq_refl))
    as (_ & rB & Hr & Htok & _).
  exists rB. split; [ exact HA | ]. split; [ exact HB | ]. split; [ exact Hr | exact Htok ].
Defined.

(** ** pmm/execution/order_manager.py: what the fill simulator conserves *)

Section SimConservationProofs.
Import OrderManager.
Context {E : Type} `{Exchange.ExchangeBase E} {R : Type} `{PyRandom R} `{PyMath}
        {U : Type} `{PyUuid U}.

Lemma fill_size_bounds (remaining x : Q) :
  0 < remaining ->
  0 < py_min (py_max 0.000001 x) remaining <= remaining.
Proof.
  intros Hr. pose proof (py_max_ge_l 0.000001 x) as Hm.
  unfold py_min. destruct (Qlt_le_dec remaining (py_max 0.000001 x)); lra.
Qed.

(** What the loop body decides for one order. *)
Lemma decide_fill_spec (inp : SimInput) (tick intensity base_p : Q) (rng rng' : R)
  (o : LiveOrderState) (d : Decision) :
  decide_fill inp tick intensity base_p rng o = Ret (rng', d) ->
  match d with
  | Dropped => size o <= 0.000000001
  | Kept => 0.000000001 < size o
  | Filled f =>
    0.000000001 < size o
    /\ fd_fill_size f + fd_new_remaining f == size o
    /\ 0 < fd_fill_size f
    /\ 0 <= fd_new_remaining f
    /\ fd_status f = (if Qleb (fd_new_remaining f) 0.000000001 then "FILLED" else "PARTIAL")
    /\ fd_px f = price o
    /\ fd_side f = upper (side o)
  end.
Proof.
  intros Hd. unfold decide_fill in Hd. cbv zeta in Hd.
  destruct (Qleb (size o) 0.000000001) eqn:Hdust.
  { injection Hd as <- <-. apply Qleb_true in Hdust. exact Hdust. }
  apply Qleb_false in Hdust.
  match type of Hd with
  | mbind _ ?m = _ => destruct m as [sf | e]; [ | discriminate Hd ]
  end.
  cbn [mbind pyres_bind] in Hd.
  destruct (random rng) as [u1 rng1].
  match type of Hd with
  | (if ?b then _ else _) = _ => destruct b
  end.
  { injection Hd as <- <-. exact Hdust. }
  match type of Hd with
  | context [gauss ?r ?m ?s] => destruct (gauss r m s) as [eps rng2]
  end.
  match type of Hd with
  | (let '(frac, rng) := ?e in _) = _ => destruct e as [frac rngf]
  end.
  injection Hd as <- <-. cbn [fd_fill_size fd_new_remaining fd_status fd_px fd_side].
  assert (Hpos : 0 < size o) by lra.
  pose proof (fill_size_bounds (size o) (size o * frac) Hpos) as [Hf1 Hf2].
  split; [ exact Hdust | ]. split; [ ring | ]. split; [ exact Hf1 | ].
  split; [ lra | ]. repeat split.
Qed.

Lemma inject_nat_succ (n : nat) :
  inject_Z (Z.of_nat (S n)) == inject_Z (Z.of_nat n) + 1.
Proof. rewrite Nat2Z.inj_succ, <- Z.add_1_r, inject_Z_plus. reflexivity. Qed.

(** The state of the loop of [simulate_fills] after a list of orders. *)
Lemma sim_loop_spec (self : OrderManager R) (inp : SimInput) (now : Z)
  (tick intensity base_p : Q) (lst : list LiveOrderState) (st st' : @SimState E R U) :
  sim_loop self inp now tick intensity base_p lst st = Ret st' ->
  exists (new : list Repo.TradeRow) (kept : list LiveOrderState),
    Repo.trades_of (conn (st_world st')) = (Repo.trades_of (conn (st_world st)) ++ new)%list
    /\ exchange (st_world st') = exchange (st_world st)
    /\ fills (st_out st') = (fills (st_out st) + Z.of_nat (length new))%Z
    /\ st_keep st' = (st_keep st ++ kept)%list
    /\ Allocator.sumQ (map Repo.t_size new) + Allocator.sumQ (map size kept)
       <= Allocator.sumQ (map size (List.filter open_size lst))
    /\ Allocator.sumQ (map size (List.filter open_size lst))
       <= Allocator.sumQ (map Repo.t_size new) + Allocator.sumQ (map size kept)
          + 0.000000001 * inject_Z (Z.of_nat (length new))
    /\ Forall (fun o => 0.000000001 < size o) kept
    /\ Forall (fun t => 0 < Repo.t_size t /\ Repo.t_token_id t = s_token_id inp
                        /\ Repo.t_ts t = now) new
    /\ (length kept <= length lst)%nat.
Proof.
  revert st st'. induction lst as [ | o lst IH ]; intros st st' Hloop; cbn [sim_loop] in Hloop.
  - injection Hloop as <-. exists [], []. rewrite !app_nil_r. cbn.
    repeat split; try lia; try constructor; try discriminate.
  - destruct (sim_order self inp now tick intensity base_p st o) as [st1 | e] eqn:Hone;
      [ | discriminate Hloop ].
    cbn [mbind pyres_bind] in Hloop.
    destruct (IH st1 st' Hloop)
      as (new & kept & Ht & Hex & Hf & Hk & Hlo & Hhi & Hopen & Hnew & Hlen).
    unfold sim_order in Hone.
    destruct (decide_fill inp tick intensity base_p (st_rng st) o) as [[rng d] | e] eqn:Hdec;
      [ | discriminate Hone ].
    pose proof (decide_fill_spec _ _ _ _ _ _ _ _ Hdec) as Hspec.
    cbn [mbind pyres_bind] in Hone. cbn [List.filter].
    change (open_size o) with (Qltb 0.000000001 (size o)).
    destruct d as [ | | f ].
    + (* dropped *)
      injection Hone as <-.
      assert (Hb : Qltb 0.000000001 (size o) = false) by (apply Qltb_false; exact Hspec).
      rewrite Hb. exists new, kept.
      split; [ exact Ht | ]. split; [ exact Hex | ]. split; [ exact Hf | ].
      split; [ exact Hk | ]. split; [ exact Hlo | ]. split; [ exact Hhi | ].
      split; [ exact Hopen | ]. split; [ exact Hnew | cbn [length]; lia ].
    + (* kept *)
      injection Hone as <-. cbn [st_world st_out st_keep] in *.
      assert (Hb : Qltb 0.000000001 (size o) = true) by (apply Qltb_true; exact Hspec).
      rewrite Hb. exists new, (o :: kept).
      split; [ exact Ht | ]. split; [ exact Hex | ]. split; [ exact Hf | ].
      split; [ rewrite Hk, <- app_assoc; reflexivity | ].
      cbn [map]. rewrite !sumQ_cons.
      split; [ lra | ]. split; [ lra | ].
      split; [ constructor; assumption | ]. split; [ exact Hnew | cbn [length]; lia ].
    + (* filled *)
      destruct Hspec as (Hopen_o & Hsplit & Hfpos & Hrem & Hstatus & Hpx & Hside).
      injection Hone as <-.
      assert (Hb : Qltb 0.000000001 (size o) = true) by (apply Qltb_true; exact Hopen_o).
      rewrite Hb. unfold record_fill in Ht, Hex, Hf, Hk.
      destruct (uuid4 (st_uuid st)) as [id u1].
      cbn [st_world st_out st_keep conn exchange fills] in Ht, Hex, Hf, Hk.
      rewrite trades_of_upsert, trades_of_insert in Ht.
      match type of Ht with
      | _ = ((_ ++ [?t]) ++ _)%list => set (trade := t) in *
      end.
      assert (Htrade : Repo.t_size trade = fd_fill_size f) by reflexivity.
      assert (Hrow : 0 < Repo.t_size trade /\ Repo.t_token_id trade = s_token_id inp
                     /\ Repo.t_ts trade = now) by (repeat split; exact Hfpos).
      clearbody trade. rewrite Hstatus in Hk.
      pose proof (inject_nat_succ (length new)) as Hsucc.
      destruct (Qleb (fd_new_remaining f) 0.000000001) eqn:Hfull.
      * (* FILLED: the order leaves the table *)
        change (String.eqb "FILLED" "PARTIAL") with false in Hk.
        apply Qleb_true in Hfull.
        exists (trade :: new), kept.
        split; [ rewrite Ht, <- app_assoc; reflexivity | ]. split; [ exact Hex | ].
        split; [ rewrite Hf; cbn [length]; lia | ]. split; [ exact Hk | ].
        cbn [map length]. rewrite !sumQ_cons, Htrade, Hsucc.
        split; [ lra | ]. split; [ lra | ].
        split; [ exact Hopen | ].
        split; [ constructor; [ exact Hrow | exact Hnew ] | lia ].
      * (* PARTIAL: the order stays with what is left *)
        change (String.eqb "PARTIAL" "PARTIAL") with true in Hk. cbv iota in Hk.
        apply Qleb_false in Hfull.
        match type of Hk with
        | _ = ((_ ++ [?o']) ++ _)%list => set (o_left := o') in *
        end.
        assert (Hleft : size o_left = fd_new_remaining f) by reflexivity.
        clearbody o_left.
        exists (trade :: new), (o_left :: kept).
        split; [ rewrite Ht, <- app_assoc; reflexivity | ]. split; [ exact Hex | ].
        split; [ rewrite Hf; cbn [length]; lia | ].
        split; [ rewrite Hk, <- app_assoc; reflexivity | ].
        cbn [map length]. rewrite !sumQ_cons, Htrade, Hleft, Hsucc.
        split; [ lra | ]. split; [ lra | ].
        split; [ constructor; [ rewrite Hleft; exact Hfull | exact Hopen ] | ].
        split; [ constructor; [ exact Hrow | exact Hnew ] | cbn [length]; lia ].
Qed.

Lemma q_inv_returns (k x : Q) :
  0 <= k -> exists v, q_inv (1 + k * py_max 0 x) = Ret v.
Proof.
  intros Hk. unfold q_inv. destruct (Qeqb _ 0) eqn:Hz; [ | eauto ].
  apply Qeqb_true in Hz. pose proof (py_max_ge_l 0 x) as Hm.
  pose proof (Qmult_le_0_compat _ _ Hk Hm). lra.
Qed.

(** The loop body raises only in the division of the spread factor. *)
Lemma decide_fill_returns (inp : SimInput) (tick intensity base_p : Q) (rng : R)
  (o : LiveOrderState) :
  0 <= PMM_PAPER_SPREAD_K (s_env inp) ->
  exists r, decide_fill inp tick intensity base_p rng o = Ret r.
Proof.
  intros Hk. unfold decide_fill. cbv zeta.
  destruct (Qleb (size o) 0.000000001); [ eauto | ].
  match goal with
  | |- exists r, mbind _ ?m = _ => assert (Hm : exists sf, m = Ret sf)
  end.
  { destruct (s_best_bid inp), (s_best_ask inp); eauto.
    destruct (String.eqb _ "factor"); eauto. apply q_inv_returns. exact Hk. }
  destruct Hm as [sf ->]. cbn [mbind pyres_bind].
  destruct (random rng) as [u1 rng1].
  match goal with
  | |- exists r, (if ?b then _ else _) = _ => destruct b
  end; [ eauto | ].
  match goal with
  | |- context [gauss ?r ?m ?s] => destruct (gauss r m s) as [eps rng2]
  end.
  match goal with
  | |- exists r, (let '(frac, rng) := ?e in _) = _ => destruct e as [frac rngf]
  end.
  eauto.
Qed.

Lemma sim_loop_returns (self : OrderManager R) (inp : SimInput) (now : Z)
  (tick intensity base_p : Q) (lst : list LiveOrderState) (st : @SimState E R U) :
  0 <= PMM_PAPER_SPREAD_K (s_env inp) ->
  exists st', sim_loop self inp now tick intensity base_p lst st = Ret st'.
Proof.
  intros Hk. revert st. induction lst as [ | o lst IH ]; intros st; cbn [sim_loop].
  - eauto.
  - unfold sim_order.
    destruct (decide_fill_returns inp tick intensity base_p (st_rng st) o Hk) as [[rng d] ->].
    cbn [mbind pyres_bind]. destruct d; cbn [mbind pyres_bind]; apply IH.
Qed.

(** X23. A paper simulation that runs (paper venue, simulation enabled, a
    live order for the token) with a non-negative spread constant returns,
    and accounts for the size it was given: it writes one trade per counted
    fill and touches no other row of trades nor the venue; the size of the
    new trades and of the orders it leaves live is at most the size of the
    orders that had more than 1e-9 left, and falls short of it by at most
    1e-9 for each fill; every order it leaves live has more than 1e-9 left,
    every new trade has a positive size, the token and the timestamp of the
    call; the token has no more live orders than before and the other tokens
    keep theirs. *)
Theorem simulate_fills_accounts_for_size (inp : SimInput) (ts : option Z) (clock : Z)
  (self : OrderManager R) (w : World E) (u : U) :
  sim_active inp self w = true ->
  0 <= PMM_PAPER_SPREAD_K (s_env inp) ->
  exists out self' w' u',
    simulate_fills inp ts clock self w u = Ret (out, self', w', u')
    /\ let before := default [] (od_get (s_token_id inp) (live self)) in
       let after := default [] (od_get (s_token_id inp) (live self')) in
       let new := trades_since (conn w) (conn w') in
       Repo.trades_of (conn w') = (Repo.trades_of (conn w) ++ new)%list
       /\ exchange w' = exchange w
       /\ fills out = Z.of_nat (length new)
       /\ Allocator.sumQ (map Repo.t_size new) + Allocator.sumQ (map size after)
          <= Allocator.sumQ (map size (List.filter open_size before))
       /\ Allocator.sumQ (map size (List.filter open_size before))
          <= Allocator.sumQ (map Repo.t_size new) + Allocator.sumQ (map size after)
             + 0.000000001 * inject_Z (Z.of_nat (length new))
       /\ Forall (fun o => 0.000000001 < size o) after
       /\ Forall (fun t => 0 < Repo.t_size t /\ Repo.t_token_id t = s_token_id inp
                           /\ Repo.t_ts t = default clock ts) new
       /\ (length after <= length before)%nat
       /\ forall tok, tok <> s_token_id inp -> od_get tok (live self') = od_get tok (live self).
Proof.
  intros Hact Hk. unfold sim_active in Hact.
  apply andb_prop in Hact as [Hact Hlst]. apply andb_prop in Hact as [Hpaper Hon].
  unfold simulate_fills. cbv zeta. rewrite Hpaper, Hon. cbn [negb].
  destruct (default [] (od_get (s_token_id inp) (live self))) as [ | o0 lst0 ] eqn:Hlive;
    [ discriminate Hlst | ].
  match goal with
  | |- context [sim_loop ?a ?b ?c ?d ?e ?f ?l ?st] =>
    destruct (sim_loop_returns a b c d e f l st Hk) as [st' Hloop];
    rewrite Hloop; pose proof (sim_loop_spec _ _ _ _ _ _ _ _ _ Hloop) as Hspec
  end.
  cbn [mbind pyres_bind].
  destruct Hspec as (new & kept & Ht & Hex & Hf & Hkeep & Hlo & Hhi & Hopen & Hnew & Hlen).
  cbn [st_world st_out st_keep fills SimFillStats0 app] in Ht, Hex, Hf, Hkeep.
  do 4 eexists. split; [ reflexivity | ].
  cbn [live with_rng with_live]. rewrite od_get_set. cbn [default].
  assert (Hsince : trades_since (conn w) (conn (st_world st')) = new).
  { unfold trades_since. rewrite Ht. rewrite skipn_app, Nat.sub_diag, skipn_all.
    reflexivity. }
  rewrite Hsince, Hkeep.
  split; [ exact Ht | ]. split; [ exact Hex | ]. split; [ rewrite Hf; lia | ].
  split; [ exact Hlo | ]. split; [ exact Hhi | ]. split; [ exact Hopen | ].
  split; [ | split; [ exact Hlen | intros tok Hne; apply od_get_set_other; exact Hne ] ].
  destruct ts; exact Hnew.
Qed.

End SimConservationProofs.

Lemma simulate_fills_accounts_for_size_witness :
  let om : OrderManager.OrderManager Z :=
    OrderManager.with_live
      (OrderManager.OrderManager_init (U := nat)
         "0f8fad5b-d9cb-469f-a165-70867728950e" 2 15 true (Some 0.01))
      [("tok", [Examples.resting_buy; Examples.resting_sell])] in
  exists out om' w' u',
    OrderManager.simulate_fills (U := nat) Examples.sim_input (Some 1000%Z) 1000 om
      (Examples.world_of []) 0%nat
    = Ret (out, om', w', u')
    /\ OrderManager.fills out
       = Z.of_nat (length (OrderManager.trades_since [] (OrderManager.conn w')))
    /\ Allocator.sumQ (map Repo.t_size (OrderManager.trades_since [] (OrderManager.conn w')))
       + Allocator.sumQ
           (map OrderManager.size (default [] (OrderManager.od_get "tok" (OrderManager.live om'))))
       <= 20.
Proof.
  cbv zeta.
  destruct (simulate_fills_accounts_for_size (U := nat) Examples.sim_input (Some 1000%Z) 1000
              (OrderManager.with_live
                 (OrderManager.OrderManager_init (U := nat)
                    "0f8fad5b-d9cb-469f-a165-70867728950e" 2 15 true (Some 0.01))
                 [("tok", [Examples.resting_buy; Examples.resting_sell])])
              (Examples.world_of []) 0%nat)
    as (out & om' & w' & u' & Hcall & _ & _ & Hfills & Hlo & _).
  - vm_compute. reflexivity.
  - vm_compute. discriminate.
  - exists out, om', w', u'. split; [ exact Hcall | ]. split; [ exact Hfills | ].
    exact Hlo.
Defined.

(** ** pmm/cli.py: the depth quantile *)

Section QuantileProofs.
Import ControlLoop.

Lemma insert_sorted_In (x y : Q) (l : list Q) :
  In y (insert_sorted x l) <-> x = y \/ In y l.
Proof.
  induction l as [ | z l IH ]; cbn [insert_sorted].
  - cbn. tauto.
  - destruct (Qleb x z); cbn [In]; [ tauto | rewrite IH; tauto ].
Qed.

Lemma sorted_In (y : Q) (l : list Q) : In y (sorted l) <-> In y l.
Proof.
  induction l as [ | x l IH ]; [ reflexivity | ].
  change (sorted (x :: l)) with (insert_sorted x (sorted l)).
  rewrite insert_sorted_In, IH. reflexivity.
Qed.

Lemma insert_sorted_sorted (x : Q) (l : list Q) :
  StronglySorted Qle l -> StronglySorted Qle (insert_sorted x l).
Proof.
  induction 1 as [ | z l Hs IH Hall ]; cbn [insert_sorted].
  - repeat constructor.
  - destruct (Qleb x z) eqn:Hxz.
    + apply Qleb_true in Hxz. constructor; [ constructor; assumption | ].
      constructor; [ exact Hxz | ].
      eapply Forall_impl; [ exact Hall | ]. intros a Ha. cbn in Ha. lra.
    + apply Qleb_false in Hxz. constructor; [ exact IH | ].
      apply List.Forall_forall. intros y Hy.
      apply insert_sorted_In in Hy as [<- | Hy]; [ lra | ].
      rewrite List.Forall_forall in Hall. apply Hall. exact Hy.
Qed.

Lemma sorted_sorted (l : list Q) : StronglySorted Qle (sorted l).
Proof.
  induction l as [ | x l IH ]; [ constructor | ].
  change (sorted (x :: l)) with (insert_sorted x (sorted l)).
  apply insert_sorted_sorted. exact IH.
Qed.

Lemma sorted_nth_le (l : list Q) :
  StronglySorted Qle l ->
  forall i j, (i <= j < length l)%nat -> nth i l 0 <= nth j l 0.
Proof.
  induction 1 as [ | z l Hs IH Hall ]; intros i j Hij; cbn [length] in Hij; [ lia | ].
  destruct j as [ | j ].
  - assert (i = 0%nat) as -> by lia. cbn. lra.
  - destruct i as [ | i ]; cbn [nth].
    + rewrite List.Forall_forall in Hall. apply Hall. apply nth_In. lia.
    + apply IH. lia.
Qed.

Lemma py_index_in_range (xs : list Q) (i : Z) :
  (0 <= i < Z.of_nat (length xs))%Z -> py_index xs i = Ret (nth (Z.to_nat i) xs 0).
Proof.
  intros Hi. unfold py_index. cbv zeta.
  destruct (Z.ltb_spec i 0); [ lia | ].
  destruct (Z.leb_spec 0 i); [ | lia ].
  destruct (Z.ltb_spec i (Z.of_nat (length xs))); [ reflexivity | lia ].
Qed.

Lemma omap_id_In (v : Q) (vals : list (option Q)) :
  In v (omap id vals) <-> In (Some v) vals.
Proof.
  induction vals as [ | [x | ] vals IH ]; cbn; [ tauto | | ].
  - rewrite IH. split; intros [Hx | Hx]; auto; left; congruence.
  - rewrite IH. split; [ auto | intros [Hx | Hx]; [ discriminate | exact Hx ] ].
Qed.

Lemma interpolate_between (a b w lo hi : Q) :
  0 <= w <= 1 -> lo <= a <= hi -> lo <= b <= hi ->
  lo <= a * (1 - w) + b * w <= hi.
Proof.
  intros Hw Ha Hb.
  assert (H1 : 0 <= (a - lo) * (1 - w)) by (apply Qmult_le_0_compat; lra).
  assert (H2 : 0 <= (b - lo) * w) by (apply Qmult_le_0_compat; lra).
  assert (H3 : 0 <= (hi - a) * (1 - w)) by (apply Qmult_le_0_compat; lra).
  assert (H4 : 0 <= (hi - b) * w) by (apply Qmult_le_0_compat; lra).
  assert (E1 : a * (1 - w) + b * w - lo == (a - lo) * (1 - w) + (b - lo) * w) by ring.
  assert (E2 : hi - (a * (1 - w) + b * w) == (hi - a) * (1 - w) + (hi - b) * w) by ring.
  split; lra.
Qed.

(** The two positions that [_quantile] reads lie inside the list. *)
Lemma quantile_positions (n1 : Z) (q' : Q) :
  (1 <= n1)%Z -> 0 <= q' <= 1 ->
  (0 <= Qfloor (inject_Z n1 * q') <= n1)%Z /\ (0 <= Qceiling (inject_Z n1 * q') <= n1)%Z.
Proof.
  intros Hn [Hq0 Hq1]. set (pos := inject_Z n1 * q').
  assert (Hn1 : 1 <= inject_Z n1).
  { change 1 with (inject_Z 1). rewrite <- Zle_Qle. exact Hn. }
  assert (Hpos0 : 0 <= pos) by (apply Qmult_le_0_compat; lra).
  assert (Hpos1 : pos <= inject_Z n1).
  { assert (0 <= inject_Z n1 * (1 - q')) by (apply Qmult_le_0_compat; lra).
    assert (inject_Z n1 * (1 - q') == inject_Z n1 - pos) by (subst pos; ring).
    lra. }
  split; split.
  - rewrite <- (Qfloor_Z 0). apply Qfloor_resp_le. exact Hpos0.
  - rewrite <- (Qfloor_Z n1). apply Qfloor_resp_le. exact Hpos1.
  - rewrite <- (Qceiling_Z 0). apply Qceiling_resp_le. exact Hpos0.
  - rewrite <- (Qceiling_Z n1). apply Qceiling_resp_le. exact Hpos1.
Qed.

Lemma quantile_level (q : Q) : 0 <= py_max 0 (py_min 1 q) <= 1.
Proof.
  split; [ apply py_max_ge_l | ]. apply py_max_le; [ lra | apply py_min_le_first ].
Qed.

(** [_quantile] raises nothing. *)
Lemma quantile_returns (vals : list (option Q)) (q : Q) :
  exists r, _quantile vals q = Ret r.
Proof.
  unfold _quantile. destruct vals as [ | v0 vals0 ]; [ eauto | ]. cbv zeta.
  pose proof (quantile_level q) as Hq.
  destruct (sorted _) as [ | x [ | y xs' ] ]; [ eauto | eauto | ].
  set (l := x :: y :: xs') in *.
  assert (Hn : (1 <= Z.of_nat (length l) - 1)%Z) by (subst l; cbn [length]; lia).
  destruct (quantile_positions _ _ Hn Hq) as [Hfl Hce].
  rewrite !py_index_in_range by lia.
  destruct (_ =? _)%Z; cbn [mbind pyres_bind]; eauto.
Qed.

(** X24. [_quantile] never raises. Without a sample that is present and
    non-negative it returns 0; otherwise its result lies between any bounds
    that hold for those samples, it is their largest for [q >= 1] and their
    smallest for [q <= 0]. *)
Theorem quantile_within_samples (vals : list (option Q)) (q : Q) :
  exists r,
    _quantile vals q = Ret r
    /\ ((forall v, In (Some v) vals -> ~ 0 <= v) -> r = 0)
    /\ (forall lo hi,
          (exists v, In (Some v) vals /\ 0 <= v) ->
          (forall v, In (Some v) vals -> 0 <= v -> lo <= v <= hi) ->
          lo <= r <= hi)
    /\ (1 <= q -> forall v, In (Some v) vals -> 0 <= v -> v <= r)
    /\ (q <= 0 -> forall v, In (Some v) vals -> 0 <= v -> r <= v).
Proof.
  unfold _quantile. destruct vals as [ | v0 vals0 ].
  { exists 0. split; [ reflexivity | ]. split; [ reflexivity | ].
    split; [ intros lo hi (v & [] & _) | ]. split; intros _ v []. }
  cbv zeta. set (vals := v0 :: vals0).
  set (q' := py_max 0 (py_min 1 q)).
  destruct (quantile_level q) as [Hq0 Hq1]. fold q' in Hq0, Hq1.
  assert (Hhigh : 1 <= q -> q' == 1).
  { intros Hq. subst q'. unfold py_max, py_min.
    destruct (Qlt_le_dec q 1); destruct (Qlt_le_dec 0 _); lra. }
  assert (Hlow : q <= 0 -> q' == 0).
  { intros Hq. subst q'. unfold py_max, py_min.
    destruct (Qlt_le_dec q 1); destruct (Qlt_le_dec 0 _); lra. }
  clearbody q'.
  set (xs := sorted (List.filter (Qleb 0) (omap id vals))).
  assert (Hxs : forall v, In v xs <-> In (Some v) vals /\ 0 <= v).
  { intros v. subst xs. rewrite sorted_In, filter_In, omap_id_In, Qleb_true. reflexivity. }
  assert (Hsorted : StronglySorted Qle xs) by apply sorted_sorted.
  clearbody xs vals. clear v0 vals0.
  destruct xs as [ | x [ | y xs' ] ].
  - (* no sample left *)
    exists 0. split; [ reflexivity | ]. split; [ reflexivity | ].
    split; [ intros lo hi (v & Hv) _; apply Hxs in Hv; destruct Hv | ].
    split; intros _ v Hin Hv; destruct (proj2 (Hxs v) (conj Hin Hv)).
  - (* one sample *)
    exists x. split; [ reflexivity | ].
    assert (Hx : In (Some x) vals /\ 0 <= x) by (apply Hxs; left; reflexivity).
    split; [ intros Hnone; destruct (Hnone x (proj1 Hx) (proj2 Hx)) | ].
    split; [ intros lo hi _ Hb; apply Hb; apply Hx | ].
    split; intros _ v Hin Hv; destruct (proj2 (Hxs v) (conj Hin Hv)) as [<- | []]; lra.
  - (* interpolation *)
    set (l := x :: y :: xs') in *.
    assert (Hn : (2 <= Z.of_nat (length l))%Z) by (subst l; cbn [length]; lia).
    set (n1 := (Z.of_nat (length l) - 1)%Z) in *.
    set (pos := inject_Z n1 * q').
    destruct (quantile_positions n1 q' ltac:(lia) (conj Hq0 Hq1)) as [Hfl Hce].
    fold pos in Hfl, Hce.
    rewrite !py_index_in_range by lia.
    assert (Hnth : forall i, (0 <= i <= n1)%Z ->
                             In (Some (nth (Z.to_nat i) l 0)) vals
                             /\ 0 <= nth (Z.to_nat i) l 0).
    { intros i Hi. apply Hxs. apply nth_In. lia. }
    assert (Hmax : forall v, In v l -> v <= nth (Z.to_nat n1) l 0).
    { intros v Hv. destruct (In_nth l v 0 Hv) as (i & Hi & <-).
      apply sorted_nth_le; [ exact Hsorted | lia ]. }
    assert (Hmin : forall v, In v l -> nth 0 l 0 <= v).
    { intros v Hv. destruct (In_nth l v 0 Hv) as (i & Hi & <-).
      apply sorted_nth_le; [ exact Hsorted | lia ]. }
    assert (Hany : In (Some x) vals /\ 0 <= x) by (apply Hxs; left; reflexivity).
    assert (Htop : 1 <= q -> Qfloor pos = n1 /\ Qceiling pos = n1).
    { intros Hq. assert (Hp : pos == inject_Z n1) by (subst pos; rewrite (Hhigh Hq); ring).
      rewrite Hp, Qfloor_Z, Qceiling_Z. split; reflexivity. }
    assert (Hbot : q <= 0 -> Qfloor pos = 0%Z /\ Qceiling pos = 0%Z).
    { intros Hq. assert (Hp : pos == inject_Z 0) by (subst pos; rewrite (Hlow Hq); ring).
      rewrite Hp, Qfloor_Z, Qceiling_Z. split; reflexivity. }
    destruct (Z.eqb_spec (Qfloor pos) (Qceiling pos)) as [Heq | Hne].
    + eexists. split; [ reflexivity | ].
      split; [ intros Hnone; destruct (Hnone x (proj1 Hany) (proj2 Hany)) | ].
      split; [ intros lo hi _ Hb; apply Hb; apply Hnth; lia | ].
      split.
      * intros Hq v Hin Hv. destruct (Htop Hq) as [-> _].
        apply Hmax. apply Hxs. split; assumption.
      * intros Hq v Hin Hv. destruct (Hbot Hq) as [-> _].
        apply Hmin. apply Hxs. split; assumption.
    + cbn [mbind pyres_bind]. eexists. split; [ reflexivity | ].
      split; [ intros Hnone; destruct (Hnone x (proj1 Hany) (proj2 Hany)) | ].
      split.
      * intros lo hi _ Hb. apply interpolate_between.
        -- pose proof (Qfloor_le pos). pose proof (Qlt_floor pos) as Hlt.
           rewrite inject_Z_plus in Hlt. change (inject_Z 1) with 1 in Hlt. lra.
        -- apply Hb; apply Hnth; lia.
        -- apply Hb; apply Hnth; lia.
      * split; intros Hq; [ destruct (Htop Hq) | destruct (Hbot Hq) ]; congruence.
Qed.

(** X25. The depth reference stays in its band: when the configured minimum
    is at most the maximum and the previous reference lies between them, the
    update at the end of a round returns, for any sampled depths, a reference
    between them again. *)
Theorem depth_ref_stays_in_band (env : DepthRefEnv) (prev : Q) (depth_samples : list Q) :
  PMM_PAPER_DEPTH_REF_MIN env <= PMM_PAPER_DEPTH_REF_MAX env ->
  PMM_PAPER_DEPTH_REF_MIN env <= prev <= PMM_PAPER_DEPTH_REF_MAX env ->
  exists r,
    next_depth_ref env prev depth_samples = Ret r
    /\ PMM_PAPER_DEPTH_REF_MIN env <= r <= PMM_PAPER_DEPTH_REF_MAX env.
Proof.
  intros Hband Hprev. unfold next_depth_ref.
  destruct (String.eqb _ "static"); [ exists prev; split; [ reflexivity | exact Hprev ] | ].
  destruct (quantile_returns (map Some depth_samples) (PMM_PAPER_DEPTH_REF_QUANTILE env))
    as (est & ->).
  cbn [mbind pyres_bind]. cbv zeta. eexists. split; [ reflexivity | ].
  set (est' := py_max _ (py_min _ (if Qltb 0 est then _ else _))).
  set (ema := py_max 0 (py_min 0.99 _)).
  assert (Hest : PMM_PAPER_DEPTH_REF_MIN env <= est' <= PMM_PAPER_DEPTH_REF_MAX env).
  { subst est'. split; [ apply py_max_ge_l | ].
    apply py_max_le; [ exact Hband | apply py_min_le_first ]. }
  assert (Hema : 0 <= 1 - ema <= 1).
  { subst ema. split.
    - assert (py_max 0 (py_min 0.99 (PMM_PAPER_DEPTH_REF_EMA env)) <= 0.99)
        by (apply py_max_le; [ lra | apply py_min_le_first ]).
      lra.
    - pose proof (py_max_ge_l 0 (py_min 0.99 (PMM_PAPER_DEPTH_REF_EMA env))). lra. }
  clearbody est' ema.
  assert (Heq : prev * ema + est' * (1 - ema) == prev * (1 - (1 - ema)) + est' * (1 - ema))
    by ring.
  rewrite Heq. apply interpolate_between; assumption.
Qed.

End QuantileProofs.

Lemma depth_ref_stays_in_band_witness :
  exists r,
    ControlLoop.next_depth_ref ControlLoop.DepthRefEnv_default 2000 [1500; 300; 90000] = Ret r
    /\ 200 <= r <= 50000.
Proof.
  apply (depth_ref_stays_in_band ControlLoop.DepthRefEnv_default 2000 [1500; 300; 90000]).
  - vm_compute. discriminate.
  - split; vm_compute; discriminate.
Defined.
